(** * Whop gamification backend: XP, levels, streaks, achievements, rewards

    A shallow embedding of the Express server of the repository.  The
    repository holds two copies of the server: the full one (real OAuth,
    streaks, achievements, webhook dispatch) and [server.js], a cut-down
    copy whose helpers [awardXP], [calculateXPForLevel], [logActivity] and
    whose reward redemption route are textually the same, but whose task
    completion route and webhook route are shorter.  The shared helpers are
    embedded once; the routes that differ are embedded twice, the
    [server.js] ones inside [Module ServerJs] under the names
    [tasks_complete] and [webhooks_whop].

    Modelling choices:
    - JavaScript numbers read from INTEGER columns are unbounded [Z].
    - [Math.floor (100 * Math.pow (1.5, level - 1))] is evaluated in
      binary64: the power and the product are each rounded to the nearest
      double, ties to even, and overflow to [Infinity].  ECMAScript leaves
      the precision of [Math.pow] to the implementation; the nearest double
      is taken.
    - A table is the list of its rows; [rows[0]] of a SELECT is the first
      matching row, an UPDATE rewrites every matching row, an INSERT
      appends.  The place of a row in the list is a choice of the model
      (the store may move a row that it updates).
    - [NOW()], [CURRENT_DATE] and [new Date()] read one clock value per
      request, in milliseconds since the epoch; [DATE(t)] is the UTC day.
    - A JavaScript exception leaves the writes made before it in place
      (the source opens no transaction). *)

From Stdlib Require Import ZArith List String Bool Lia QArith Qround Qpower Lqa.
From Stdlib Require Import DecimalString.
Import ListNotations.

Open Scope string_scope.
Open Scope list_scope.
Open Scope Z_scope.

(** ** JavaScript numbers *)

(** A non-negative binary64 value: a finite one, held as the rational it
    equals, or [Infinity]. *)
Inductive double := Finite (q : Q) | Double_Infinity.

(** [floor (log2 q)] for [q > 0]. *)
Definition floor_log2 (q : Q) : Z :=
  let e := Z.log2 (Qnum q) - Z.log2 (Zpos (Qden q)) in
  if Qle_bool (Qpower 2 e) q then e else e - 1.

(** The integer nearest to [r], the even one of two that are equally near. *)
Definition round_half_even (r : Q) : Z :=
  let f := Qfloor r in
  match Qcompare (r - inject_Z f) (1 # 2) with
  | Lt => f
  | Gt => f + 1
  | Eq => if Z.even f then f else f + 1
  end.

(** The binary exponent of [q > 0], not below that of the subnormals. *)
Definition exponent (q : Q) : Z := Z.max (floor_log2 q) (-1022).

(** The distance of two neighbouring doubles around [q > 0]: 53 significant
    bits. *)
Definition ulp (q : Q) : Q := Qpower 2 (exponent q - 52).

(** The multiple of [ulp q] nearest to [q]. *)
Definition nearest (q : Q) : Q :=
  inject_Z (round_half_even (q / ulp q)) * ulp q.

(** Rounding of an exact result [q >= 0] to binary64, to nearest, ties to
    even; a result of [2 ^ 1024] or more is [Infinity]. *)
Definition round_binary64 (q : Q) : double :=
  if Qle_bool q 0 then Finite 0
  else if Qle_bool (Qpower 2 1024) (nearest q) then Double_Infinity
  else Finite (nearest q).

(** [Math.pow(x, y)] for a double [x > 0] and an integer [y]. *)
Definition Math_pow (x : Q) (y : Z) : double := round_binary64 (Qpower x y).

(** [a * d] for a double [a > 0]. *)
Definition times (a : Q) (d : double) : double :=
  match d with
  | Finite q => round_binary64 (a * q)
  | Double_Infinity => Double_Infinity
  end.

(** An integral JavaScript number or [Infinity]. *)
Inductive number := Num (n : Z) | Infinity.

(** [Math.floor(d)] *)
Definition Math_floor (d : double) : number :=
  match d with
  | Finite q => Num (Qfloor q)
  | Double_Infinity => Infinity
  end.

(** The order of the values, [Infinity] on top. *)
Definition double_le (a b : double) : Prop :=
  match a, b with
  | Finite x, Finite y => (x <= y)%Q
  | _, Double_Infinity => True
  | Double_Infinity, Finite _ => False
  end.

Definition number_le (a b : number) : Prop :=
  match a, b with
  | Num x, Num y => x <= y
  | _, Infinity => True
  | Infinity, Num _ => False
  end.

Definition number_lt (a b : number) : Prop :=
  match a, b with
  | Num x, Num y => x < y
  | Num _, Infinity => True
  | Infinity, _ => False
  end.

(** [a + b] on these numbers. *)
Definition number_plus (a b : number) : number :=
  match a, b with
  | Num x, Num y => Num (x + y)
  | _, _ => Infinity
  end.

(** ** The XP curve *)

(** [function calculateXPForLevel(level)]:
    [Math.floor(100 * Math.pow(1.5, level - 1))]; [1.5], [100] and
    [level - 1] are exact. *)
Definition calculateXPForLevel (level : Z) : number :=
  Math_floor (times 100 (Math_pow (3 # 2) (level - 1))).

(** The curve in the words of the specification, in exact arithmetic:
    [floor (100 * 1.5 ^ (L - 1))]. *)
Definition XPForLevel (L : Z) : Z :=
  Qfloor (inject_Z 100 * Qpower (3 # 2) (L - 1)).

(** The closed form of [XPForLevel] on levels [>= 1], as an integer
    division. *)
Definition xp_closed_form (level : Z) : Z :=
  (100 * 3 ^ (level - 1)) / 2 ^ (level - 1).

(** The relative error of one rounding: [2 ^ -53]. *)
Definition eps : Q := 1 # 9007199254740992.

(** The levels [first], [first + 1], ..., [count] of them. *)
Definition levels (first count : nat) : list Z :=
  map Z.of_nat (seq first count).

(** The code and the specification give the same value at level [L]. *)
Definition agrees (L : Z) : bool :=
  match calculateXPForLevel L with
  | Num n => n =? XPForLevel L
  | Infinity => false
  end.

(** ** Rows of the relational store *)

(** A row of [users] (the columns the routes below read or write). *)
Record user := {
  id : Z;
  whop_user_id : string;
  level : Z;
  xp : Z;
  total_points : Z;
  streak : Z;
  last_activity : option Z;  (* NULL until the first streak update *)
  access_token : option string;
  refresh_token : option string;
  last_login : option Z      (* NULL until a later login *)
}.

Record daily_task := {
  dt_id : Z;
  required_count : Z;
  xp_reward : Z;
  dt_active : bool
}.

Record user_task := {
  ut_user_id : Z;
  ut_task_id : Z;
  completed : bool;
  progress : Z;
  completed_at : option Z;
  ut_created_at : Z
}.

Record user_achievement := {
  ua_user_id : Z;
  achievement_id : Z;
  unlocked_at : Z
}.

Record reward := {
  rw_id : Z;
  cost : Z;
  rw_active : bool
}.

Record user_reward := {
  ur_user_id : Z;
  reward_id : Z;
  redeemed_at : Z
}.

Record activity := {
  al_user_id : Z;
  activity_type : string;
  description : string;
  xp_earned : Z;
  al_created_at : Z
}.

(** The store, the clock of the current request and the console. *)
Record world := {
  users : list user;
  daily_tasks : list daily_task;
  user_tasks : list user_task;
  user_achievements : list user_achievement;
  rewards : list reward;
  user_rewards : list user_reward;
  activity_log : list activity;
  clock : Z;
  console : list string
}.

Definition with_users (f : list user -> list user) (w : world) : world :=
  {| users := f (users w); daily_tasks := daily_tasks w;
     user_tasks := user_tasks w; user_achievements := user_achievements w;
     rewards := rewards w; user_rewards := user_rewards w;
     activity_log := activity_log w; clock := clock w; console := console w |}.

Definition with_user_tasks (f : list user_task -> list user_task) (w : world)
  : world :=
  {| users := users w; daily_tasks := daily_tasks w;
     user_tasks := f (user_tasks w); user_achievements := user_achievements w;
     rewards := rewards w; user_rewards := user_rewards w;
     activity_log := activity_log w; clock := clock w; console := console w |}.

Definition with_user_achievements
  (f : list user_achievement -> list user_achievement) (w : world) : world :=
  {| users := users w; daily_tasks := daily_tasks w;
     user_tasks := user_tasks w; user_achievements := f (user_achievements w);
     rewards := rewards w; user_rewards := user_rewards w;
     activity_log := activity_log w; clock := clock w; console := console w |}.

Definition with_user_rewards (f : list user_reward -> list user_reward)
  (w : world) : world :=
  {| users := users w; daily_tasks := daily_tasks w;
     user_tasks := user_tasks w; user_achievements := user_achievements w;
     rewards := rewards w; user_rewards := f (user_rewards w);
     activity_log := activity_log w; clock := clock w; console := console w |}.

Definition with_activity_log (f : list activity -> list activity) (w : world)
  : world :=
  {| users := users w; daily_tasks := daily_tasks w;
     user_tasks := user_tasks w; user_achievements := user_achievements w;
     rewards := rewards w; user_rewards := user_rewards w;
     activity_log := f (activity_log w); clock := clock w;
     console := console w |}.

Definition with_console (f : list string -> list string) (w : world) : world :=
  {| users := users w; daily_tasks := daily_tasks w;
     user_tasks := user_tasks w; user_achievements := user_achievements w;
     rewards := rewards w; user_rewards := user_rewards w;
     activity_log := activity_log w; clock := clock w;
     console := f (console w) |}.

(** The world when a request arrives at time [t]. *)
Definition at_time (t : Z) (w : world) : world :=
  {| users := users w; daily_tasks := daily_tasks w;
     user_tasks := user_tasks w; user_achievements := user_achievements w;
     rewards := rewards w; user_rewards := user_rewards w;
     activity_log := activity_log w; clock := t; console := console w |}.

(** ** Effects: state, with exceptions that keep the state *)

Inductive exn :=
| TypeError (message : string)
| DatabaseError (message : string).

Inductive outcome (A : Type) :=
| Return (a : A)
| Throw (e : exn).
Arguments Return {A} a.
Arguments Throw {A} e.

Definition M (A : Type) : Type := world -> outcome A * world.

Definition ret {A} (a : A) : M A := fun w => (Return a, w).

Definition bind {A B} (m : M A) (k : A -> M B) : M B :=
  fun w => match m w with
           | (Return a, w') => k a w'
           | (Throw e, w') => (Throw e, w')
           end.

Definition throw {A} (e : exn) : M A := fun w => (Throw e, w).

(** [try { m } catch (error) { h error }] *)
Definition try_catch {A} (m : M A) (h : exn -> M A) : M A :=
  fun w => match m w with
           | (Return a, w') => (Return a, w')
           | (Throw e, w') => h e w'
           end.

(** A read-only statement. *)
Definition query {A} (q : world -> A) : M A := fun w => (Return (q w), w).

(** A write statement. *)
Definition exec (f : world -> world) : M unit := fun w => (Return tt, f w).

Notation "x <- m ;; k" := (bind m (fun x => k))
  (at level 61, m at next level, right associativity).
Notation "m ;; k" := (bind m (fun _ => k))
  (at level 61, right associativity).

Definition run {A} (m : M A) (w : world) : world := snd (m w).
Definition outcome_of {A} (m : M A) (w : world) : outcome A := fst (m w).

Definition console_log (line : string) : M unit :=
  exec (with_console (fun c => c ++ [line])).

Definition console_error (line : string) : M unit :=
  exec (with_console (fun c => c ++ [line])).

(** ** JSON responses *)

Inductive json :=
| Json_error (error : string)
| Json_success
| Json_success_xpEarned (xpEarned : Z)
| Json_success_message (message : string).

Record response := { status : Z; body : json }.

Definition res_json (b : json) : response := {| status := 200; body := b |}.
Definition res_status_json (s : Z) (b : json) : response :=
  {| status := s; body := b |}.

(** ** SQL statements of the helpers *)

Definition msPerDay : Z := 1000 * 60 * 60 * 24.

(** [DATE(t)]: the number of the UTC calendar day of [t]. *)
Definition DATE (t : Z) : Z := t / msPerDay.

(** [`${n}`] for a number. *)
Definition string_of_Z (n : Z) : string :=
  NilZero.string_of_int (Z.to_int n).

Definition has_id (userId : Z) (u : user) : bool := id u =? userId.

(** [SELECT ... FROM users WHERE id = $1] *)
Definition select_user (userId : Z) (w : world) : list user :=
  filter (has_id userId) (users w).

Definition set_progress (xp' level' points' : Z) (u : user) : user :=
  {| id := id u; whop_user_id := whop_user_id u; level := level';
     xp := xp'; total_points := points'; streak := streak u;
     last_activity := last_activity u; access_token := access_token u;
     refresh_token := refresh_token u; last_login := last_login u |}.

Definition set_streak (last : option Z) (streak' : Z) (u : user) : user :=
  {| id := id u; whop_user_id := whop_user_id u; level := level u;
     xp := xp u; total_points := total_points u; streak := streak';
     last_activity := last; access_token := access_token u;
     refresh_token := refresh_token u; last_login := last_login u |}.

(** The columns [access_token], [refresh_token] and [last_login]. *)
Definition set_login (access refresh : string) (t : Z) (u : user) : user :=
  {| id := id u; whop_user_id := whop_user_id u; level := level u;
     xp := xp u; total_points := total_points u; streak := streak u;
     last_activity := last_activity u; access_token := Some access;
     refresh_token := Some refresh; last_login := Some t |}.

Definition set_total_points (points' : Z) (u : user) : user :=
  {| id := id u; whop_user_id := whop_user_id u; level := level u;
     xp := xp u; total_points := points'; streak := streak u;
     last_activity := last_activity u; access_token := access_token u;
     refresh_token := refresh_token u; last_login := last_login u |}.

(** [UPDATE users SET ... WHERE id = $n]: every row with that id. *)
Definition update_user (userId : Z) (f : user -> user) : world -> world :=
  with_users (map (fun u => if has_id userId u then f u else u)).

(** [logActivity(userId, activityType, description, xpEarned)]:
    [INSERT INTO activity_log (...) VALUES ($1, $2, $3, $4, NOW())]. *)
Definition logActivity (userId : Z) (activityType description : string)
  (xpEarned : Z) : M unit :=
  exec (fun w => with_activity_log (fun l => l ++
    [{| al_user_id := userId; activity_type := activityType;
        description := description; xp_earned := xpEarned;
        al_created_at := clock w |}]) w).

(** ** Progression engine *)

Record award := { newLevel : Z; newXP : Z; leveledUp : bool }.

(** The test [newXP >= xpNeeded] of [awardXP] and, where it holds, the
    difference [newXP - xpNeeded]; no integer is [>= Infinity]. *)
Definition surplus (newXP : Z) (xpNeeded : number) : option Z :=
  match xpNeeded with
  | Num needed => if needed <=? newXP then Some (newXP - needed) else None
  | Infinity => None
  end.

(** [async function awardXP(userId, xp)].  [userResult.rows[0]] is
    [undefined] when no row matches, and reading [user.xp] then throws. *)
Definition awardXP (userId xp_ : Z) : M award :=
  userResult <- query (select_user userId) ;;
  match userResult with
  | [] => throw (TypeError "Cannot read properties of undefined (reading 'xp')")
  | user :: _ =>
      let newXP := xp user + xp_ in
      let newPoints := total_points user + xp_ in
      let xpNeeded := calculateXPForLevel (level user + 1) in
      let levelUp := surplus newXP xpNeeded in
      let newLevel :=
        match levelUp with Some _ => level user + 1 | None => level user end in
      let remainingXP :=
        match levelUp with Some rest => rest | None => newXP end in
      match levelUp with
      | Some _ => logActivity userId "level_up"
                    (String.append "Reached Level " (string_of_Z newLevel)) 1000
      | None => ret tt
      end ;;
      exec (update_user userId (set_progress remainingXP newLevel newPoints)) ;;
      ret {| newLevel := newLevel; newXP := remainingXP;
             leveledUp := level user <? newLevel |}
  end.

Definition unlocked (userId achievementId : Z) (r : user_achievement) : bool :=
  (ua_user_id r =? userId) && (achievement_id r =? achievementId).

(** [async function awardAchievement(userId, achievementId, xp)] *)
Definition awardAchievement (userId achievementId xp_ : Z) : M unit :=
  existing <- query (fun w =>
    filter (unlocked userId achievementId) (user_achievements w)) ;;
  if (0 <? Z.of_nat (List.length existing)) then ret tt
  else
    exec (fun w => with_user_achievements (fun l => l ++
      [{| ua_user_id := userId; achievement_id := achievementId;
          unlocked_at := clock w |}]) w) ;;
    awardXP userId xp_ ;;
    logActivity userId "achievement" "Unlocked achievement" xp_.

(** [async function updateStreak(userId)].  [new Date(null)] is the epoch;
    [Math.floor] of the quotient is the floor division of [Z]. *)
Definition updateStreak (userId : Z) : M unit :=
  result <- query (select_user userId) ;;
  match result with
  | [] => throw (TypeError
            "Cannot read properties of undefined (reading 'last_activity')")
  | user :: _ =>
      today <- query clock ;;
      let lastActivity :=
        match last_activity user with Some t => t | None => 0 end in
      let daysDiff := (today - lastActivity) / msPerDay in
      let newStreak :=
        if daysDiff =? 1 then streak user + 1
        else if 1 <? daysDiff then 1
        else streak user in
      exec (fun w => update_user userId (set_streak (Some (clock w)) newStreak) w) ;;
      if newStreak =? 7 then awardAchievement userId 3 500      (* Week Warrior *)
      else if newStreak =? 30 then awardAchievement userId 6 1000 (* Month Master *)
      else ret tt
  end.

(** ** Achievement rule evaluator *)

Definition logged (userId : Z) (activityType : string) (a : activity) : bool :=
  (al_user_id a =? userId) && String.eqb (activity_type a) activityType.

(** [SELECT COUNT( * ) FROM activity_log WHERE user_id = $1 AND
    activity_type = ...] *)
Definition count_activity (userId : Z) (activityType : string) (w : world) : Z :=
  Z.of_nat (List.length (filter (logged userId activityType) (activity_log w))).

(** [async function checkMessageAchievements(userId)] *)
Definition checkMessageAchievements (userId : Z) : M unit :=
  count <- query (count_activity userId "message") ;;
  if 50 <=? count then awardAchievement userId 2 250   (* Chatterbox *)
  else ret tt.

(** [async function checkPostAchievements(userId)] *)
Definition checkPostAchievements (userId : Z) : M unit :=
  count <- query (count_activity userId "post") ;;
  if 25 <=? count then awardAchievement userId 5 750   (* Content King *)
  else ret tt.

(** ** Webhook handlers *)

(** The [data] object of an event; a missing [user_id] is [None]. *)
Record payload := { user_id : option string }.

(** The request body of the webhook route; a missing [data] is [None]. *)
Record event := { type : string; data : option payload }.

Definition has_whop_id (whopUserId : option string) (u : user) : bool :=
  match whopUserId with
  | Some w => String.eqb (whop_user_id u) w
  | None => false              (* [whop_user_id = NULL] selects no row *)
  end.

(** [async function getUserByWhopId(whopUserId)]: [result.rows[0]]. *)
Definition getUserByWhopId (whopUserId : option string) : M (option user) :=
  query (fun w => hd_error (filter (has_whop_id whopUserId) (users w))).

Definition data_undefined {A} : M A :=
  throw (TypeError "Cannot read properties of undefined (reading 'user_id')").

(** [async function handleMessageCreated(data)] *)
Definition handleMessageCreated (data : option payload) : M unit :=
  match data with
  | None => data_undefined
  | Some data =>
      user <- getUserByWhopId (user_id data) ;;
      match user with
      | None => ret tt
      | Some user =>
          awardXP (id user) 10 ;;
          checkMessageAchievements (id user)
      end
  end.

(** [async function handlePostCreated(data)] *)
Definition handlePostCreated (data : option payload) : M unit :=
  match data with
  | None => data_undefined
  | Some data =>
      user <- getUserByWhopId (user_id data) ;;
      match user with
      | None => ret tt
      | Some user =>
          awardXP (id user) 50 ;;
          checkPostAchievements (id user)
      end
  end.

(** [async function handleReactionAdded(data)] *)
Definition handleReactionAdded (data : option payload) : M unit :=
  match data with
  | None => data_undefined
  | Some data =>
      user <- getUserByWhopId (user_id data) ;;
      match user with
      | None => ret tt
      | Some user => awardXP (id user) 5 ;; ret tt
      end
  end.

(** [async function handleMemberJoined(data)]: an empty body. *)
Definition handleMemberJoined (data : option payload) : M unit := ret tt.

(** [app.post('/webhooks/whop', ...)] *)
Definition post_webhooks_whop (event : event) : M response :=
  try_catch
    ((if String.eqb (type event) "message.created"
      then handleMessageCreated (data event)
      else if String.eqb (type event) "post.created"
      then handlePostCreated (data event)
      else if String.eqb (type event) "reaction.added"
      then handleReactionAdded (data event)
      else if String.eqb (type event) "member.joined"
      then handleMemberJoined (data event)
      else console_log
             (String.append "Unhandled webhook event: " (type event))) ;;
     ret (res_json Json_success))
    (fun error =>
       console_error "Webhook error:" ;;
       ret (res_status_json 500 (Json_error "Webhook processing failed"))).

(** ** Task completion *)

(** [WHERE user_id = $1 AND task_id = $2 AND DATE(created_at) = CURRENT_DATE] *)
Definition task_row_of (userId taskId day : Z) (r : user_task) : bool :=
  (ut_user_id r =? userId) && (ut_task_id r =? taskId) &&
  (DATE (ut_created_at r) =? day).

Definition set_completed (t : Z) (r : user_task) : user_task :=
  {| ut_user_id := ut_user_id r; ut_task_id := ut_task_id r;
     completed := true; progress := progress r;
     completed_at := Some t; ut_created_at := ut_created_at r |}.

Definition new_user_task (userId taskId progress' t : Z) : user_task :=
  {| ut_user_id := userId; ut_task_id := taskId; completed := true;
     progress := progress'; completed_at := Some t; ut_created_at := t |}.

(** [INSERT INTO user_tasks (...) VALUES ($1, $2, true, $3, NOW(), NOW())
     ON CONFLICT (user_id, task_id, DATE(created_at))
     DO UPDATE SET completed = true, completed_at = NOW()].
    The statement needs a unique index on that key, which is taken to
    exist: a row of the same user, task and day is rewritten, otherwise the
    new row is appended. *)
Definition upsert_user_task (userId taskId progress' : Z) (w : world) : world :=
  let conflict := task_row_of userId taskId (DATE (clock w)) in
  if existsb conflict (user_tasks w)
  then with_user_tasks
         (map (fun r => if conflict r then set_completed (clock w) r else r)) w
  else with_user_tasks
         (fun l => l ++ [new_user_task userId taskId progress' (clock w)]) w.

(** [app.post('/api/tasks/complete', authenticateToken, ...)] of the full
    server; [userId] is [req.user.userId] of the verified token. *)
Definition post_api_tasks_complete (userId taskId : Z) : M response :=
  try_catch
    (taskResult <- query (fun w =>
       filter (fun t => dt_id t =? taskId) (daily_tasks w)) ;;
     match taskResult with
     | [] => ret (res_status_json 404 (Json_error "Task not found"))
     | task :: _ =>
         existingTask <- query (fun w =>
           filter (task_row_of userId taskId (DATE (clock w))) (user_tasks w)) ;;
         if match existingTask with
            | [] => false
            | row :: _ => completed row
            end
         then ret (res_status_json 400
                     (Json_error "Task already completed today"))
         else
           exec (upsert_user_task userId taskId (required_count task)) ;;
           awardXP userId (xp_reward task) ;;
           updateStreak userId ;;
           ret (res_json (Json_success_xpEarned (xp_reward task)))
     end)
    (fun error =>
       console_error "Error completing task:" ;;
       ret (res_status_json 500 (Json_error "Failed to complete task"))).

(** ** Reward redemption *)

(** [app.post('/api/rewards/redeem', authenticateToken, ...)], the same in
    both copies of the server. *)
Definition post_api_rewards_redeem (userId rewardId : Z) : M response :=
  try_catch
    (rewardResult <- query (fun w =>
       filter (fun r => (rw_id r =? rewardId) && rw_active r) (rewards w)) ;;
     match rewardResult with
     | [] => ret (res_status_json 404 (Json_error "Reward not found"))
     | reward :: _ =>
         userResult <- query (select_user userId) ;;
         match userResult with
         | [] => throw (TypeError
             "Cannot read properties of undefined (reading 'total_points')")
         | user :: _ =>
             if total_points user <? cost reward
             then ret (res_status_json 400 (Json_error "Insufficient points"))
             else
               exec (update_user userId (fun u =>
                       set_total_points (total_points u - cost reward) u)) ;;
               exec (fun w => with_user_rewards (fun l => l ++
                       [{| ur_user_id := userId; reward_id := rewardId;
                           redeemed_at := clock w |}]) w) ;;
               ret (res_json
                      (Json_success_message "Reward redeemed successfully"))
         end
     end)
    (fun error =>
       console_error "Error redeeming reward:" ;;
       ret (res_status_json 500 (Json_error "Failed to redeem reward"))).

(** ** The routes of [server.js] that differ *)

(** What the store holds on [user_tasks].  The ON CONFLICT target of the
    full server needs a unique index on
    [(user_id, task_id, DATE(created_at))]; [server.js] names no
    constraint, so its route is embedded for a store with the index and
    for one without. *)
Inductive user_tasks_index := Unique_per_day | No_unique_index.

(** [INSERT INTO user_tasks (...) VALUES ($1, $2, true, $3, NOW(), NOW())]:
    under the unique index a second row of the same user, task and day is
    refused with a duplicate-key error. *)
Definition insert_user_task (index : user_tasks_index)
  (userId taskId progress' : Z) : M unit :=
  let insert := exec (fun w => with_user_tasks (fun l => l ++
                  [new_user_task userId taskId progress' (clock w)]) w) in
  match index with
  | Unique_per_day =>
      conflict <- query (fun w =>
        existsb (task_row_of userId taskId (DATE (clock w))) (user_tasks w)) ;;
      if conflict
      then throw (DatabaseError
                    "duplicate key value violates unique constraint")
      else insert
  | No_unique_index => insert
  end.

Module ServerJs.

(** [app.post('/api/tasks/complete', ...)] of [server.js]: a plain INSERT,
    then [awardXP]. *)
Definition tasks_complete (index : user_tasks_index) (userId taskId : Z)
  : M response :=
  try_catch
    (taskResult <- query (fun w =>
       filter (fun t => dt_id t =? taskId) (daily_tasks w)) ;;
     match taskResult with
     | [] => ret (res_status_json 404 (Json_error "Task not found"))
     | task :: _ =>
         insert_user_task index userId taskId (required_count task) ;;
         awardXP userId (xp_reward task) ;;
         ret (res_json (Json_success_xpEarned (xp_reward task)))
     end)
    (fun error =>
       console_error "Error completing task:" ;;
       ret (res_status_json 500 (Json_error "Failed to complete task"))).

(** [app.post('/webhooks/whop', ...)] of [server.js]. *)
Definition webhooks_whop (event : event) : M response :=
  try_catch
    (console_log (String.append "Webhook received: " (type event)) ;;
     ret (res_json Json_success))
    (fun error =>
       console_error "Webhook error:" ;;
       ret (res_status_json 500 (Json_error "Webhook processing failed"))).

End ServerJs.

(** ** Observations on a world *)

(** The row of a user as the helpers read it: the first row with that id. *)
Definition find_user (userId : Z) (w : world) : option user :=
  hd_error (select_user userId w).

Definition unlock_count (userId achievementId : Z) (w : world) : nat :=
  List.length (filter (unlocked userId achievementId) (user_achievements w)).

Definition redeemed (userId rewardId : Z) (r : user_reward) : bool :=
  (ur_user_id r =? userId) && (reward_id r =? rewardId).

Definition redemption_count (userId rewardId : Z) (w : world) : nat :=
  List.length (filter (redeemed userId rewardId) (user_rewards w)).

Definition find_reward (rewardId : Z) (w : world) : option reward :=
  hd_error (filter (fun r => (rw_id r =? rewardId) && rw_active r) (rewards w)).

Definition find_task (taskId : Z) (w : world) : option daily_task :=
  hd_error (filter (fun t => dt_id t =? taskId) (daily_tasks w)).

Definition task_rows (userId taskId day : Z) (w : world) : list user_task :=
  filter (task_row_of userId taskId day) (user_tasks w).

(** The invariant of the data model: [xp < XP-required(level + 1)]. *)
Definition xp_below_next (u : user) : Prop :=
  number_lt (Num (xp u)) (calculateXPForLevel (level u + 1)).

(** ** Operations and reachable worlds *)

Inductive operation :=
| Op_awardXP (userId amount : Z)
| Op_awardAchievement (userId achievementId xpBonus : Z)
| Op_updateStreak (userId : Z)
| Op_complete_task (userId taskId : Z)
| Op_webhook (e : event).

Definition perform (o : operation) : M unit :=
  match o with
  | Op_awardXP userId amount => awardXP userId amount ;; ret tt
  | Op_awardAchievement userId a bonus => awardAchievement userId a bonus
  | Op_updateStreak userId => updateStreak userId
  | Op_complete_task userId taskId =>
      post_api_tasks_complete userId taskId ;; ret tt
  | Op_webhook e => post_webhooks_whop e ;; ret tt
  end.

(** Awards are of non-negative amounts. *)
Definition admissible (o : operation) : Prop :=
  match o with
  | Op_awardXP _ amount => 0 <= amount
  | Op_awardAchievement _ _ bonus => 0 <= bonus
  | _ => True
  end.

(** [reachable w0 w]: [w] is [w0] after finitely many operations, each at
    its own clock value. *)
Inductive reachable (w0 : world) : world -> Prop :=
| reach_start : reachable w0 w0
| reach_step w t o :
    reachable w0 w -> admissible o ->
    reachable w0 (run (perform o) (at_time t w)).

(** A list of operations with their clock values, in order. *)
Fixpoint run_trace (trace : list (Z * operation)) (w : world) : world :=
  match trace with
  | [] => w
  | (t, o) :: rest => run_trace rest (run (perform o) (at_time t w))
  end.

(** [awardXP] of each amount of a list, in order, to one user. *)
Fixpoint award_all (userId : Z) (amounts : list Z) (w : world) : world :=
  match amounts with
  | [] => w
  | a :: rest => award_all userId rest (run (awardXP userId a) w)
  end.

(** The events of a list, one after the other, at one clock value. *)
Fixpoint deliver (events : list event) (w : world) : list response * world :=
  match events with
  | [] => ([], w)
  | e :: rest =>
      match post_webhooks_whop e w with
      | (Return r, w') => let (rs, w'') := deliver rest w' in (r :: rs, w'')
      | (Throw _, w') => ([], w')
      end
  end.

(** ** Sample worlds *)

(** A user as [/auth/callback] of [server.js] inserts it: level 1, no xp,
    no points; the columns that the INSERT does not name are NULL. *)
Definition new_user (userId : Z) (whopId : string) : user :=
  {| id := userId; whop_user_id := whopId; level := 1; xp := 0;
     total_points := 0; streak := 0; last_activity := None;
     access_token := None; refresh_token := None; last_login := None |}.

Definition sample_world : world :=
  {| users := [new_user 1 "user_abc"];
     daily_tasks := [{| dt_id := 1; required_count := 1; xp_reward := 80;
                        dt_active := true |};
                     {| dt_id := 2; required_count := 3; xp_reward := 10;
                        dt_active := true |}];
     user_tasks := []; user_achievements := [];
     rewards := [{| rw_id := 1; cost := 500; rw_active := true |}];
     user_rewards := []; activity_log := [];
     clock := 0; console := [] |}.

(** Task 2 completed at noon of the days 1 to 7. *)
Definition week_of_task_2 : list (Z * operation) :=
  map (fun d => (d * msPerDay + 43200000, Op_complete_task 1 2))
      [1; 2; 3; 4; 5; 6; 7].

(** Task 2 completed on the days 1 to 7, each time 23 hours after the time
    before: at 23:30 on day 1, at 22:30 on day 2, ..., at 17:30 on day 7. *)
Definition evenings_of_task_2 : list (Z * operation) :=
  map (fun k => (171000000 + k * 82800000, Op_complete_task 1 2))
      [0; 1; 2; 3; 4; 5; 6].

(** Task 1 completed at 10:00 and task 2 at 10:05 on each of the days 1 to
    10. *)
Definition two_tasks_a_day : list (Z * operation) :=
  flat_map (fun d => [(d * msPerDay + 36000000, Op_complete_task 1 1);
                      (d * msPerDay + 36300000, Op_complete_task 1 2)])
           [1; 2; 3; 4; 5; 6; 7; 8; 9; 10].

(** User 1 after an award of 1200 and one redemption of reward 1. *)
Definition redeemed_world : world :=
  run (post_api_rewards_redeem 1 1) (run (awardXP 1 1200) sample_world).

(** User 1 with a streak of 3, last active on day 0 at 23:00; the request
    arrives on day 1 at 01:00. *)
Definition late_evening_world : world :=
  at_time 90000000
    (update_user 1 (set_streak (Some 82800000) 3) sample_world).

(** User 1 with a streak of 3, last active on day 0 at 01:00; the request
    arrives on day 2 at 00:30. *)
Definition two_dates_later_world : world :=
  at_time 174600000
    (update_user 1 (set_streak (Some 3600000) 3) sample_world).

(** User 1 with a streak of 6, last active at the epoch; the request
    arrives 25 hours later. *)
Definition sixth_day_world : world :=
  at_time 90000000 (update_user 1 (set_streak (Some 0) 6) sample_world).

Definition event_of (eventType whopId : string) : event :=
  {| type := eventType; data := Some {| user_id := Some whopId |} |}.

Definition message_event (whopId : string) : event :=
  {| type := "message.created"; data := Some {| user_id := Some whopId |} |}.

(** ** Closed forms used by the proofs *)

(** The row [u] after [awardXP] of [a]. *)
Definition awardXP_user (a : Z) (u : user) : user :=
  match surplus (xp u + a) (calculateXPForLevel (level u + 1)) with
  | Some rest => set_progress rest (level u + 1) (total_points u + a) u
  | None => set_progress (xp u + a) (level u) (total_points u + a) u
  end.

(** The world after [awardXP userId a] on the row [u]. *)
Definition awardXP_world (userId a : Z) (u : user) (w : world) : world :=
  match surplus (xp u + a) (calculateXPForLevel (level u + 1)) with
  | Some rest =>
      update_user userId
        (set_progress rest (level u + 1) (total_points u + a))
        (with_activity_log (fun l => l ++
           [{| al_user_id := userId; activity_type := "level_up";
               description :=
                 String.append "Reached Level " (string_of_Z (level u + 1));
               xp_earned := 1000; al_created_at := clock w |}]) w)
  | None =>
      update_user userId
        (set_progress (xp u + a) (level u) (total_points u + a)) w
  end.

Definition awardXP_result (a : Z) (u : user) : award :=
  match surplus (xp u + a) (calculateXPForLevel (level u + 1)) with
  | Some rest =>
      {| newLevel := level u + 1; newXP := rest;
         leveledUp := level u <? level u + 1 |}
  | None =>
      {| newLevel := level u; newXP := xp u + a;
         leveledUp := level u <? level u |}
  end.

(** The world after a successful redemption of the reward [r]. *)
Definition redeem_world (userId rewardId : Z) (r : reward) (w : world) : world :=
  with_user_rewards (fun l => l ++
    [{| ur_user_id := userId; reward_id := rewardId;
        redeemed_at := clock w |}])
    (update_user userId
       (fun u => set_total_points (total_points u - cost r) u) w).

(** The world after the INSERT of [awardAchievement]. *)
Definition unlock_world (userId achievementId : Z) (w : world) : world :=
  with_user_achievements (fun l => l ++
    [{| ua_user_id := userId; achievement_id := achievementId;
        unlocked_at := clock w |}]) w.

(** The world after a first [awardAchievement] for the row [u]. *)
Definition achievement_world (userId achievementId bonus : Z) (u : user)
  (w : world) : world :=
  with_activity_log (fun l => l ++
    [{| al_user_id := userId; activity_type := "achievement";
        description := "Unlocked achievement"; xp_earned := bonus;
        al_created_at := clock w |}])
    (awardXP_world userId bonus u (unlock_world userId achievementId w)).

(** [daysDiff] and [newStreak] of [updateStreak] for the row [u] at [now]. *)
Definition daysDiff_of (now : Z) (u : user) : Z :=
  (now - match last_activity u with Some t => t | None => 0 end) / msPerDay.

Definition newStreak_of (now : Z) (u : user) : Z :=
  if daysDiff_of now u =? 1 then streak u + 1
  else if 1 <? daysDiff_of now u then 1
  else streak u.

(** The number of calendar dates from [last_activity] to [now]. *)
Definition calendar_days (now : Z) (u : user) : Z :=
  DATE now - DATE (match last_activity u with Some t => t | None => 0 end).

(** The world after the UPDATE of [updateStreak]. *)
Definition streak_world (userId : Z) (u : user) (w : world) : world :=
  update_user userId
    (set_streak (Some (clock w)) (newStreak_of (clock w) u)) w.

(** ** Relations kept by every step of a computation *)

(** [preserves P m]: the world after [m], returned or thrown, is related by
    [P] to the world before. *)
Definition preserves (P : world -> world -> Prop) {A} (m : M A) : Prop :=
  forall w, P w (snd (m w)).

(** The activity counts of every type other than the two the helpers log. *)
Definition same_counts (w w' : world) : Prop :=
  forall userId activityType,
    activityType <> "level_up" -> activityType <> "achievement" ->
    count_activity userId activityType w'
    = count_activity userId activityType w.

(** The webhook route around the handler its switch selects. *)
Definition acknowledge (handler : M unit) : M response :=
  try_catch
    (handler ;; ret (res_json Json_success))
    (fun error =>
       console_error "Webhook error:" ;;
       ret (res_status_json 500 (Json_error "Webhook processing failed"))).

(** The tables a task completion leaves alone after its upsert. *)
Definition same_user_tasks (w w' : world) : Prop :=
  user_tasks w' = user_tasks w /\ clock w' = clock w /\
  daily_tasks w' = daily_tasks w.

(** * The rest of the server *)

From Stdlib Require Import Sorted Permutation.

(** ** Observations shared by the routes *)

(** [l'] is [l] with rows appended. *)
Definition extends {A} (l l' : list A) : Prop := exists more, l' = l ++ more.

(** The key of a [user_tasks] row: user, task and creation time. *)
Definition task_key (r : user_task) : Z * Z * Z :=
  (ut_user_id r, ut_task_id r, ut_created_at r).

(** The identity of a [users] row. *)
Definition user_key (u : user) : Z * string := (id u, whop_user_id u).

(** ** OAuth callback *)

(** What the route sends back: a JSON error, or the redirect to the front
    end, whose token carries [userId] and [whopUserId]. *)
Inductive auth_reply :=
| Auth_json (r : response)
| Auth_redirect (userId : Z) (whopUserId : string).

(** [!code]: the query parameter is absent or the empty string. *)
Definition code_missing (code : option string) : bool :=
  match code with
  | None => true
  | Some c => String.eqb c ""
  end.

(** What the two requests to the identity provider yield: the tokens of
    the token response and the [id] of the user response. *)
Record whop_login := {
  login_access_token : string;
  login_refresh_token : string;
  login_id : string
}.

(** The row that the INSERT of the full server creates: level 1, no xp, no
    points, the tokens of the login; [last_login] is not named. *)
Definition new_whop_user (userId : Z) (login : whop_login) : user :=
  {| id := userId; whop_user_id := login_id login; level := 1; xp := 0;
     total_points := 0; streak := 0; last_activity := None;
     access_token := Some (login_access_token login);
     refresh_token := Some (login_refresh_token login);
     last_login := None |}.

(** A login of the Whop user [whopId], with tokens of its own. *)
Definition login_of (whopId : string) : whop_login :=
  {| login_access_token := "access"; login_refresh_token := "refresh";
     login_id := whopId |}.

(** [UPDATE users SET access_token = $1, refresh_token = $2,
     last_login = NOW() WHERE whop_user_id = $3] *)
Definition update_login (login : whop_login) (w : world) : world :=
  with_users (map (fun u =>
    if has_whop_id (Some (login_id login)) u
    then set_login (login_access_token login) (login_refresh_token login)
           (clock w) u
    else u)) w.

(** [app.get('/auth/callback', ...)] of the full server.  [whopUser] is
    what the two requests to the identity provider yield, [None] when one
    of them fails; [nextId] is the id that the sequence of [users] gives to
    a new row. *)
Definition get_auth_callback (code : option string)
  (whopUser : option whop_login) (nextId : Z) : M auth_reply :=
  if code_missing code
  then ret (Auth_json
              (res_status_json 400 (Json_error "Authorization code missing")))
  else
    try_catch
      (match whopUser with
       | None => throw (TypeError "Request failed")
       | Some login =>
           user <- query (fun w =>
             filter (has_whop_id (Some (login_id login))) (users w)) ;;
           match user with
           | [] =>
               exec (with_users (fun l => l ++ [new_whop_user nextId login])) ;;
               awardAchievement nextId 1 100 ;;          (* First Steps *)
               ret (Auth_redirect nextId (login_id login))
           | row :: _ =>
               exec (update_login login) ;;
               ret (Auth_redirect (id row) (login_id login))
           end
       end)
      (fun error =>
         console_error "OAuth error:" ;;
         ret (Auth_json
                (res_status_json 500 (Json_error "Authentication failed")))).

(** [app.get('/auth/callback', ...)] of [server.js]: the user is
    ['test_user_' + Date.now()] and no achievement is awarded. *)
Definition server_js_get_auth_callback (code : option string) (nextId : Z)
  : M auth_reply :=
  if code_missing code
  then ret (Auth_json
              (res_status_json 400 (Json_error "Authorization code missing")))
  else
    try_catch
      (testUser <- query (fun w =>
         String.append "test_user_" (string_of_Z (clock w))) ;;
       user <- query (fun w =>
         filter (has_whop_id (Some testUser)) (users w)) ;;
       match user with
       | [] =>
           exec (with_users (fun l => l ++ [new_user nextId testUser])) ;;
           ret (Auth_redirect nextId testUser)
       | row :: _ => ret (Auth_redirect (id row) testUser)
       end)
      (fun error =>
         console_error "OAuth error:" ;;
         ret (Auth_json
                (res_status_json 500 (Json_error "Authentication failed")))).

(** ** Bearer tokens *)

(** The payload of a verified token. *)
Record claims := { jwt_userId : Z; jwt_whopUserId : string }.

Definition space : Ascii.ascii := Ascii.ascii_of_nat 32.

(** [s.split(' ')]: the pieces between the spaces, empty ones included. *)
Fixpoint split_space (s : string) : list string :=
  match s with
  | EmptyString => [EmptyString]
  | String c rest =>
      if Ascii.eqb c space then EmptyString :: split_space rest
      else match split_space rest with
           | [] => [String c EmptyString]
           | piece :: more => String c piece :: more
           end
  end.

(** [authHeader && authHeader.split(' ')[1]], [None] when it is falsy. *)
Definition header_token (authorization : option string) : option string :=
  match authorization with
  | None => None
  | Some authHeader =>
      if String.eqb authHeader "" then None
      else match nth_error (split_space authHeader) 1 with
           | None => None
           | Some token => if String.eqb token "" then None else Some token
           end
  end.

Inductive auth_result :=
| Auth_401
| Auth_403
| Auth_next (user : claims).

Section Authentication.

(** [jwt.verify(token, JWT_SECRET, ...)]: the payload, or [None] on [err]. *)
Variable jwt_verify : string -> option claims.

(** [const authenticateToken = (req, res, next) => ...] *)
Definition authenticateToken (authorization : option string) : auth_result :=
  match header_token authorization with
  | None => Auth_401
  | Some token =>
      match jwt_verify token with
      | None => Auth_403
      | Some user => Auth_next user
      end
  end.

(** A route behind [authenticateToken]; [route] gets [req.user.userId]. *)
Definition authenticated (route : Z -> M response)
  (authorization : option string) : M response :=
  match authenticateToken authorization with
  | Auth_401 => ret (res_status_json 401 (Json_error "Access token required"))
  | Auth_403 => ret (res_status_json 403 (Json_error "Invalid token"))
  | Auth_next user => route (jwt_userId user)
  end.

End Authentication.

(** ** Sorting, as ORDER BY *)

(** [x] put in front of the first element that is not strictly before it. *)
Fixpoint insert_by {A} (before : A -> A -> bool) (x : A) (l : list A)
  : list A :=
  match l with
  | [] => [x]
  | y :: rest =>
      if before y x then y :: insert_by before x rest else x :: y :: rest
  end.

(** [ORDER BY key].  The store leaves the order of rows with equal keys
    open; here they keep their storage order, and no statement below
    depends on that choice. *)
Definition order_by_asc {A} (key : A -> Z) (l : list A) : list A :=
  fold_right (insert_by (fun y x => key y <? key x)) [] l.

(** [ORDER BY key DESC] *)
Definition order_by_desc {A} (key : A -> Z) (l : list A) : list A :=
  fold_right (insert_by (fun y x => key x <? key y)) [] l.

(** [LIMIT limit OFFSET offset] for non-negative arguments. *)
Definition limit_offset {A} (limit offset : Z) (l : list A) : list A :=
  firstn (Z.to_nat limit) (skipn (Z.to_nat offset) l).

(** [a LEFT JOIN b ON on a b]: every row of [a], with each of its matches
    or alone. *)
Definition left_join {A B} (on : A -> B -> bool) (a : list A) (b : list B)
  : list (A * option B) :=
  flat_map (fun x =>
    match filter (on x) b with
    | [] => [(x, None)]
    | matches => map (fun y => (x, Some y)) matches
    end) a.

(** ** Read-only routes *)

(** The body of [GET /api/user/profile], without the columns [username],
    [email] and [created_at], which the store of this model does not hold.
    [xpToNextLevel] is a JavaScript number; [Infinity] is sent as [null]. *)
Record profile := {
  p_id : Z;
  p_level : Z;
  p_xp : Z;
  p_xpToNextLevel : number;
  p_totalPoints : Z;
  p_streak : Z;
  p_rank : Z;
  p_achievements : Z
}.

(** [(SELECT COUNT( * ) FROM users WHERE total_points > u.total_points) + 1] *)
Definition rank_of (points : Z) (w : world) : Z :=
  Z.of_nat (List.length
    (filter (fun v => points <? total_points v) (users w))) + 1.

(** [COUNT(DISTINCT ua.achievement_id)] over the unlock rows of the user. *)
Definition achievements_unlocked (userId : Z) (w : world) : Z :=
  Z.of_nat (List.length (nodup Z.eq_dec
    (map achievement_id
       (filter (fun r => ua_user_id r =? userId) (user_achievements w))))).

(** [app.get('/api/user/profile', authenticateToken, ...)]: [None] is the
    404 "User not found". *)
Definition get_api_user_profile (userId : Z) (w : world) : option profile :=
  match select_user userId w with
  | [] => None
  | user :: _ =>
      Some {| p_id := id user; p_level := level user; p_xp := xp user;
              p_xpToNextLevel := calculateXPForLevel (level user + 1);
              p_totalPoints := total_points user; p_streak := streak user;
              p_rank := rank_of (total_points user) w;
              p_achievements := achievements_unlocked (id user) w |}
  end.

(** The badge column of the leaderboard: the crown, the silver and bronze
    medals, the star. *)
Inductive badge := Crown | Silver | Bronze | Star.

Record leaderboard_row := {
  lb_rank : Z;
  lb_id : Z;
  lb_total_points : Z;
  lb_level : Z;
  lb_badge : badge;
  lb_is_user : bool
}.

(** [ROW_NUMBER() OVER (ORDER BY total_points DESC)] from [n] on. *)
Fixpoint row_number {A} (n : Z) (l : list A) : list (Z * A) :=
  match l with
  | [] => []
  | x :: rest => (n, x) :: row_number (n + 1) rest
  end.

Definition badge_of (rank : Z) : badge :=
  if rank =? 1 then Crown
  else if rank =? 2 then Silver
  else if rank =? 3 then Bronze
  else Star.

Definition leaderboard_row_of (userId : Z) (r : Z * user) : leaderboard_row :=
  {| lb_rank := fst r; lb_id := id (snd r);
     lb_total_points := total_points (snd r); lb_level := level (snd r);
     lb_badge := badge_of (fst r); lb_is_user := id (snd r) =? userId |}.

(** The SELECT of [GET /api/leaderboard] for non-negative [limit] and
    [offset]. *)
Definition leaderboard (userId limit offset : Z) (w : world)
  : list leaderboard_row :=
  limit_offset limit offset
    (map (leaderboard_row_of userId)
       (row_number 1 (order_by_desc total_points (users w)))).

(** [app.get('/api/leaderboard', authenticateToken, ...)]:
    [const { limit = 50, offset = 0 } = req.query]; a negative LIMIT or
    OFFSET is an error of the store, answered 500 ([None]). *)
Definition get_api_leaderboard (userId : Z) (limit offset : option Z)
  (w : world) : option (list leaderboard_row) :=
  let limit := match limit with Some l => l | None => 50 end in
  let offset := match offset with Some o => o | None => 0 end in
  if (limit <? 0) || (offset <? 0) then None
  else Some (leaderboard userId limit offset w).

Record reward_row := {
  rr_reward : reward;
  rr_redeemed : bool;
  rr_redeemed_at : option Z
}.

(** [app.get('/api/rewards', authenticateToken, ...)] *)
Definition get_api_rewards (userId : Z) (w : world) : list reward_row :=
  order_by_asc (fun row => cost (rr_reward row))
    (map (fun j =>
            {| rr_reward := fst j;
               rr_redeemed := match snd j with Some _ => true | None => false end;
               rr_redeemed_at := option_map redeemed_at (snd j) |})
       (filter (fun j => rw_active (fst j))
          (left_join
             (fun r ur => (rw_id r =? reward_id ur) && (ur_user_id ur =? userId))
             (rewards w) (user_rewards w)))).

Record task_row := {
  tr_task : daily_task;
  tr_completed : option bool;
  tr_progress : option Z;
  tr_completed_at : option Z
}.

(** [app.get('/api/tasks/daily', authenticateToken, ...)] *)
Definition get_api_tasks_daily (userId : Z) (w : world) : list task_row :=
  order_by_asc (fun row => dt_id (tr_task row))
    (map (fun j =>
            {| tr_task := fst j;
               tr_completed := option_map completed (snd j);
               tr_progress := option_map progress (snd j);
               tr_completed_at :=
                 match snd j with Some ut => completed_at ut | None => None end |})
       (filter (fun j => dt_active (fst j))
          (left_join
             (fun dt ut => (dt_id dt =? ut_task_id ut) &&
                           (ut_user_id ut =? userId) &&
                           (DATE (ut_created_at ut) =? DATE (clock w)))
             (daily_tasks w) (user_tasks w)))).

(** [app.get('/api/activity', authenticateToken, ...)] for a non-negative
    [limit] (20 when the query has none). *)
Definition get_api_activity (userId : Z) (limit : option Z) (w : world)
  : list activity :=
  let limit := match limit with Some l => l | None => 20 end in
  firstn (Z.to_nat limit)
    (order_by_desc al_created_at
       (filter (fun a => al_user_id a =? userId) (activity_log w))).

(** ** All routes that write *)

Inductive route :=
| Route_auth_callback (code : option string) (whopUser : option whop_login)
    (nextId : Z)
| Route_tasks_complete (userId taskId : Z)
| Route_rewards_redeem (userId rewardId : Z)
| Route_webhook (e : event)
| Route_server_js_auth_callback (code : option string) (nextId : Z)
| Route_server_js_tasks_complete (index : user_tasks_index) (userId taskId : Z)
| Route_server_js_webhook (e : event).

Definition serve (r : route) : M unit :=
  match r with
  | Route_auth_callback code whopUser nextId =>
      get_auth_callback code whopUser nextId ;; ret tt
  | Route_tasks_complete userId taskId =>
      post_api_tasks_complete userId taskId ;; ret tt
  | Route_rewards_redeem userId rewardId =>
      post_api_rewards_redeem userId rewardId ;; ret tt
  | Route_webhook e => post_webhooks_whop e ;; ret tt
  | Route_server_js_auth_callback code nextId =>
      server_js_get_auth_callback code nextId ;; ret tt
  | Route_server_js_tasks_complete index userId taskId =>
      ServerJs.tasks_complete index userId taskId ;; ret tt
  | Route_server_js_webhook e => ServerJs.webhooks_whop e ;; ret tt
  end.

(** Requests served one after the other, each at its own clock value. *)
Fixpoint serve_all (requests : list (Z * route)) (w : world) : world :=
  match requests with
  | [] => w
  | (t, r) :: rest => serve_all rest (run (serve r) (at_time t w))
  end.

(** The lists of this model only grow at the end: the log, the unlocks and
    the redemptions, and the keys of [users] and [user_tasks], whose rows
    the model rewrites in place. *)
Definition grows_in_place (w w' : world) : Prop :=
  extends (activity_log w) (activity_log w') /\
  extends (user_achievements w) (user_achievements w') /\
  extends (user_rewards w) (user_rewards w') /\
  extends (map task_key (user_tasks w)) (map task_key (user_tasks w')) /\
  extends (map user_key (users w)) (map user_key (users w')) /\
  daily_tasks w' = daily_tasks w /\
  rewards w' = rewards w.

(** [l'] holds every element of [l], as often as [l] does or more often,
    in whatever order. *)
Definition holds_all {A} (l l' : list A) : Prop :=
  exists more, Permutation (l ++ more) l'.

(** Nothing stored is lost: every entry of the log, every unlock and every
    redemption stays, every key of [users] and [user_tasks] stays, the two
    catalogs stay as they are. *)
Definition never_loses (w w' : world) : Prop :=
  holds_all (activity_log w) (activity_log w') /\
  holds_all (user_achievements w) (user_achievements w') /\
  holds_all (user_rewards w) (user_rewards w') /\
  holds_all (map task_key (user_tasks w)) (map task_key (user_tasks w')) /\
  holds_all (map user_key (users w)) (map user_key (users w')) /\
  daily_tasks w' = daily_tasks w /\
  rewards w' = rewards w.

(** Unlocks are permanent and single: the number of unlock rows of a pair
    never drops and never grows beyond one row. *)
Definition unlocks_once (w w' : world) : Prop :=
  forall userId achievementId,
    (unlock_count userId achievementId w
     <= unlock_count userId achievementId w'
     <= Nat.max 1 (unlock_count userId achievementId w))%nat.

(** No user disappears, loses a level or loses points. *)
Definition never_demotes (w w' : world) : Prop :=
  forall userId u,
    find_user userId w = Some u ->
    exists u',
      find_user userId w' = Some u' /\
      level u <= level u' /\ total_points u <= total_points u'.

Definition is_redeem (r : route) : bool :=
  match r with
  | Route_rewards_redeem _ _ => true
  | _ => false
  end.

(** [keeps P m w]: [preserves], at the one world [w]. *)
Definition keeps (P : world -> world -> Prop) {A} (m : M A) (w : world)
  : Prop := P w (snd (m w)).

(** The world after [updateStreak] for the row [u]. *)
Definition updateStreak_world (userId : Z) (u : user) (w : world) : world :=
  let s := newStreak_of (clock w) u in
  let u1 := set_streak (Some (clock w)) s u in
  let w1 := streak_world userId u w in
  if (s =? 7) && (unlock_count userId 3 w =? 0)%nat
  then achievement_world userId 3 500 u1 w1
  else if (s =? 30) && (unlock_count userId 6 w =? 0)%nat
  then achievement_world userId 6 1000 u1 w1
  else w1.

(** [updateStreak] at each clock value of a list, in order. *)
Fixpoint updateStreak_at (userId : Z) (times : list Z) (w : world) : world :=
  match times with
  | [] => w
  | t :: rest =>
      updateStreak_at userId rest (run (updateStreak userId) (at_time t w))
  end.

(** Each clock value is less than 24 hours after the one before. *)
Fixpoint within_a_day (last : Z) (times : list Z) : Prop :=
  match times with
  | [] => True
  | t :: rest => t - last < msPerDay /\ within_a_day t rest
  end.

(** [n] redemption requests for one reward, one after the other. *)
Fixpoint redeem_times (userId rewardId : Z) (n : nat) (w : world)
  : list (outcome response) * world :=
  match n with
  | O => ([], w)
  | S k =>
      let (r, w1) := post_api_rewards_redeem userId rewardId w in
      let (rs, w2) := redeem_times userId rewardId k w1 in
      (r :: rs, w2)
  end.

Definition redeemed_ok : outcome response :=
  Return (res_json (Json_success_message "Reward redeemed successfully")).

Definition redeemed_short : outcome response :=
  Return (res_status_json 400 (Json_error "Insufficient points")).

(** [n] completion requests to [server.js] for one task. *)
Fixpoint server_js_complete_times (index : user_tasks_index)
  (userId taskId : Z) (n : nat) (w : world)
  : list (outcome response) * world :=
  match n with
  | O => ([], w)
  | S k =>
      let (r, w1) := ServerJs.tasks_complete index userId taskId w in
      let (rs, w2) := server_js_complete_times index userId taskId k w1 in
      (r :: rs, w2)
  end.

(** The world after one completion on [server.js]. *)
Definition server_js_complete_world (userId taskId : Z) (task : daily_task)
  (u : user) (w : world) : world :=
  awardXP_world userId (xp_reward task) u
    (with_user_tasks (fun l => l ++
       [new_user_task userId taskId (required_count task) (clock w)]) w).

(** The row of a user right after the first login on the full server:
    First Steps has credited 100 xp. *)
Definition first_steps_user (userId : Z) (login : whop_login) : user :=
  {| id := userId; whop_user_id := login_id login; level := 1; xp := 100;
     total_points := 100; streak := 0; last_activity := None;
     access_token := Some (login_access_token login);
     refresh_token := Some (login_refresh_token login);
     last_login := None |}.

(** [s] holds no space. *)
Fixpoint no_space (s : string) : bool :=
  match s with
  | EmptyString => true
  | String c rest => negb (Ascii.eqb c space) && no_space rest
  end.

Definition sp : string := String space EmptyString.

(** The number of users with exactly [points] points. *)
Definition users_with_points (points : Z) (w : world) : Z :=
  Z.of_nat (List.length
    (filter (fun v => total_points v =? points) (users w))).
(** * Properties *)

(** ** Rounding to binary64 *)

Lemma pow2_pos (e : Z) : (0 < Qpower 2 e)%Q.
Proof. now apply Qpower_0_lt. Qed.

Lemma pow2_quot (a b : Z) :
  0 <= a -> 0 <= b -> (Qpower 2 (a - b) == (2 ^ a) # Z.to_pos (2 ^ b))%Q.
Proof.
  intros Ha Hb. rewrite Qpower_minus by discriminate.
  change (2%Q) with (inject_Z 2).
  rewrite <- !Zpower_Qpower by assumption.
  assert (H : 0 < 2 ^ b) by (apply Z.pow_pos_nonneg; lia).
  rewrite <- (Z2Pos.id (2 ^ b)) at 1 by assumption.
  symmetry. apply Qmake_Qdiv.
Qed.

Lemma floor_log2_spec (q : Q) :
  (0 < q)%Q ->
  (Qpower 2 (floor_log2 q) <= q < Qpower 2 (floor_log2 q + 1))%Q.
Proof.
  intros Hq. destruct q as [n d]. unfold floor_log2. cbn [Qnum Qden].
  assert (Hn : 0 < n) by (unfold Qlt in Hq; simpl in Hq; lia).
  pose proof (Z.log2_spec n Hn) as [Ha1 Ha2].
  pose proof (Z.log2_spec (Z.pos d) (Pos2Z.is_pos d)) as [Hb1 Hb2].
  pose proof (Z.log2_nonneg n) as Ha. pose proof (Z.log2_nonneg (Z.pos d)) as Hb.
  set (a := Z.log2 n) in *. set (b := Z.log2 (Z.pos d)) in *.
  assert (Hpa : 0 < 2 ^ a) by (apply Z.pow_pos_nonneg; lia).
  assert (Hpb : 0 < 2 ^ b) by (apply Z.pow_pos_nonneg; lia).
  rewrite !Z.pow_succ_r in * by assumption.
  assert (Hup : (n # d < Qpower 2 (a - b + 1))%Q).
  { replace (a - b + 1) with (Z.succ a - b) by lia.
    rewrite pow2_quot by lia. unfold Qlt. cbn [Qnum Qden].
    rewrite Z2Pos.id by assumption. rewrite Z.pow_succ_r by assumption. nia. }
  assert (Hlow : (Qpower 2 (a - b - 1) <= n # d)%Q).
  { replace (a - b - 1) with (a - Z.succ b) by lia.
    rewrite pow2_quot by lia. unfold Qle. cbn [Qnum Qden].
    rewrite Z.pow_succ_r by assumption. rewrite Z2Pos.id by lia. nia. }
  destruct (Qle_bool (Qpower 2 (a - b)) (n # d)) eqn:Hcmp.
  - apply Qle_bool_iff in Hcmp. split; assumption.
  - split; [exact Hlow|]. replace (a - b - 1 + 1) with (a - b) by lia.
    apply Qnot_le_lt. intros H. apply Qle_bool_iff in H. congruence.
Qed.

Lemma floor_log2_mono (p q : Q) :
  (0 < p)%Q -> (p <= q)%Q -> floor_log2 p <= floor_log2 q.
Proof.
  intros Hp Hpq.
  assert (Hq : (0 < q)%Q) by (eapply Qlt_le_trans; eassumption).
  destruct (floor_log2_spec p Hp) as [Hlow _].
  destruct (floor_log2_spec q Hq) as [_ Hup].
  assert (H : (Qpower 2 (floor_log2 p) < Qpower 2 (floor_log2 q + 1))%Q).
  { eapply Qle_lt_trans; [exact Hlow|]. eapply Qle_lt_trans; eassumption. }
  apply Qpower_lt_compat_l_inv in H; [lia | reflexivity].
Qed.

Lemma round_half_even_bounds (r : Q) :
  Qfloor r <= round_half_even r <= Qfloor r + 1.
Proof.
  unfold round_half_even.
  destruct (r - inject_Z (Qfloor r) ?= 1 # 2)%Q; [destruct (Z.even _)| |]; lia.
Qed.

Lemma round_half_even_mono (r s : Q) :
  (r <= s)%Q -> round_half_even r <= round_half_even s.
Proof.
  intros Hrs. pose proof (Qfloor_resp_le _ _ Hrs) as Hf.
  pose proof (round_half_even_bounds r) as Hr.
  pose proof (round_half_even_bounds s) as Hs.
  destruct (Z.eq_dec (Qfloor r) (Qfloor s)) as [Heq|Hne]; [|lia].
  unfold round_half_even in *. rewrite <- Heq in *.
  assert (Hfrac : (r - inject_Z (Qfloor r) <= s - inject_Z (Qfloor r))%Q).
  { apply Qplus_le_l with (z := inject_Z (Qfloor r)). ring_simplify. exact Hrs. }
  destruct (Qcompare_spec (r - inject_Z (Qfloor r)) (1 # 2)) as [H1|H1|H1];
    destruct (Qcompare_spec (s - inject_Z (Qfloor r)) (1 # 2)) as [H2|H2|H2];
    try destruct (Z.even (Qfloor r)); try lia; exfalso; lra.
Qed.

Lemma ulp_pos (q : Q) : (0 < ulp q)%Q.
Proof. apply pow2_pos. Qed.

Lemma pow2_split (a b : Z) : (Qpower 2 (a + b) == Qpower 2 a * Qpower 2 b)%Q.
Proof. apply Qpower_plus. discriminate. Qed.

Lemma pow2_le (a b : Z) : a <= b -> (Qpower 2 a <= Qpower 2 b)%Q.
Proof. intros H. apply Qpower_le_compat_l; [exact H | discriminate]. Qed.

Lemma nearest_nonneg (q : Q) : (0 <= q)%Q -> (0 <= nearest q)%Q.
Proof.
  intros Hq. unfold nearest.
  apply Qmult_le_0_compat; [|apply Qlt_le_weak, ulp_pos].
  change 0%Q with (inject_Z 0). rewrite <- Zle_Qle.
  pose proof (round_half_even_bounds (q / ulp q)) as [Hb _].
  assert (H0 : 0 <= Qfloor (q / ulp q)); [|lia].
  change 0 with (Qfloor (inject_Z 0)). apply Qfloor_resp_le.
  apply Qle_shift_div_l; [apply ulp_pos|]. now rewrite Qmult_0_l.
Qed.

Lemma nearest_lower (q : Q) :
  (0 < q)%Q -> -1022 <= floor_log2 q ->
  (Qpower 2 (floor_log2 q) <= nearest q)%Q.
Proof.
  intros Hq He. destruct (floor_log2_spec q Hq) as [Hlow _].
  unfold nearest, ulp, exponent. rewrite Z.max_l by lia.
  set (e := floor_log2 q) in *.
  assert (Hr : (inject_Z (2 ^ 52) <= q / Qpower 2 (e - 52))%Q).
  { apply Qle_shift_div_l; [apply pow2_pos|].
    rewrite Zpower_Qpower by lia. change (inject_Z 2) with 2%Q.
    rewrite <- pow2_split. now replace (52 + (e - 52)) with e by lia. }
  apply Qfloor_resp_le in Hr. rewrite Qfloor_Z in Hr.
  pose proof (round_half_even_bounds (q / Qpower 2 (e - 52))) as [Hb _].
  set (m := round_half_even _) in *. clearbody m.
  replace e with (52 + (e - 52)) at 1 by lia. rewrite pow2_split.
  apply Qmult_le_compat_r; [|apply Qlt_le_weak, pow2_pos].
  change 2%Q with (inject_Z 2). rewrite <- Zpower_Qpower by lia.
  rewrite <- Zle_Qle. lia.
Qed.

Lemma nearest_upper (q : Q) :
  (0 < q)%Q -> (nearest q <= Qpower 2 (exponent q + 1))%Q.
Proof.
  intros Hq. destruct (floor_log2_spec q Hq) as [_ Hup].
  unfold nearest, ulp.
  assert (He : floor_log2 q <= exponent q) by (unfold exponent; lia).
  set (e := exponent q) in *.
  assert (Hr : (q / Qpower 2 (e - 52) < inject_Z (2 ^ 53))%Q).
  { apply Qlt_shift_div_r; [apply pow2_pos|].
    rewrite Zpower_Qpower by lia. change (inject_Z 2) with 2%Q.
    rewrite <- pow2_split. replace (53 + (e - 52)) with (e + 1) by lia.
    eapply Qlt_le_trans; [exact Hup|]. apply pow2_le. lia. }
  assert (Hf : Qfloor (q / Qpower 2 (e - 52)) < 2 ^ 53).
  { rewrite Zlt_Qlt. eapply Qle_lt_trans; [apply Qfloor_le | exact Hr]. }
  pose proof (round_half_even_bounds (q / Qpower 2 (e - 52))) as [_ Hb].
  set (m := round_half_even _) in *. clearbody m.
  replace (e + 1) with (53 + (e - 52)) by lia. rewrite pow2_split.
  apply Qmult_le_compat_r; [|apply Qlt_le_weak, pow2_pos].
  change 2%Q with (inject_Z 2). rewrite <- Zpower_Qpower by lia.
  rewrite <- Zle_Qle. lia.
Qed.

Lemma nearest_mono (p q : Q) :
  (0 < p)%Q -> (p <= q)%Q -> (nearest p <= nearest q)%Q.
Proof.
  intros Hp Hpq.
  assert (Hq : (0 < q)%Q) by (eapply Qlt_le_trans; eassumption).
  pose proof (floor_log2_mono p q Hp Hpq) as He.
  destruct (Z.eq_dec (exponent p) (exponent q)) as [Heq|Hne].
  - unfold nearest, ulp. rewrite <- Heq.
    apply Qmult_le_compat_r; [|apply Qlt_le_weak, pow2_pos].
    rewrite <- Zle_Qle. apply round_half_even_mono.
    apply Qmult_le_compat_r; [exact Hpq|].
    apply Qlt_le_weak, Qinv_lt_0_compat, pow2_pos.
  - assert (Hlt : exponent p < exponent q) by (unfold exponent in *; lia).
    assert (Hfl : exponent q = floor_log2 q) by (unfold exponent in *; lia).
    eapply Qle_trans; [apply (nearest_upper p Hp)|].
    eapply Qle_trans; [|apply (nearest_lower q Hq); unfold exponent in *; lia].
    apply pow2_le. lia.
Qed.

Lemma round_binary64_mono (p q : Q) :
  (p <= q)%Q -> double_le (round_binary64 p) (round_binary64 q).
Proof.
  intros Hpq. unfold round_binary64.
  destruct (Qle_bool p 0) eqn:Hp0.
  - apply Qle_bool_iff in Hp0. destruct (Qle_bool q 0) eqn:Hq0.
    + simpl. apply Qle_refl.
    + destruct (Qle_bool (Qpower 2 1024) (nearest q)); simpl; [exact I|].
      apply nearest_nonneg. apply Qnot_lt_le. intros H.
      assert (Hq : Qle_bool q 0 = true) by (apply Qle_bool_iff; lra).
      congruence.
  - assert (Hp : (0 < p)%Q).
    { apply Qnot_le_lt. intros H. apply Qle_bool_iff in H. congruence. }
    assert (Hq0 : Qle_bool q 0 = false).
    { destruct (Qle_bool q 0) eqn:H; [|reflexivity].
      apply Qle_bool_iff in H. lra. }
    rewrite Hq0. pose proof (nearest_mono p q Hp Hpq) as Hn.
    destruct (Qle_bool (Qpower 2 1024) (nearest p)) eqn:H1;
      destruct (Qle_bool (Qpower 2 1024) (nearest q)) eqn:H2; simpl; auto.
    apply Qle_bool_iff in H1.
    assert (H : Qle_bool (Qpower 2 1024) (nearest q) = true).
    { apply Qle_bool_iff. eapply Qle_trans; eassumption. }
    congruence.
Qed.

Lemma on_levels (P : Z -> bool) (first count : nat) :
  forallb P (levels first count) = true ->
  forall L, Z.of_nat first <= L < Z.of_nat (first + count) -> P L = true.
Proof.
  intros H L HL. rewrite forallb_forall in H. apply H.
  unfold levels. apply in_map_iff. exists (Z.to_nat L). split; [lia|].
  apply in_seq. lia.
Qed.

Lemma round_binary64_nonneg (q v : Q) :
  round_binary64 q = Finite v -> (0 <= v)%Q.
Proof.
  unfold round_binary64. destruct (Qle_bool q 0) eqn:Hq.
  - intros [= <-]. apply Qle_refl.
  - destruct (Qle_bool _ (nearest q)); [discriminate|]. intros [= <-].
    apply nearest_nonneg. apply Qnot_lt_le. intros H.
    assert (Qle_bool q 0 = true) by (apply Qle_bool_iff; lra). congruence.
Qed.

Lemma times_mono (a : Q) (d d' : double) :
  (0 <= a)%Q -> double_le d d' -> double_le (times a d) (times a d').
Proof.
  intros Ha H. destruct d as [x|], d' as [y|]; simpl in *; try easy.
  - apply round_binary64_mono.
    rewrite !(Qmult_comm a). now apply Qmult_le_compat_r.
  - now destruct (round_binary64 (a * x)).
Qed.

Lemma Math_floor_mono (d d' : double) :
  double_le d d' -> number_le (Math_floor d) (Math_floor d').
Proof.
  destruct d as [x|], d' as [y|]; simpl; try easy. apply Qfloor_resp_le.
Qed.

Lemma calculateXPForLevel_mono (a b : Z) :
  a <= b -> number_le (calculateXPForLevel a) (calculateXPForLevel b).
Proof.
  intros Hab. unfold calculateXPForLevel, Math_pow.
  apply Math_floor_mono, times_mono; [discriminate|].
  apply round_binary64_mono, Qpower_le_compat_l; [lia | discriminate].
Qed.

Lemma calculateXPForLevel_nonneg (L n : Z) :
  calculateXPForLevel L = Num n -> 0 <= n.
Proof.
  unfold calculateXPForLevel, Math_pow.
  destruct (round_binary64 (Qpower (3 # 2) (L - 1))) as [p|]; [|discriminate].
  simpl. destruct (round_binary64 (100 * p)) as [x|] eqn:Hx; [|discriminate].
  intros [= <-]. apply round_binary64_nonneg in Hx.
  change 0 with (Qfloor (inject_Z 0)). now apply Qfloor_resp_le.
Qed.

Lemma calculateXPForLevel_1741 : calculateXPForLevel 1741 = Infinity.
Proof. vm_compute. reflexivity. Qed.

Lemma calculateXPForLevel_Infinity (L : Z) :
  1741 <= L -> calculateXPForLevel L = Infinity.
Proof.
  intros HL. pose proof (calculateXPForLevel_mono 1741 L HL) as H.
  rewrite calculateXPForLevel_1741 in H.
  destruct (calculateXPForLevel L); [destruct H | reflexivity].
Qed.

Lemma number_lt_trans (a b c : number) :
  number_lt a b -> number_lt b c -> number_lt a c.
Proof. destruct a, b, c; simpl; try easy. lia. Qed.

Lemma calculateXPForLevel_exact (L : Z) :
  1 <= L <= 76 -> calculateXPForLevel L = Num (XPForLevel L).
Proof.
  intros HL.
  assert (H : forallb agrees (levels 1 76) = true) by (vm_compute; reflexivity).
  assert (Hb := on_levels _ 1 76 H L). clear H.
  specialize (Hb ltac:(lia)). unfold agrees in Hb.
  destruct (calculateXPForLevel L); [|discriminate].
  apply Z.eqb_eq in Hb. now subst.
Qed.


Lemma round_half_even_close (r : Q) :
  (- (1 # 2) <= inject_Z (round_half_even r) - r <= 1 # 2)%Q.
Proof.
  pose proof (Qfloor_le r) as Hlow. pose proof (Qlt_floor r) as Hup.
  rewrite inject_Z_plus in Hup. change (inject_Z 1) with 1%Q in Hup.
  unfold round_half_even.
  destruct (Qcompare_spec (r - inject_Z (Qfloor r)) (1 # 2)) as [H|H|H];
    [destruct (Z.even (Qfloor r))| |];
    rewrite ?inject_Z_plus; change (inject_Z 1) with 1%Q; split; lra.
Qed.

Lemma nearest_close (q : Q) :
  (1 <= q)%Q -> (q * (1 - eps) <= nearest q <= q * (1 + eps))%Q.
Proof.
  intros Hq. assert (Hq0 : (0 < q)%Q) by lra.
  destruct (floor_log2_spec q Hq0) as [Hlow Hup].
  assert (He : 0 <= floor_log2 q).
  { assert (H : (Qpower 2 0 < Qpower 2 (floor_log2 q + 1))%Q).
    { eapply Qle_lt_trans; [|exact Hup]. exact Hq. }
    pose proof (Qpower_lt_compat_l_inv 2 0 (floor_log2 q + 1) H
                  ltac:(reflexivity)). lia. }
  unfold nearest, ulp, exponent. rewrite Z.max_l by lia.
  set (e := floor_log2 q) in *. set (u := Qpower 2 (e - 52)).
  assert (Hu0 : (0 < u)%Q) by apply pow2_pos.
  assert (Hu : (u <= q * (1 # 4503599627370496))%Q).
  { unfold u. replace (e - 52) with (e + -52) by lia. rewrite pow2_split.
    change (Qpower 2 (-52)) with (1 # 4503599627370496).
    apply Qmult_le_compat_r; [exact Hlow | discriminate]. }
  pose proof (round_half_even_close (q / u)) as [Hd1 Hd2].
  set (m := inject_Z (round_half_even (q / u))) in *.
  assert (Hv : (m * u == q + (m - q / u) * u)%Q).
  { field. intros H0. rewrite H0 in Hu0. discriminate. }
  rewrite Hv.
  apply (Qmult_le_compat_r _ _ u) in Hd1; [|lra].
  apply (Qmult_le_compat_r _ _ u) in Hd2; [|lra].
  unfold eps. split; lra.
Qed.

Lemma round_binary64_close (q v : Q) :
  (1 <= q)%Q -> round_binary64 q = Finite v ->
  (q * (1 - eps) <= v <= q * (1 + eps))%Q.
Proof.
  intros Hq. unfold round_binary64.
  destruct (Qle_bool q 0) eqn:H0.
  - apply Qle_bool_iff in H0. lra.
  - destruct (Qle_bool _ (nearest q)); [discriminate|]. intros [= <-].
    now apply nearest_close.
Qed.

Lemma calculateXPForLevel_close (L n : Z) :
  1 <= L -> calculateXPForLevel L = Num n ->
  (100 * Qpower (3 # 2) (L - 1) * ((1 - eps) * (1 - eps)) - 1 < inject_Z n
   /\ inject_Z n <= 100 * Qpower (3 # 2) (L - 1) * ((1 + eps) * (1 + eps)))%Q.
Proof.
  intros HL. unfold calculateXPForLevel, Math_pow.
  assert (Hq : (1 <= Qpower (3 # 2) (L - 1))%Q).
  { apply Qpower_1_le; [discriminate | lia]. }
  set (q := Qpower (3 # 2) (L - 1)) in *.
  destruct (round_binary64 q) as [p|] eqn:Hp; [|discriminate]. simpl.
  apply round_binary64_close in Hp; [|exact Hq].
  destruct (round_binary64 (100 * p)) as [x|] eqn:Hx; [|discriminate].
  apply round_binary64_close in Hx; [|unfold eps in *; lra].
  simpl. intros [= <-].
  pose proof (Qfloor_le x) as Hlow. pose proof (Qlt_floor x) as Hup.
  rewrite inject_Z_plus in Hup. change (inject_Z 1) with 1%Q in Hup.
  unfold eps in *. split; lra.
Qed.

Lemma calculateXPForLevel_finite (L : Z) :
  L <= 1740 -> exists n, calculateXPForLevel L = Num n.
Proof.
  intros HL. pose proof (calculateXPForLevel_mono L 1740 HL) as H.
  assert (H1740 : exists N, calculateXPForLevel 1740 = Num N).
  { vm_compute. eexists. reflexivity. }
  destruct H1740 as [N HN]. rewrite HN in H. clear HN.
  destruct (calculateXPForLevel L) as [n|]; [exists n; reflexivity|].
  destruct H.
Qed.

Lemma calculateXPForLevel_step (L : Z) :
  1 <= L <= 1740 ->
  number_lt (calculateXPForLevel L) (calculateXPForLevel (L + 1)).
Proof.
  intros HL. destruct (calculateXPForLevel_finite L) as [a Ha]; [lia|].
  rewrite Ha. destruct (calculateXPForLevel (L + 1)) as [b|] eqn:Hb;
    [|exact I].
  apply calculateXPForLevel_close in Ha; [|lia].
  apply calculateXPForLevel_close in Hb; [|lia].
  replace (L + 1 - 1) with (L - 1 + 1) in Hb by lia.
  rewrite Qpower_plus in Hb by discriminate.
  change (Qpower (3 # 2) 1) with (3 # 2)%Q in Hb.
  assert (Hq : (1 <= Qpower (3 # 2) (L - 1))%Q).
  { apply Qpower_1_le; [discriminate | lia]. }
  set (q := Qpower (3 # 2) (L - 1)) in *.
  simpl. rewrite Zlt_Qlt. unfold eps in *. lra.
Qed.

Lemma calculateXPForLevel_lt (a b : Z) :
  1 <= a -> a < b -> b <= 1741 ->
  number_lt (calculateXPForLevel a) (calculateXPForLevel b).
Proof.
  intros Ha Hab Hb.
  replace b with (a + 1 + Z.of_nat (Z.to_nat (b - a - 1))) in * by lia.
  induction (Z.to_nat (b - a - 1)) as [|k IH].
  - rewrite Z.add_0_r. apply calculateXPForLevel_step. lia.
  - eapply number_lt_trans; [apply IH; lia|].
    replace (a + 1 + Z.of_nat (S k)) with (a + 1 + Z.of_nat k + 1) by lia.
    apply calculateXPForLevel_step. lia.
Qed.

(** ** The XP curve of the specification *)

Lemma Qpower_three_halves (n : Z) :
  0 <= n -> (Qpower (3 # 2) n == (3 ^ n) # (Z.to_pos (2 ^ n)))%Q.
Proof.
  intros Hn. destruct n as [|p|p]; try lia.
  - reflexivity.
  - rewrite Qpower_decomp_pos.
    replace (Z.to_pos (2 ^ Z.pos p)) with (2 ^ p)%positive; [reflexivity|].
    apply Pos2Z.inj. rewrite Pos2Z.inj_pow, Z2Pos.id; [reflexivity|].
    apply Z.pow_pos_nonneg; lia.
Qed.

Lemma XPForLevel_closed (level : Z) :
  1 <= level -> XPForLevel level = xp_closed_form level.
Proof.
  intros Hl. unfold XPForLevel, xp_closed_form.
  rewrite (Qfloor_comp _ (100 * 3 ^ (level - 1) # Z.to_pos (2 ^ (level - 1)))).
  - unfold Qfloor. rewrite Z2Pos.id; [reflexivity|].
    apply Z.pow_pos_nonneg; lia.
  - rewrite Qpower_three_halves by lia.
    unfold Qeq, Qmult, inject_Z; simpl Qnum; simpl Qden. lia.
Qed.

Lemma calculateXPForLevel_le (a b : Z) :
  a <= b -> number_le (calculateXPForLevel a) (calculateXPForLevel b).
Proof. apply calculateXPForLevel_mono. Qed.

(** C6, as amended.  On the levels 1 to 76 the curve of the code is
    [floor (100 * 1.5 ^ (L - 1))], the integer [n] with
    [n <= 100 * 1.5 ^ (L - 1) < n + 1], which is the integer quotient of
    [100 * 3 ^ (L - 1)] by [2 ^ (L - 1)]; level 1 needs 100 XP and level 5
    needs 506.  The curve is a function of the level alone, it never
    decreases, it increases strictly up to level 1741, from where it is
    [Infinity], and on every level [>= 1] where it is finite it lies within
    two roundings of [100 * 1.5 ^ (L - 1)]. *)
Theorem calculateXPForLevel_spec :
  (forall L, 1 <= L <= 76 -> calculateXPForLevel L = Num (XPForLevel L)) /\
  (forall L, 1 <= L ->
     (inject_Z (XPForLevel L) <= 100 * (3 # 2) ^ (L - 1)
      < inject_Z (XPForLevel L + 1))%Q /\
     XPForLevel L = (100 * 3 ^ (L - 1)) / 2 ^ (L - 1)) /\
  calculateXPForLevel 1 = Num 100 /\
  calculateXPForLevel 5 = Num 506 /\
  (forall a b, a <= b ->
     number_le (calculateXPForLevel a) (calculateXPForLevel b)) /\
  (forall a b, 1 <= a -> a < b -> b <= 1741 ->
     number_lt (calculateXPForLevel a) (calculateXPForLevel b)) /\
  (forall L, 1741 <= L -> calculateXPForLevel L = Infinity) /\
  (forall L n, 1 <= L -> calculateXPForLevel L = Num n ->
     (100 * (3 # 2) ^ (L - 1) * ((1 - eps) * (1 - eps)) - 1 < inject_Z n /\
      inject_Z n <= 100 * (3 # 2) ^ (L - 1) * ((1 + eps) * (1 + eps)))%Q).
Proof.
  repeat apply conj.
  - exact calculateXPForLevel_exact.
  - intros L HL. split; [split|].
    + apply Qfloor_le.
    + apply Qlt_floor.
    + now rewrite XPForLevel_closed.
  - vm_compute. reflexivity.
  - vm_compute. reflexivity.
  - exact calculateXPForLevel_mono.
  - exact calculateXPForLevel_lt.
  - exact calculateXPForLevel_Infinity.
  - exact calculateXPForLevel_close.
Qed.

Lemma calculateXPForLevel_spec_witness :
  calculateXPForLevel 3 = Num (XPForLevel 3) /\
  XPForLevel 3 = (100 * 3 ^ (3 - 1)) / 2 ^ (3 - 1) /\
  number_lt (calculateXPForLevel 2) (calculateXPForLevel 4) /\
  calculateXPForLevel 2000 = Infinity.
Proof.
  destruct calculateXPForLevel_spec as (He & Hc & _ & _ & _ & Hm & Hi & _).
  split; [|split; [|split]].
  - apply (He 3). lia.
  - apply (Hc 3). lia.
  - apply Hm; lia.
  - apply Hi. lia.
Defined.

(** C6 fails as stated.  At level 77 the product [100 * 1.5 ^ 76] lies
    between two doubles that are half a unit apart, and the nearer one is
    the integer above it: the code gives one more than
    [floor (100 * 1.5 ^ 76)].  At level 1741 the product overflows and the
    code gives [Infinity]. *)
Lemma calculateXPForLevel_rounds_at_77 :
  calculateXPForLevel 77 = Num 2415103171470709 /\
  XPForLevel 77 = 2415103171470708 /\
  calculateXPForLevel 77 <> Num (XPForLevel 77) /\
  calculateXPForLevel 1741 <> Num (XPForLevel 1741).
Proof.
  split; [|split; [|split]]; vm_compute; first [reflexivity | discriminate].
Qed.

(** Closed comparisons of integers, by evaluation. *)
Ltac by_evaluation :=
  vm_compute; first [reflexivity | discriminate | intro; discriminate].

(** ** Reading and writing user rows *)

Lemma filter_has_id_map (userId : Z) (f : user -> user) (l : list user) :
  (forall u, id (f u) = id u) ->
  filter (has_id userId) (map (fun u => if has_id userId u then f u else u) l)
  = map f (filter (has_id userId) l).
Proof.
  intros Hid. induction l as [|u l IH]; simpl; [reflexivity|].
  destruct (has_id userId u) eqn:Hu.
  - assert (Hf : has_id userId (f u) = true)
      by (unfold has_id in *; now rewrite Hid).
    rewrite Hf. simpl. now rewrite IH.
  - rewrite Hu. exact IH.
Qed.

Lemma filter_has_id_map_other (userId other : Z) (f : user -> user)
  (l : list user) :
  (forall u, id (f u) = id u) -> other <> userId ->
  filter (has_id other) (map (fun u => if has_id userId u then f u else u) l)
  = filter (has_id other) l.
Proof.
  intros Hid Hne. induction l as [|u l IH]; simpl; [reflexivity|].
  destruct (has_id userId u) eqn:Hu.
  - assert (Hf : has_id other (f u) = false).
    { unfold has_id in *. rewrite Hid. apply Z.eqb_eq in Hu. apply Z.eqb_neq. lia. }
    assert (Ho : has_id other u = false).
    { unfold has_id in *. apply Z.eqb_eq in Hu. apply Z.eqb_neq. lia. }
    rewrite Hf, Ho. exact IH.
  - destruct (has_id other u); [f_equal|]; exact IH.
Qed.

Lemma select_user_update (userId : Z) (f : user -> user) (w : world) :
  (forall u, id (f u) = id u) ->
  select_user userId (update_user userId f w) = map f (select_user userId w).
Proof. intros Hid. unfold select_user. simpl. now apply filter_has_id_map. Qed.

Lemma select_user_update_other (userId other : Z) (f : user -> user)
  (w : world) :
  (forall u, id (f u) = id u) -> other <> userId ->
  select_user other (update_user userId f w) = select_user other w.
Proof.
  intros Hid Hne. unfold select_user. simpl.
  now apply filter_has_id_map_other.
Qed.

Lemma find_user_update (userId : Z) (f : user -> user) (w : world) :
  (forall u, id (f u) = id u) ->
  find_user userId (update_user userId f w) = option_map f (find_user userId w).
Proof.
  intros Hid. unfold find_user. rewrite select_user_update by assumption.
  now destruct (select_user userId w).
Qed.

Lemma find_user_select (userId : Z) (w : world) (u : user) :
  find_user userId w = Some u ->
  exists rest, select_user userId w = u :: rest.
Proof.
  unfold find_user. destruct (select_user userId w) as [|v rest]; simpl.
  - discriminate.
  - intros [= ->]. now exists rest.
Qed.

Lemma find_user_none (userId : Z) (w : world) :
  find_user userId w = None -> select_user userId w = [].
Proof.
  unfold find_user. now destruct (select_user userId w).
Qed.

(** ** awardXP *)

Lemma surplus_Some (x : Z) (n : number) (rest : Z) :
  surplus x n = Some rest -> n = Num (x - rest) /\ 0 <= rest.
Proof.
  destruct n as [k|]; simpl; [|discriminate].
  destruct (k <=? x) eqn:Hk; [|discriminate]. apply Z.leb_le in Hk.
  intros [= <-]. split; [f_equal|]; lia.
Qed.

Lemma surplus_None (x : Z) (n : number) :
  surplus x n = None -> number_lt (Num x) n.
Proof.
  destruct n as [k|]; simpl; [|easy].
  destruct (k <=? x) eqn:Hk; [discriminate|]. apply Z.leb_gt in Hk. easy.
Qed.

Lemma surplus_reached (x k : Z) : k <= x -> surplus x (Num k) = Some (x - k).
Proof. intros H. simpl. apply Z.leb_le in H. now rewrite H. Qed.

Lemma surplus_below (x : Z) (n : number) :
  number_lt (Num x) n -> surplus x n = None.
Proof.
  destruct n as [k|]; simpl; [|reflexivity].
  intros H. apply Z.leb_gt in H. now rewrite H.
Qed.

Lemma awardXP_found (userId a : Z) (w : world) (u : user) :
  find_user userId w = Some u ->
  awardXP userId a w = (Return (awardXP_result a u), awardXP_world userId a u w).
Proof.
  intros Hu. destruct (find_user_select _ _ _ Hu) as [rest Hsel].
  unfold awardXP, bind, query, awardXP_result, awardXP_world. rewrite Hsel.
  destruct (surplus (xp u + a) (calculateXPForLevel (level u + 1)));
    reflexivity.
Qed.

Lemma awardXP_missing (userId a : Z) (w : world) :
  find_user userId w = None ->
  exists e, awardXP userId a w = (Throw e, w).
Proof.
  intros Hu. apply find_user_none in Hu.
  unfold awardXP, bind, query. rewrite Hu. now eexists.
Qed.

Lemma find_user_awardXP_world (userId a : Z) (u : user) (w : world) :
  find_user userId w = Some u ->
  find_user userId (awardXP_world userId a u w) = Some (awardXP_user a u).
Proof.
  intros Hu. unfold awardXP_world, awardXP_user.
  destruct (surplus (xp u + a) (calculateXPForLevel (level u + 1)));
    rewrite find_user_update by reflexivity.
  - change (find_user userId (with_activity_log ?f w)) with (find_user userId w).
    now rewrite Hu.
  - now rewrite Hu.
Qed.

Lemma awardXP_user_fields (a : Z) (u : user) :
  id (awardXP_user a u) = id u /\
  total_points (awardXP_user a u) = total_points u + a /\
  streak (awardXP_user a u) = streak u /\
  last_activity (awardXP_user a u) = last_activity u.
Proof.
  unfold awardXP_user.
  now destruct (surplus (xp u + a) (calculateXPForLevel (level u + 1))).
Qed.

(** C2. [awardXP] advances at most one level: when [X + a] reaches the
    threshold of level [L + 1] the level becomes [L + 1], the xp becomes
    [X + a - XPForLevel (L + 1)] and one level_up entry worth 1000 is
    logged; otherwise level and log are unchanged and the xp is [X + a].
    Either way the points become [P + a] (the 1000 of the log entry is not
    credited) and [leveledUp] tells whether the level rose.  The threshold
    is the number that the code computes; where it is [Infinity] it is not
    reached. *)
Theorem awardXP_spec (userId a : Z) (w : world) (u : user) :
  find_user userId w = Some u ->
  0 <= a ->
  exists r w' u',
    awardXP userId a w = (Return r, w') /\
    find_user userId w' = Some u' /\
    total_points u' = total_points u + a /\
    newLevel r = level u' /\ newXP r = xp u' /\
    (leveledUp r = true <-> level u < level u') /\
    (number_le (calculateXPForLevel (level u + 1)) (Num (xp u + a)) ->
       level u' = level u + 1 /\
       calculateXPForLevel (level u + 1) = Num (xp u + a - xp u') /\
       exists entry,
         activity_log w' = activity_log w ++ [entry] /\
         al_user_id entry = userId /\
         activity_type entry = "level_up" /\
         xp_earned entry = 1000) /\
    (number_lt (Num (xp u + a)) (calculateXPForLevel (level u + 1)) ->
       level u' = level u /\ xp u' = xp u + a /\
       activity_log w' = activity_log w).
Proof.
  intros Hu Ha.
  pose proof (find_user_awardXP_world userId a u w Hu) as Hfind.
  exists (awardXP_result a u), (awardXP_world userId a u w).
  rewrite (awardXP_found _ _ _ _ Hu).
  unfold awardXP_result, awardXP_world, awardXP_user in *.
  destruct (surplus (xp u + a) (calculateXPForLevel (level u + 1)))
    as [rest|] eqn:Hcmp.
  - apply surplus_Some in Hcmp. destruct Hcmp as [Hn Hrest].
    eexists. split; [reflexivity|split; [exact Hfind|]].
    cbn [total_points level xp newLevel newXP leveledUp set_progress].
    rewrite Hn. simpl number_le. simpl number_lt.
    repeat split; try lia.
    eexists. split; [reflexivity|]. now simpl.
  - apply surplus_None in Hcmp.
    eexists. split; [reflexivity|split; [exact Hfind|]].
    cbn [total_points level xp newLevel newXP leveledUp set_progress].
    destruct (calculateXPForLevel (level u + 1)) as [k|];
      simpl in Hcmp |- *; repeat split; try lia; try easy.
Qed.

Lemma awardXP_spec_witness :
  exists r w' u',
    awardXP 1 200 sample_world = (Return r, w') /\
    find_user 1 w' = Some u' /\
    total_points u' = 200 /\ level u' = 2 /\ xp u' = 50 /\
    leveledUp r = true.
Proof.
  destruct (awardXP_spec 1 200 sample_world (new_user 1 "user_abc"))
    as (r & w' & u' & Hrun & Hfind & Hpts & _ & _ & Hup & Hge & _).
  - reflexivity.
  - lia.
  - exists r, w', u'.
    destruct Hge as (Hl & Hx & _); [vm_compute; discriminate|].
    assert (H150 : calculateXPForLevel (1 + 1) = Num 150)
      by (vm_compute; reflexivity).
    change (level (new_user 1 "user_abc") + 1) with (1 + 1) in Hx.
    rewrite H150 in Hx. change (Num 150 = Num (0 + 200 - xp u')) in Hx.
    assert (Hx' : 150 = 0 + 200 - xp u') by congruence.
    repeat split; try assumption; [lia|].
    apply Hup. rewrite Hl. simpl. lia.
Defined.

(** ** The xp invariant *)

Lemma reachable_run_trace (trace : list (Z * operation)) (w0 w : world) :
  reachable w0 w ->
  Forall (fun step => admissible (snd step)) trace ->
  reachable w0 (run_trace trace w).
Proof.
  revert w. induction trace as [|[t o] rest IH]; intros w Hw Hadm; simpl.
  - exact Hw.
  - inversion Hadm as [|? ? Ho Hrest]; subst.
    apply IH; [|exact Hrest]. now apply reach_step.
Qed.

(** C1, as amended.  After one [awardXP userId a] with [a >= 0] on a user
    with level [L] and xp [X], the stored xp is below the threshold of the
    next level exactly when [X + a < XPForLevel (L + 1) + XPForLevel (L + 2)];
    in particular when the bound held before and [a <= XPForLevel (L + 2)].
    The stored xp stays non-negative. *)
Theorem awardXP_xp_below_next (userId a : Z) (w : world) (u : user) :
  find_user userId w = Some u ->
  0 <= a ->
  exists u',
    find_user userId (run (awardXP userId a) w) = Some u' /\
    (xp_below_next u' <->
       number_lt (Num (xp u + a))
         (number_plus (calculateXPForLevel (level u + 1))
                      (calculateXPForLevel (level u + 2)))) /\
    (xp_below_next u ->
     number_le (Num a) (calculateXPForLevel (level u + 2)) ->
       xp_below_next u') /\
    (0 <= xp u -> 0 <= xp u').
Proof.
  intros Hu Ha.
  pose proof (find_user_awardXP_world userId a u w Hu) as Hfind.
  pose proof (calculateXPForLevel_nonneg (level u + 2)) as Hnn.
  unfold run. rewrite (awardXP_found _ _ _ _ Hu). simpl snd.
  eexists. split; [exact Hfind|].
  unfold xp_below_next, awardXP_user.
  destruct (surplus (xp u + a) (calculateXPForLevel (level u + 1)))
    as [rest|] eqn:Hcmp;
    [apply surplus_Some in Hcmp; destruct Hcmp as [Hn Hrest]; rewrite Hn
    |apply surplus_None in Hcmp];
    cbn [xp level set_progress];
    replace (level u + 1 + 1) with (level u + 2) by lia;
    destruct (calculateXPForLevel (level u + 2)) as [m|];
    try specialize (Hnn m eq_refl);
    try (destruct (calculateXPForLevel (level u + 1)) as [k|]);
    simpl in *; repeat split; intros; try lia; try easy.
Qed.

Lemma awardXP_xp_below_next_witness :
  exists u',
    find_user 1 (run (awardXP 1 200) sample_world) = Some u' /\
    xp_below_next u'.
Proof.
  destruct (awardXP_xp_below_next 1 200 sample_world (new_user 1 "user_abc"))
    as (u' & Hfind & _ & Hkeep & _).
  - reflexivity.
  - lia.
  - exists u'. split; [exact Hfind|].
    apply Hkeep; unfold xp_below_next; by_evaluation.
Defined.

Lemma number_le_trans (a b c : number) :
  number_le a b -> number_le b c -> number_le a c.
Proof. destruct a, b, c; simpl; try easy. lia. Qed.

(** Small awards keep the bound: from a user whose xp is below the next
    threshold, any sequence of awards, each between 0 and
    [XPForLevel (L0 + 2)] for the starting level [L0], leaves the xp below
    the next threshold. *)
Lemma award_all_xp_below_next (userId : Z) (amounts : list Z) (bound : Z) :
  Forall (fun a => 0 <= a <= bound) amounts ->
  forall (w : world) (u : user),
    find_user userId w = Some u ->
    number_le (Num bound) (calculateXPForLevel (level u + 2)) ->
    xp_below_next u ->
    exists u',
      find_user userId (award_all userId amounts w) = Some u' /\
      level u <= level u' /\ xp_below_next u'.
Proof.
  induction 1 as [|a rest Ha Hrest IH]; intros w u Hu Hb Hinv; simpl.
  - exists u. repeat split; [exact Hu | lia | exact Hinv].
  - pose proof (find_user_awardXP_world userId a u w Hu) as Hu1.
    unfold run at 1. rewrite (awardXP_found _ _ _ _ Hu). simpl snd.
    assert (Hstep : level u <= level (awardXP_user a u) <= level u + 1 /\
                    xp_below_next (awardXP_user a u)).
    { unfold xp_below_next, awardXP_user in *.
      destruct (surplus (xp u + a) (calculateXPForLevel (level u + 1)))
        as [left|] eqn:Hcmp;
        [apply surplus_Some in Hcmp; destruct Hcmp as [Hn Hleft];
         rewrite Hn in Hinv
        |apply surplus_None in Hcmp];
        cbn [xp level set_progress];
        replace (level u + 1 + 1) with (level u + 2) by lia;
        [destruct (calculateXPForLevel (level u + 2)); simpl in *|];
        try easy; try lia. split; [lia | exact Hcmp]. }
    destruct Hstep as [Hlv Hinv1].
    destruct (IH _ _ Hu1) as (u' & Hf & Hl' & Hinv'); try assumption.
    + eapply number_le_trans; [exact Hb|].
      apply calculateXPForLevel_le. lia.
    + exists u'. repeat split; [exact Hf | lia | exact Hinv'].
Qed.

(** C1 fails as stated.  Every user of [sample_world] satisfies the bound;
    one [awardXP] of 1000 leaves user 1 at level 2 with 850 xp, where level
    3 needs 225; and seven daily completions of a 10-xp task, the seventh
    unlocking Week Warrior, leave the user at level 2 with 420 xp. *)
Lemma xp_below_next_broken :
  (forall u, In u (users sample_world) -> xp_below_next u) /\
  (exists w u,
     reachable sample_world w /\
     w = run (awardXP 1 1000) sample_world /\
     find_user 1 w = Some u /\ level u = 2 /\ xp u = 850 /\
     ~ xp_below_next u) /\
  (exists w u,
     reachable sample_world w /\
     w = run_trace week_of_task_2 sample_world /\
     find_user 1 w = Some u /\ level u = 2 /\ xp u = 420 /\
     ~ xp_below_next u).
Proof.
  split; [|split].
  - intros u [<-|[]]. unfold xp_below_next. by_evaluation.
  - exists (run (awardXP 1 1000) sample_world).
    exists (set_progress 850 2 1000 (new_user 1 "user_abc")).
    split; [|split; [reflexivity|]].
    + apply (reach_step sample_world sample_world 0 (Op_awardXP 1 1000)).
      * apply reach_start.
      * simpl. lia.
    + unfold xp_below_next. repeat split; by_evaluation.
  - exists (run_trace week_of_task_2 sample_world).
    exists (set_streak (Some 648000000) 7
              (set_progress 420 2 570 (new_user 1 "user_abc"))).
    split; [|split; [reflexivity|]].
    + apply reachable_run_trace; [apply reach_start|].
      unfold week_of_task_2. repeat constructor.
    + unfold xp_below_next. repeat split; by_evaluation.
Qed.

(** ** Reward redemption *)

Lemma find_reward_select (rewardId : Z) (w : world) (r : reward) :
  find_reward rewardId w = Some r ->
  exists rest,
    filter (fun r => (rw_id r =? rewardId) && rw_active r) (rewards w)
    = r :: rest.
Proof.
  unfold find_reward.
  destruct (filter _ (rewards w)) as [|r0 rest]; simpl.
  - discriminate.
  - intros [= ->]. now exists rest.
Qed.

Lemma redeem_enough (userId rewardId : Z) (w : world) (u : user) (r : reward) :
  find_user userId w = Some u ->
  find_reward rewardId w = Some r ->
  cost r <= total_points u ->
  post_api_rewards_redeem userId rewardId w =
  (Return (res_json (Json_success_message "Reward redeemed successfully")),
   redeem_world userId rewardId r w).
Proof.
  intros Hu Hr Hle.
  destruct (find_user_select _ _ _ Hu) as [us Hsel].
  destruct (find_reward_select _ _ _ Hr) as [rs Hrew].
  unfold post_api_rewards_redeem, try_catch, bind, query. rewrite Hrew, Hsel.
  apply Z.ltb_ge in Hle. rewrite Hle. reflexivity.
Qed.

Lemma redeem_short (userId rewardId : Z) (w : world) (u : user) (r : reward) :
  find_user userId w = Some u ->
  find_reward rewardId w = Some r ->
  total_points u < cost r ->
  post_api_rewards_redeem userId rewardId w =
  (Return (res_status_json 400 (Json_error "Insufficient points")), w).
Proof.
  intros Hu Hr Hlt.
  destruct (find_user_select _ _ _ Hu) as [us Hsel].
  destruct (find_reward_select _ _ _ Hr) as [rs Hrew].
  unfold post_api_rewards_redeem, try_catch, bind, query. rewrite Hrew, Hsel.
  apply Z.ltb_lt in Hlt. rewrite Hlt. reflexivity.
Qed.

Lemma find_user_redeem_world (userId rewardId : Z) (w : world) (u : user)
  (r : reward) :
  find_user userId w = Some u ->
  find_user userId (redeem_world userId rewardId r w)
  = Some (set_total_points (total_points u - cost r) u).
Proof.
  intros Hu. unfold redeem_world.
  change (find_user userId (with_user_rewards ?f ?w0))
    with (find_user userId w0).
  rewrite find_user_update by reflexivity. now rewrite Hu.
Qed.

Lemma redemption_count_redeem_world (userId rewardId : Z) (w : world)
  (r : reward) :
  redemption_count userId rewardId (redeem_world userId rewardId r w)
  = S (redemption_count userId rewardId w).
Proof.
  unfold redemption_count, redeem_world. simpl.
  rewrite filter_app, length_app. simpl.
  unfold redeemed at 2. simpl. rewrite !Z.eqb_refl. simpl. lia.
Qed.

(** C3. For a user with [P] points and an active reward of cost [C] the
    redemption route answers 200 exactly when [C <= P]; it then leaves
    [P - C >= 0] points and appends one redemption row; when [P < C] it
    answers 400 "Insufficient points" and leaves the world as it was. *)
Theorem redeem_spec (userId rewardId : Z) (w : world) (u : user) (r : reward) :
  find_user userId w = Some u ->
  find_reward rewardId w = Some r ->
  exists res w',
    post_api_rewards_redeem userId rewardId w = (Return res, w') /\
    (status res = 200 <-> cost r <= total_points u) /\
    (cost r <= total_points u ->
       body res = Json_success_message "Reward redeemed successfully" /\
       (exists u',
          find_user userId w' = Some u' /\
          total_points u' = total_points u - cost r /\
          0 <= total_points u') /\
       (exists row,
          user_rewards w' = user_rewards w ++ [row] /\
          ur_user_id row = userId /\ reward_id row = rewardId)) /\
    (total_points u < cost r ->
       res = res_status_json 400 (Json_error "Insufficient points") /\
       w' = w).
Proof.
  intros Hu Hr.
  destruct (Z_le_gt_dec (cost r) (total_points u)) as [Hle|Hgt].
  - do 2 eexists. split; [now apply (redeem_enough _ _ _ u r)|].
    split; [|split].
    + simpl. split; auto.
    + intros _. split; [reflexivity|]. split.
      * eexists. split; [now apply (find_user_redeem_world _ _ _ u)|].
        simpl. lia.
      * eexists. split; [reflexivity|]. now simpl.
    + lia.
  - do 2 eexists. split; [apply (redeem_short _ _ _ u r); auto; lia|].
    split; [|split].
    + simpl. split; [discriminate | lia].
    + lia.
    + auto.
Qed.

Lemma redeem_spec_witness :
  exists res,
    outcome_of (post_api_rewards_redeem 1 1) sample_world = Return res /\
    res = res_status_json 400 (Json_error "Insufficient points") /\
    run (post_api_rewards_redeem 1 1) sample_world = sample_world.
Proof.
  destruct (redeem_spec 1 1 sample_world (new_user 1 "user_abc")
              {| rw_id := 1; cost := 500; rw_active := true |})
    as (res & w' & Hrun & _ & _ & Hshort).
  - reflexivity.
  - reflexivity.
  - exists res. unfold outcome_of, run. rewrite Hrun. simpl.
    destruct Hshort as [Hres Hw]; [simpl; lia|]. auto.
Defined.

(** C10. Redemption has no once-per-user rule: a user who already holds a
    redemption row for an active reward of cost [C] and has at least [C]
    points redeems it again; one more row is appended and the points drop
    by [C] once more. *)
Theorem redeem_again (userId rewardId : Z) (w : world) (u : user) (r : reward) :
  find_user userId w = Some u ->
  find_reward rewardId w = Some r ->
  (1 <= redemption_count userId rewardId w)%nat ->
  cost r <= total_points u ->
  exists w' u',
    post_api_rewards_redeem userId rewardId w =
      (Return (res_json (Json_success_message "Reward redeemed successfully")),
       w') /\
    redemption_count userId rewardId w'
      = S (redemption_count userId rewardId w) /\
    find_user userId w' = Some u' /\
    total_points u' = total_points u - cost r.
Proof.
  intros Hu Hr _ Hle.
  exists (redeem_world userId rewardId r w). eexists.
  split; [now apply (redeem_enough _ _ _ u r)|].
  split; [apply redemption_count_redeem_world|].
  split; [now apply (find_user_redeem_world _ _ _ u)|]. reflexivity.
Qed.

Lemma redeem_again_witness :
  exists w' u',
    redemption_count 1 1 redeemed_world = 1%nat /\
    outcome_of (post_api_rewards_redeem 1 1) redeemed_world =
      Return (res_json (Json_success_message "Reward redeemed successfully")) /\
    w' = run (post_api_rewards_redeem 1 1) redeemed_world /\
    redemption_count 1 1 w' = 2%nat /\
    find_user 1 w' = Some u' /\
    total_points u' = 200.
Proof.
  destruct (redeem_again 1 1 redeemed_world
              (set_progress 1050 2 700 (new_user 1 "user_abc"))
              {| rw_id := 1; cost := 500; rw_active := true |})
    as (w' & u' & Hrun & Hcount & Hfind & Hpts).
  - vm_compute. reflexivity.
  - vm_compute. reflexivity.
  - vm_compute. lia.
  - simpl. lia.
  - exists w', u'. unfold outcome_of, run. rewrite Hrun. simpl.
    repeat split; auto.
Defined.

(** ** awardAchievement *)

Lemma awardAchievement_present (userId achievementId bonus : Z) (w : world) :
  (1 <= unlock_count userId achievementId w)%nat ->
  awardAchievement userId achievementId bonus w = (Return tt, w).
Proof.
  unfold unlock_count, awardAchievement, bind, query. intros Hc.
  destruct (0 <? Z.of_nat (List.length
              (filter (unlocked userId achievementId) (user_achievements w))))
    eqn:Hex; [reflexivity|].
  apply Z.ltb_ge in Hex. lia.
Qed.

Lemma clock_awardXP_world (userId a : Z) (u : user) (w : world) :
  clock (awardXP_world userId a u w) = clock w.
Proof.
  unfold awardXP_world.
  now destruct (surplus (xp u + a) (calculateXPForLevel (level u + 1))).
Qed.

Lemma user_achievements_awardXP_world (userId a : Z) (u : user) (w : world) :
  user_achievements (awardXP_world userId a u w) = user_achievements w.
Proof.
  unfold awardXP_world.
  now destruct (surplus (xp u + a) (calculateXPForLevel (level u + 1))).
Qed.

Lemma awardAchievement_new (userId achievementId bonus : Z) (w : world)
  (u : user) :
  find_user userId w = Some u ->
  unlock_count userId achievementId w = 0%nat ->
  awardAchievement userId achievementId bonus w
  = (Return tt, achievement_world userId achievementId bonus u w).
Proof.
  intros Hu Hc. unfold unlock_count in Hc.
  unfold awardAchievement, bind, query, exec. rewrite Hc. change (0 <? Z.of_nat 0) with false. cbv beta iota.
  rewrite (awardXP_found userId bonus _ u) by exact Hu.
  unfold logActivity, exec, achievement_world, unlock_world.
  now rewrite clock_awardXP_world.
Qed.

Lemma awardAchievement_no_user (userId achievementId bonus : Z) (w : world) :
  find_user userId w = None ->
  unlock_count userId achievementId w = 0%nat ->
  exists e,
    awardAchievement userId achievementId bonus w
    = (Throw e, unlock_world userId achievementId w).
Proof.
  intros Hu Hc. unfold unlock_count in Hc.
  destruct (awardXP_missing userId bonus (unlock_world userId achievementId w))
    as [e He]; [exact Hu|].
  exists e. unfold awardAchievement, bind, query, exec.
  rewrite Hc. change (0 <? Z.of_nat 0) with false. cbv beta iota.
  fold (unlock_world userId achievementId w). now rewrite He.
Qed.

Lemma unlock_count_unlock_world (userId achievementId : Z) (w : world) :
  unlock_count userId achievementId (unlock_world userId achievementId w)
  = S (unlock_count userId achievementId w).
Proof.
  unfold unlock_count, unlock_world. simpl.
  rewrite filter_app, length_app. simpl.
  unfold unlocked at 2. simpl. rewrite !Z.eqb_refl. simpl. lia.
Qed.

Lemma unlock_count_achievement_world (userId achievementId bonus : Z)
  (u : user) (w : world) :
  unlock_count userId achievementId
    (achievement_world userId achievementId bonus u w)
  = S (unlock_count userId achievementId w).
Proof.
  rewrite <- unlock_count_unlock_world.
  unfold unlock_count, achievement_world.
  change (user_achievements (with_activity_log ?f ?w0))
    with (user_achievements w0).
  now rewrite user_achievements_awardXP_world.
Qed.

Lemma unlock_count_at_time (userId achievementId t : Z) (w : world) :
  unlock_count userId achievementId (at_time t w)
  = unlock_count userId achievementId w.
Proof. reflexivity. Qed.

(** After [awardAchievement], whatever its outcome, the pair is unlocked. *)
Lemma awardAchievement_unlocks (userId achievementId bonus : Z) (w : world) :
  (1 <= unlock_count userId achievementId
          (run (awardAchievement userId achievementId bonus) w))%nat.
Proof.
  unfold run.
  destruct (unlock_count userId achievementId w) as [|n] eqn:Hc.
  - destruct (find_user userId w) as [u|] eqn:Hu.
    + rewrite (awardAchievement_new _ _ _ _ u Hu Hc). simpl snd.
      rewrite unlock_count_achievement_world. lia.
    + destruct (awardAchievement_no_user _ achievementId bonus _ Hu Hc)
        as [e He].
      rewrite He. simpl snd. rewrite unlock_count_unlock_world. lia.
  - rewrite awardAchievement_present by lia. simpl snd. lia.
Qed.

Lemma find_user_achievement_world (userId achievementId bonus : Z) (u : user)
  (w : world) :
  find_user userId w = Some u ->
  find_user userId (achievement_world userId achievementId bonus u w)
  = Some (awardXP_user bonus u).
Proof.
  intros Hu. unfold achievement_world.
  change (find_user userId (with_activity_log ?f ?w0))
    with (find_user userId w0).
  now rewrite find_user_awardXP_world by exact Hu.
Qed.

Lemma user_achievements_achievement_world (userId achievementId bonus : Z)
  (u : user) (w : world) :
  user_achievements (achievement_world userId achievementId bonus u w)
  = user_achievements w ++
    [{| ua_user_id := userId; achievement_id := achievementId;
        unlocked_at := clock w |}].
Proof.
  unfold achievement_world.
  change (user_achievements (with_activity_log ?f ?w0))
    with (user_achievements w0).
  now rewrite user_achievements_awardXP_world.
Qed.

(** C4. [awardAchievement] is idempotent.  A second invocation, at any
    later clock value, returns without changing the world.  For a user
    with [P] points who has not unlocked the achievement, the first
    invocation leaves exactly one unlock row for the pair and [P + bonus]
    points, and the second one keeps both: one row, one credit. *)
Theorem awardAchievement_idempotent (userId achievementId bonus t : Z)
  (w : world) :
  let first := run (awardAchievement userId achievementId bonus) w in
  let second :=
    run (awardAchievement userId achievementId bonus) (at_time t first) in
  awardAchievement userId achievementId bonus (at_time t first)
    = (Return tt, at_time t first) /\
  (forall u,
     find_user userId w = Some u ->
     unlock_count userId achievementId w = 0%nat ->
     outcome_of (awardAchievement userId achievementId bonus) w = Return tt /\
     unlock_count userId achievementId first = 1%nat /\
     unlock_count userId achievementId second = 1%nat /\
     exists u1,
       find_user userId first = Some u1 /\
       find_user userId second = Some u1 /\
       total_points u1 = total_points u + bonus).
Proof.
  intros first second.
  assert (Hnoop : awardAchievement userId achievementId bonus (at_time t first)
                  = (Return tt, at_time t first)).
  { apply awardAchievement_present. rewrite unlock_count_at_time.
    apply awardAchievement_unlocks. }
  split; [exact Hnoop|].
  intros u Hu Hc.
  assert (Hfirst : first = achievement_world userId achievementId bonus u w).
  { unfold first, run. now rewrite (awardAchievement_new _ _ _ _ u Hu Hc). }
  assert (Hcount : unlock_count userId achievementId first = 1%nat).
  { rewrite Hfirst, unlock_count_achievement_world, Hc. reflexivity. }
  pose proof (find_user_achievement_world userId achievementId bonus u w Hu)
    as Hf1.
  destruct (awardXP_user_fields bonus u) as (_ & Hp1 & _).
  split; [|split; [exact Hcount|split]].
  - unfold outcome_of. now rewrite (awardAchievement_new _ _ _ _ u Hu Hc).
  - unfold second, run. rewrite Hnoop. simpl snd.
    now rewrite unlock_count_at_time.
  - exists (awardXP_user bonus u). rewrite <- Hfirst in Hf1.
    split; [exact Hf1|]. split; [|exact Hp1].
    unfold second, run. rewrite Hnoop. simpl snd. exact Hf1.
Qed.

Lemma awardAchievement_idempotent_witness :
  let first := run (awardAchievement 1 1 100) sample_world in
  let second := run (awardAchievement 1 1 100) (at_time 5 first) in
  unlock_count 1 1 first = 1%nat /\
  unlock_count 1 1 second = 1%nat /\
  exists u1,
    find_user 1 second = Some u1 /\ total_points u1 = 100.
Proof.
  intros first second.
  destruct (awardAchievement_idempotent 1 1 100 5 sample_world) as [_ H].
  destruct (H (new_user 1 "user_abc")) as (_ & H1 & H2 & u1 & _ & Hf & Hp).
  - reflexivity.
  - reflexivity.
  - split; [exact H1|]. split; [exact H2|]. exists u1. split; [exact Hf|].
    exact Hp.
Defined.

(** ** updateStreak *)

Lemma updateStreak_found (userId : Z) (w : world) (u : user) :
  find_user userId w = Some u ->
  updateStreak userId w =
  (if newStreak_of (clock w) u =? 7 then awardAchievement userId 3 500
   else if newStreak_of (clock w) u =? 30 then awardAchievement userId 6 1000
   else ret tt) (streak_world userId u w).
Proof.
  intros Hu. destruct (find_user_select _ _ _ Hu) as [rest Hsel].
  unfold updateStreak, bind, query, exec. rewrite Hsel. reflexivity.
Qed.

Lemma find_user_streak_world (userId : Z) (w : world) (u : user) :
  find_user userId w = Some u ->
  find_user userId (streak_world userId u w)
  = Some (set_streak (Some (clock w)) (newStreak_of (clock w) u) u).
Proof.
  intros Hu. unfold streak_world.
  rewrite find_user_update by reflexivity. now rewrite Hu.
Qed.

Lemma awardAchievement_returns (userId achievementId bonus : Z) (w : world)
  (u : user) :
  find_user userId w = Some u ->
  exists w', awardAchievement userId achievementId bonus w = (Return tt, w').
Proof.
  intros Hu. destruct (unlock_count userId achievementId w) as [|n] eqn:Hc.
  - rewrite (awardAchievement_new _ _ _ _ u Hu Hc). now eexists.
  - rewrite awardAchievement_present by lia. now eexists.
Qed.

(** [updateStreak] returns for every existing user. *)
Lemma updateStreak_returns (userId : Z) (w : world) (u : user) :
  find_user userId w = Some u ->
  exists w', updateStreak userId w = (Return tt, w').
Proof.
  intros Hu. rewrite (updateStreak_found _ _ _ Hu).
  pose proof (find_user_streak_world userId w u Hu) as Hu1.
  destruct (newStreak_of (clock w) u =? 7);
    [|destruct (newStreak_of (clock w) u =? 30)].
  - now apply (awardAchievement_returns _ _ _ _ _ Hu1).
  - now apply (awardAchievement_returns _ _ _ _ _ Hu1).
  - now eexists.
Qed.

Lemma newStreak_of_cases (now : Z) (u : user) :
  (daysDiff_of now u = 1 -> newStreak_of now u = streak u + 1) /\
  (1 < daysDiff_of now u -> newStreak_of now u = 1) /\
  (daysDiff_of now u <= 0 -> newStreak_of now u = streak u).
Proof.
  unfold newStreak_of.
  destruct (daysDiff_of now u =? 1) eqn:H1;
    [apply Z.eqb_eq in H1 | apply Z.eqb_neq in H1];
    (destruct (1 <? daysDiff_of now u) eqn:H2;
     [apply Z.ltb_lt in H2 | apply Z.ltb_ge in H2]);
    repeat split; intros; lia.
Qed.

(** What [updateStreak] computes.  It goes by [daysDiff], the number of
    whole 24-hour periods between [last_activity] and now: [daysDiff = 1]
    adds one to the streak, [daysDiff > 1] resets it to 1, [daysDiff <= 0]
    keeps it; [last_activity] becomes now in every case.  A resulting
    streak of exactly 7 unlocks achievement 3 (Week Warrior, +500 points)
    unless it is unlocked already, one of exactly 30 unlocks achievement 6
    (Month Master, +1000); in every other case the unlock rows, points,
    level and xp stay as they were. *)
Lemma updateStreak_elapsed_periods (userId : Z) (w : world) (u : user) :
  find_user userId w = Some u ->
  let d := daysDiff_of (clock w) u in
  let s := newStreak_of (clock w) u in
  exists w' u',
    updateStreak userId w = (Return tt, w') /\
    find_user userId w' = Some u' /\
    streak u' = s /\
    last_activity u' = Some (clock w) /\
    (d = 1 -> s = streak u + 1) /\
    (1 < d -> s = 1) /\
    (d <= 0 -> s = streak u) /\
    (s = 7 -> unlock_count userId 3 w = 0%nat ->
       user_achievements w' = user_achievements w ++
         [{| ua_user_id := userId; achievement_id := 3;
             unlocked_at := clock w |}] /\
       total_points u' = total_points u + 500) /\
    (s = 30 -> unlock_count userId 6 w = 0%nat ->
       user_achievements w' = user_achievements w ++
         [{| ua_user_id := userId; achievement_id := 6;
             unlocked_at := clock w |}] /\
       total_points u' = total_points u + 1000) /\
    ((s <> 7 /\ s <> 30) \/
     (s = 7 /\ (1 <= unlock_count userId 3 w)%nat) \/
     (s = 30 /\ (1 <= unlock_count userId 6 w)%nat) ->
       user_achievements w' = user_achievements w /\
       total_points u' = total_points u /\
       level u' = level u /\ xp u' = xp u).
Proof.
  intros Hu d s.
  destruct (newStreak_of_cases (clock w) u) as (Hd1 & Hd2 & Hd3).
  pose proof (find_user_streak_world userId w u Hu) as Hu1.
  set (u1 := set_streak (Some (clock w)) s u) in *.
  set (w1 := streak_world userId u w) in *.
  rewrite (updateStreak_found _ _ _ Hu). fold s. fold w1.
  assert (Hkeep : exists w' u',
            ret tt w1 = (Return tt, w') /\ find_user userId w' = Some u' /\
            streak u' = s /\ last_activity u' = Some (clock w) /\
            user_achievements w' = user_achievements w /\
            total_points u' = total_points u /\
            level u' = level u /\ xp u' = xp u).
  { exists w1, u1. repeat split; try reflexivity. exact Hu1. }
  assert (Hnew : forall a bonus,
            unlock_count userId a w = 0%nat ->
            exists w' u',
              awardAchievement userId a bonus w1 = (Return tt, w') /\
              find_user userId w' = Some u' /\
              streak u' = s /\ last_activity u' = Some (clock w) /\
              user_achievements w' = user_achievements w ++
                [{| ua_user_id := userId; achievement_id := a;
                    unlocked_at := clock w |}] /\
              total_points u' = total_points u + bonus).
  { intros a bonus Hc.
    exists (achievement_world userId a bonus u1 w1), (awardXP_user bonus u1).
    destruct (awardXP_user_fields bonus u1) as (_ & Hp & Hs & Hl).
    split; [apply awardAchievement_new; [exact Hu1 | exact Hc]|].
    split; [apply find_user_achievement_world; exact Hu1|].
    split; [exact Hs|]. split; [exact Hl|].
    split; [|exact Hp].
    rewrite user_achievements_achievement_world. reflexivity. }
  assert (Hold : forall a bonus,
            (1 <= unlock_count userId a w)%nat ->
            awardAchievement userId a bonus w1 = ret tt w1).
  { intros a bonus Hc. apply awardAchievement_present. exact Hc. }
  destruct (s =? 7) eqn:H7; [apply Z.eqb_eq in H7 | apply Z.eqb_neq in H7].
  - destruct (unlock_count userId 3 w) as [|n] eqn:Hc.
    + destruct (Hnew 3 500 Hc) as (w' & u' & Hr & Hf & Hs & Hl & Ha & Hp).
      exists w', u'. repeat split; auto; try lia.
      all: intros [[? ?]|[[? ?]|[? ?]]]; lia.
    + rewrite (Hold 3 500) by (rewrite Hc; lia).
      destruct Hkeep as (w' & u' & Hr & Hf & Hs & Hl & Ha & Hp & Hlv & Hx).
      exists w', u'. repeat split; auto; try lia.
  - destruct (s =? 30) eqn:H30;
      [apply Z.eqb_eq in H30 | apply Z.eqb_neq in H30].
    + destruct (unlock_count userId 6 w) as [|n] eqn:Hc.
      * destruct (Hnew 6 1000 Hc)
          as (w' & u' & Hr & Hf & Hs & Hl & Ha & Hp).
        exists w', u'. repeat split; auto; try lia.
        all: intros [[? ?]|[[? ?]|[? ?]]]; lia.
      * rewrite (Hold 6 1000) by (rewrite Hc; lia).
        destruct Hkeep as (w' & u' & Hr & Hf & Hs & Hl & Ha & Hp & Hlv & Hx).
        exists w', u'. repeat split; auto; try lia.
    + destruct Hkeep as (w' & u' & Hr & Hf & Hs & Hl & Ha & Hp & Hlv & Hx).
      exists w', u'. repeat split; auto; try lia.
Qed.

Lemma updateStreak_elapsed_periods_at_seven :
  exists w' u',
    updateStreak 1 sixth_day_world = (Return tt, w') /\
    find_user 1 w' = Some u' /\
    streak u' = 7 /\
    last_activity u' = Some 90000000 /\
    unlock_count 1 3 w' = 1%nat /\
    total_points u' = 500.
Proof.
  destruct (updateStreak_elapsed_periods 1 sixth_day_world
              (set_streak (Some 0) 6 (new_user 1 "user_abc")))
    as (w' & u' & Hrun & Hfind & Hs & Hl & _ & _ & _ & H7 & _).
  - reflexivity.
  - exists w', u'.
    destruct H7 as [Hrows Hpts]; [reflexivity | reflexivity |].
    repeat split; try assumption.
    unfold unlock_count. rewrite Hrows. reflexivity.
Defined.

(** C5 on the code.  The streak is meant to count calendar days, and the
    code calls the time of the request [today], but it compares elapsed
    milliseconds with one day.  A user who completes a task on each of
    seven consecutive calendar days, each time 23 hours after the time
    before, ends with a streak of 1 and without Week Warrior, where the
    same seven days at noon give a streak of 7 and the unlock; two tasks a
    day at 10:00 and 10:05 for ten days leave the streak at 1 as well.
    For one call: from 23:00 of day 0 to 01:00 of day 1 one calendar day
    has passed, yet the streak stays 3; from 01:00 of day 0 to 00:30 of
    day 2 two calendar days have passed, yet the streak goes from 3 to 4
    and is not reset. *)
Theorem updateStreak_misses_calendar_days :
  (map (fun step => DATE (fst step)) evenings_of_task_2
   = [1; 2; 3; 4; 5; 6; 7] /\
   let w := run_trace evenings_of_task_2 sample_world in
   option_map streak (find_user 1 w) = Some 1 /\
   option_map last_activity (find_user 1 w) = Some (Some 667800000) /\
   List.length (task_rows 1 2 7 w) = 1%nat /\
   unlock_count 1 3 w = 0%nat) /\
  (map (fun step => DATE (fst step)) week_of_task_2
   = [1; 2; 3; 4; 5; 6; 7] /\
   let w := run_trace week_of_task_2 sample_world in
   option_map streak (find_user 1 w) = Some 7 /\
   unlock_count 1 3 w = 1%nat) /\
  (let w := run_trace two_tasks_a_day sample_world in
   option_map streak (find_user 1 w) = Some 1 /\
   List.length (task_rows 1 1 10 w) = 1%nat /\
   List.length (task_rows 1 2 10 w) = 1%nat /\
   unlock_count 1 3 w = 0%nat) /\
  (let u := set_streak (Some 82800000) 3 (new_user 1 "user_abc") in
   find_user 1 late_evening_world = Some u /\
   calendar_days (clock late_evening_world) u = 1 /\
   outcome_of (updateStreak 1) late_evening_world = Return tt /\
   option_map streak (find_user 1 (run (updateStreak 1) late_evening_world))
   = Some 3) /\
  (let u := set_streak (Some 3600000) 3 (new_user 1 "user_abc") in
   find_user 1 two_dates_later_world = Some u /\
   calendar_days (clock two_dates_later_world) u = 2 /\
   outcome_of (updateStreak 1) two_dates_later_world = Return tt /\
   option_map streak (find_user 1 (run (updateStreak 1) two_dates_later_world))
   = Some 4).
Proof.
  vm_compute. repeat split; reflexivity.
Qed.

(** ** Relations kept by the monadic combinators *)

Section Preservation.
Variable P : world -> world -> Prop.
Hypothesis P_refl : forall w, P w w.
Hypothesis P_trans : forall a b c, P a b -> P b c -> P a c.

Lemma preserves_ret {A} (a : A) : preserves P (ret a).
Proof. intros w. apply P_refl. Qed.

Lemma preserves_throw {A} (e : exn) : preserves P (@throw A e).
Proof. intros w. apply P_refl. Qed.

Lemma preserves_query {A} (q : world -> A) : preserves P (query q).
Proof. intros w. apply P_refl. Qed.

Lemma preserves_exec (f : world -> world) :
  (forall w, P w (f w)) -> preserves P (exec f).
Proof. intros Hf w. apply Hf. Qed.

Lemma preserves_bind {A B} (m : M A) (k : A -> M B) :
  preserves P m -> (forall a, preserves P (k a)) -> preserves P (bind m k).
Proof.
  intros Hm Hk w. unfold bind. specialize (Hm w).
  destruct (m w) as [[a|e] w1]; simpl in *.
  - apply P_trans with w1; [exact Hm | apply Hk].
  - exact Hm.
Qed.

Lemma preserves_try_catch {A} (m : M A) (h : exn -> M A) :
  preserves P m -> (forall e, preserves P (h e)) ->
  preserves P (try_catch m h).
Proof.
  intros Hm Hh w. unfold try_catch. specialize (Hm w).
  destruct (m w) as [[a|e] w1]; simpl in *.
  - exact Hm.
  - apply P_trans with w1; [exact Hm | apply Hh].
Qed.
End Preservation.

Lemma same_counts_refl (w : world) : same_counts w w.
Proof. intros u ty _ _. reflexivity. Qed.

Lemma same_counts_trans (a b c : world) :
  same_counts a b -> same_counts b c -> same_counts a c.
Proof.
  intros Hab Hbc u ty H1 H2. rewrite (Hbc u ty H1 H2). now apply Hab.
Qed.

(** Splits a computation along its binds, branches and catch. *)
Ltac preservation refl trans :=
  repeat lazymatch goal with
    | |- preserves _ (ret _) => apply (preserves_ret _ refl)
    | |- preserves _ (throw _) => apply (preserves_throw _ refl)
    | |- preserves _ data_undefined => apply (preserves_throw _ refl)
    | |- preserves _ (query _) => apply (preserves_query _ refl)
    | |- preserves _ (bind _ _) =>
        apply (preserves_bind _ trans); [|intros ?]
    | |- preserves _ (try_catch _ _) =>
        apply (preserves_try_catch _ trans); [|intros ?]
    | |- preserves _ (match ?x with _ => _ end) => destruct x
    | |- _ => fail
    end.

Lemma same_counts_activity_log (w w' : world) :
  activity_log w' = activity_log w -> same_counts w w'.
Proof. intros H u ty _ _. unfold count_activity. now rewrite H. Qed.

Lemma logActivity_same_counts (userId : Z) (activityType description : string)
  (xpEarned : Z) :
  activityType = "level_up" \/ activityType = "achievement" ->
  preserves same_counts
    (logActivity userId activityType description xpEarned).
Proof.
  intros Hty w u ty H1 H2. unfold logActivity, exec, count_activity. simpl.
  rewrite filter_app, length_app. simpl.
  assert (Hno : String.eqb activityType ty = false).
  { apply String.eqb_neq. destruct Hty; congruence. }
  unfold logged at 2. simpl. rewrite Hno, andb_false_r. simpl. lia.
Qed.

Lemma awardXP_same_counts (userId a : Z) :
  preserves same_counts (awardXP userId a).
Proof.
  unfold awardXP. preservation same_counts_refl same_counts_trans.
  - apply logActivity_same_counts. now left.
  - apply preserves_exec. intros w. now apply same_counts_activity_log.
Qed.

Lemma awardAchievement_same_counts (userId achievementId bonus : Z) :
  preserves same_counts (awardAchievement userId achievementId bonus).
Proof.
  unfold awardAchievement. preservation same_counts_refl same_counts_trans.
  - apply preserves_exec. intros w. now apply same_counts_activity_log.
  - apply awardXP_same_counts.
  - apply logActivity_same_counts. now right.
Qed.

Lemma checkMessageAchievements_same_counts (userId : Z) :
  preserves same_counts (checkMessageAchievements userId).
Proof.
  unfold checkMessageAchievements.
  preservation same_counts_refl same_counts_trans.
  apply awardAchievement_same_counts.
Qed.

Lemma checkPostAchievements_same_counts (userId : Z) :
  preserves same_counts (checkPostAchievements userId).
Proof.
  unfold checkPostAchievements.
  preservation same_counts_refl same_counts_trans.
  apply awardAchievement_same_counts.
Qed.

Lemma console_same_counts (line : string) :
  preserves same_counts (console_log line).
Proof.
  apply preserves_exec. intros w. now apply same_counts_activity_log.
Qed.

(** No webhook delivery adds a row of type message or post (or of any type
    but level_up and achievement) to the activity log. *)
Lemma post_webhooks_whop_same_counts (e : event) :
  preserves same_counts (post_webhooks_whop e).
Proof.
  unfold post_webhooks_whop, handleMessageCreated, handlePostCreated,
    handleReactionAdded, handleMemberJoined, getUserByWhopId, console_error.
  preservation same_counts_refl same_counts_trans;
    first [ apply awardXP_same_counts
          | apply checkMessageAchievements_same_counts
          | apply checkPostAchievements_same_counts
          | apply console_same_counts ].
Qed.

Lemma deliver_same_counts (events : list event) (w : world) :
  same_counts w (snd (deliver events w)).
Proof.
  revert w. induction events as [|e rest IH]; intros w; simpl.
  - apply same_counts_refl.
  - pose proof (post_webhooks_whop_same_counts e w) as He.
    destruct (post_webhooks_whop e w) as [[r|x] w1]; simpl in *.
    + specialize (IH w1). destruct (deliver rest w1) as [rs w2]. simpl in *.
      now apply same_counts_trans with w1.
    + exact He.
Qed.

(** Webhook deliveries alone never reach the Chatterbox threshold: the
    number of message rows after any list of events is the number before. *)
Lemma deliver_message_count (events : list event) (w : world) (userId : Z) :
  count_activity userId "message" (snd (deliver events w))
  = count_activity userId "message" w.
Proof. apply deliver_same_counts; discriminate. Qed.

(** ** Webhook dispatch *)

Lemma no_whop_match (whopUserId : option string) (w : world) :
  (forall u, In u (users w) -> Some (whop_user_id u) <> whopUserId) ->
  getUserByWhopId whopUserId w = (Return None, w).
Proof.
  intros Hno. unfold getUserByWhopId, query.
  replace (filter (has_whop_id whopUserId) (users w)) with (@nil user);
    [reflexivity|].
  symmetry. induction (users w) as [|u l IH]; simpl; [reflexivity|].
  assert (Hu : has_whop_id whopUserId u = false).
  { unfold has_whop_id. destruct whopUserId as [s|]; [|reflexivity].
    apply String.eqb_neq. intros Heq. apply (Hno u); [now left|].
    now rewrite Heq. }
  rewrite Hu. apply IH. intros v Hv. apply Hno. now right.
Qed.

Lemma switch_message (e : event) :
  type e = "message.created" ->
  post_webhooks_whop e = acknowledge (handleMessageCreated (data e)).
Proof. intros H. unfold post_webhooks_whop. rewrite H. reflexivity. Qed.

Lemma switch_post (e : event) :
  type e = "post.created" ->
  post_webhooks_whop e = acknowledge (handlePostCreated (data e)).
Proof. intros H. unfold post_webhooks_whop. rewrite H. reflexivity. Qed.

Lemma switch_reaction (e : event) :
  type e = "reaction.added" ->
  post_webhooks_whop e = acknowledge (handleReactionAdded (data e)).
Proof. intros H. unfold post_webhooks_whop. rewrite H. reflexivity. Qed.

Lemma switch_member (e : event) :
  type e = "member.joined" ->
  post_webhooks_whop e = acknowledge (handleMemberJoined (data e)).
Proof. intros H. unfold post_webhooks_whop. rewrite H. reflexivity. Qed.

Lemma switch_default (e : event) :
  type e <> "message.created" -> type e <> "post.created" ->
  type e <> "reaction.added" -> type e <> "member.joined" ->
  post_webhooks_whop e
  = acknowledge
      (console_log (String.append "Unhandled webhook event: " (type e))).
Proof.
  intros H1 H2 H3 H4. unfold post_webhooks_whop.
  apply String.eqb_neq in H1, H2, H3, H4. now rewrite H1, H2, H3, H4.
Qed.

(** C9. A message.created, post.created or reaction.added event whose
    external user id belongs to no local user is acknowledged with success
    and leaves the world, console included, exactly as it was. *)
Theorem webhook_unknown_user (e : event) (d : payload) (w : world) :
  type e = "message.created" \/ type e = "post.created" \/
  type e = "reaction.added" ->
  data e = Some d ->
  (forall u, In u (users w) -> Some (whop_user_id u) <> user_id d) ->
  post_webhooks_whop e w = (Return (res_json Json_success), w).
Proof.
  intros Hty Hd Hno. apply no_whop_match in Hno.
  destruct Hty as [Hty|[Hty|Hty]];
    [ rewrite (switch_message e Hty)
    | rewrite (switch_post e Hty)
    | rewrite (switch_reaction e Hty) ];
    rewrite Hd;
    unfold acknowledge, try_catch, bind, handleMessageCreated,
      handlePostCreated, handleReactionAdded;
    unfold bind; rewrite Hno; reflexivity.
Qed.

Lemma webhook_unknown_user_witness :
  post_webhooks_whop (event_of "post.created" "user_xyz") sample_world
  = (Return (res_json Json_success), sample_world).
Proof.
  apply (webhook_unknown_user _ {| user_id := Some "user_xyz" |}).
  - right. left. reflexivity.
  - reflexivity.
  - intros u [<-|[]]. discriminate.
Defined.

Lemma find_user_of_member (u : user) (w : world) :
  In u (users w) -> exists u0, find_user (id u) w = Some u0.
Proof.
  intros Hin. unfold find_user, select_user.
  destruct (filter (has_id (id u)) (users w)) as [|u0 rest] eqn:Hf.
  - assert (Hu : In u (filter (has_id (id u)) (users w))).
    { apply filter_In. split; [exact Hin|]. apply Z.eqb_refl. }
    rewrite Hf in Hu. destruct Hu.
  - now exists u0.
Qed.

Lemma getUserByWhopId_member (whopUserId : option string) (u : user)
  (w : world) :
  getUserByWhopId whopUserId w = (Return (Some u), w) ->
  In u (users w) /\ Some (whop_user_id u) = whopUserId.
Proof.
  unfold getUserByWhopId, query. intros [= H].
  destruct (filter (has_whop_id whopUserId) (users w)) as [|v rest] eqn:Hf;
    [discriminate|].
  injection H as ->.
  assert (Hu : In u (filter (has_whop_id whopUserId) (users w)))
    by (rewrite Hf; now left).
  apply filter_In in Hu. destruct Hu as [Hin Hm]. split; [exact Hin|].
  unfold has_whop_id in Hm. destruct whopUserId as [s|]; [|discriminate].
  apply String.eqb_eq in Hm. now rewrite Hm.
Qed.

(** [checkMessageAchievements] for an existing user: with 50 message rows
    or more it unlocks achievement 2 (Chatterbox, +250) unless it is
    unlocked already; otherwise it changes nothing. *)
Lemma checkMessageAchievements_found (userId : Z) (w : world) (u : user) :
  find_user userId w = Some u ->
  exists w',
    checkMessageAchievements userId w = (Return tt, w') /\
    (50 <= count_activity userId "message" w ->
     unlock_count userId 2 w = 0%nat ->
     w' = achievement_world userId 2 250 u w) /\
    (count_activity userId "message" w < 50 \/
     (1 <= unlock_count userId 2 w)%nat -> w' = w).
Proof.
  intros Hu. unfold checkMessageAchievements, bind, query.
  destruct (50 <=? count_activity userId "message" w) eqn:Hc;
    [apply Z.leb_le in Hc | apply Z.leb_gt in Hc].
  - destruct (unlock_count userId 2 w) as [|n] eqn:Hn.
    + rewrite (awardAchievement_new _ _ _ _ u Hu Hn).
      eexists. split; [reflexivity|]. split; [reflexivity|].
      intros [H|H]; lia.
    + rewrite awardAchievement_present by lia.
      eexists. split; [reflexivity|]. split; [discriminate|]. reflexivity.
  - eexists. split; [reflexivity|]. split; [lia|]. reflexivity.
Qed.

(** [checkPostAchievements] for an existing user: achievement 5 (Content
    King, +750) at 25 post rows or more. *)
Lemma checkPostAchievements_found (userId : Z) (w : world) (u : user) :
  find_user userId w = Some u ->
  exists w',
    checkPostAchievements userId w = (Return tt, w') /\
    (25 <= count_activity userId "post" w ->
     unlock_count userId 5 w = 0%nat ->
     w' = achievement_world userId 5 750 u w) /\
    (count_activity userId "post" w < 25 \/
     (1 <= unlock_count userId 5 w)%nat -> w' = w).
Proof.
  intros Hu. unfold checkPostAchievements, bind, query.
  destruct (25 <=? count_activity userId "post" w) eqn:Hc;
    [apply Z.leb_le in Hc | apply Z.leb_gt in Hc].
  - destruct (unlock_count userId 5 w) as [|n] eqn:Hn.
    + rewrite (awardAchievement_new _ _ _ _ u Hu Hn).
      eexists. split; [reflexivity|]. split; [reflexivity|].
      intros [H|H]; lia.
    + rewrite awardAchievement_present by lia.
      eexists. split; [reflexivity|]. split; [discriminate|]. reflexivity.
  - eexists. split; [reflexivity|]. split; [lia|]. reflexivity.
Qed.

(** The dispatch of the webhook route on a resolved user: 10 xp and the
    message check, 50 xp and the post check, 5 xp and no check. *)
Lemma webhook_resolved_user (e : event) (d : payload) (u : user) (w : world) :
  data e = Some d ->
  getUserByWhopId (user_id d) w = (Return (Some u), w) ->
  exists u0,
    find_user (id u) w = Some u0 /\
    (type e = "message.created" ->
     post_webhooks_whop e w =
     (Return (res_json Json_success),
      run (checkMessageAchievements (id u)) (awardXP_world (id u) 10 u0 w))) /\
    (type e = "post.created" ->
     post_webhooks_whop e w =
     (Return (res_json Json_success),
      run (checkPostAchievements (id u)) (awardXP_world (id u) 50 u0 w))) /\
    (type e = "reaction.added" ->
     post_webhooks_whop e w =
     (Return (res_json Json_success), awardXP_world (id u) 5 u0 w)).
Proof.
  intros Hd Hget.
  destruct (getUserByWhopId_member _ _ _ Hget) as [Hin _].
  destruct (find_user_of_member u w Hin) as [u0 Hu0].
  exists u0. split; [exact Hu0|].
  pose proof (find_user_awardXP_world (id u) 10 u0 w Hu0) as H10.
  pose proof (find_user_awardXP_world (id u) 50 u0 w Hu0) as H50.
  destruct (checkMessageAchievements_found _ _ _ H10) as (wm & Hm & _).
  destruct (checkPostAchievements_found _ _ _ H50) as (wp & Hp & _).
  split; [|split]; intros Hty.
  - rewrite (switch_message e Hty), Hd.
    unfold acknowledge, try_catch, handleMessageCreated, bind, run.
    rewrite Hget, (awardXP_found _ _ _ _ Hu0), Hm. reflexivity.
  - rewrite (switch_post e Hty), Hd.
    unfold acknowledge, try_catch, handlePostCreated, bind, run.
    rewrite Hget, (awardXP_found _ _ _ _ Hu0), Hp. reflexivity.
  - rewrite (switch_reaction e Hty), Hd.
    unfold acknowledge, try_catch, handleReactionAdded, bind.
    rewrite Hget, (awardXP_found _ _ _ _ Hu0). reflexivity.
Qed.

(** member.joined changes nothing; an unknown type writes one console line
    and nothing else. *)
Lemma webhook_other_types (e : event) (w : world) :
  (type e = "member.joined" ->
   post_webhooks_whop e w = (Return (res_json Json_success), w)) /\
  (type e <> "message.created" -> type e <> "post.created" ->
   type e <> "reaction.added" -> type e <> "member.joined" ->
   post_webhooks_whop e w =
   (Return (res_json Json_success),
    with_console (fun c => c ++
      [String.append "Unhandled webhook event: " (type e)]) w)).
Proof.
  split.
  - intros Hty. now rewrite (switch_member e Hty).
  - intros H1 H2 H3 H4. now rewrite (switch_default e H1 H2 H3 H4).
Qed.

(** C8, the scenario on the code.  Fifty message.created events for user 1
    of [sample_world] are all acknowledged and credit 10 xp each, but log
    no message row: the count the Chatterbox check reads is still 0 and
    achievement 2 is not unlocked, neither by the 50th event nor by the
    51st. *)
Theorem fifty_messages_unlock_nothing :
  let fifty := deliver (repeat (message_event "user_abc") 50) sample_world in
  let one_more := deliver [message_event "user_abc"] (snd fifty) in
  fst fifty = repeat (res_json Json_success) 50 /\
  option_map total_points (find_user 1 (snd fifty)) = Some 500 /\
  count_activity 1 "message" (snd fifty) = 0 /\
  unlock_count 1 2 (snd fifty) = 0%nat /\
  fst one_more = [res_json Json_success] /\
  count_activity 1 "message" (snd one_more) = 0 /\
  unlock_count 1 2 (snd one_more) = 0%nat.
Proof.
  vm_compute. repeat split; reflexivity.
Qed.

(** ** Task completion *)

Lemma filter_map_if {A} (p : A -> bool) (f : A -> A) (l : list A) :
  (forall x, p (f x) = p x) ->
  filter p (map (fun x => if p x then f x else x) l) = map f (filter p l).
Proof.
  intros Hp. induction l as [|x l IH]; simpl; [reflexivity|].
  destruct (p x) eqn:Hx.
  - rewrite Hp, Hx. simpl. now rewrite IH.
  - rewrite Hx. exact IH.
Qed.

Lemma existsb_filter_nil {A} (p : A -> bool) (l : list A) :
  existsb p l = false <-> filter p l = [].
Proof.
  induction l as [|x l IH]; simpl; [tauto|].
  destruct (p x); simpl; [split; discriminate | exact IH].
Qed.

Lemma task_rows_upsert (userId taskId progress' : Z) (w : world) :
  task_rows userId taskId (DATE (clock w))
    (upsert_user_task userId taskId progress' w)
  = match task_rows userId taskId (DATE (clock w)) w with
    | [] => [new_user_task userId taskId progress' (clock w)]
    | rows => map (set_completed (clock w)) rows
    end.
Proof.
  unfold task_rows, upsert_user_task.
  destruct (existsb _ (user_tasks w)) eqn:Hex.
  - simpl. rewrite filter_map_if by reflexivity.
    destruct (filter _ (user_tasks w)) eqn:Hf; [|reflexivity].
    apply existsb_filter_nil in Hf. congruence.
  - apply existsb_filter_nil in Hex. simpl.
    rewrite filter_app, Hex. simpl.
    unfold task_row_of at 1. simpl. now rewrite !Z.eqb_refl.
Qed.

Lemma same_user_tasks_refl (w : world) : same_user_tasks w w.
Proof. now repeat split. Qed.

Lemma same_user_tasks_trans (a b c : world) :
  same_user_tasks a b -> same_user_tasks b c -> same_user_tasks a c.
Proof.
  intros (H1 & H2 & H3) (H4 & H5 & H6). repeat split; congruence.
Qed.

Lemma logActivity_same_user_tasks (userId : Z) (ty d : string) (x : Z) :
  preserves same_user_tasks (logActivity userId ty d x).
Proof. intros w. now repeat split. Qed.

Lemma awardXP_same_user_tasks (userId a : Z) :
  preserves same_user_tasks (awardXP userId a).
Proof.
  unfold awardXP. preservation same_user_tasks_refl same_user_tasks_trans.
  - apply logActivity_same_user_tasks.
  - apply preserves_exec. intros w. now repeat split.
Qed.

Lemma awardAchievement_same_user_tasks (userId achievementId bonus : Z) :
  preserves same_user_tasks (awardAchievement userId achievementId bonus).
Proof.
  unfold awardAchievement.
  preservation same_user_tasks_refl same_user_tasks_trans.
  - apply preserves_exec. intros w. now repeat split.
  - apply awardXP_same_user_tasks.
  - apply logActivity_same_user_tasks.
Qed.

Lemma updateStreak_same_user_tasks (userId : Z) :
  preserves same_user_tasks (updateStreak userId).
Proof.
  unfold updateStreak.
  preservation same_user_tasks_refl same_user_tasks_trans;
    first [ apply awardAchievement_same_user_tasks
          | apply preserves_exec; intros w; now repeat split ].
Qed.

Lemma find_task_select (taskId : Z) (w : world) (task : daily_task) :
  find_task taskId w = Some task ->
  exists rest,
    filter (fun t => dt_id t =? taskId) (daily_tasks w) = task :: rest.
Proof.
  unfold find_task. destruct (filter _ (daily_tasks w)) as [|t rest]; simpl.
  - discriminate.
  - intros [= ->]. now exists rest.
Qed.

(** The task completion route of the full server.  An unknown task is
    answered 404 and a task whose row of today is completed 400, both
    without any change.  Otherwise, for an existing user, the route
    answers 200 with the reward of the task, after the upsert, [awardXP]
    of that reward and [updateStreak]; when the key (user, task, day) is
    unique the user then has exactly one row of today, completed. *)
Lemma complete_task_full_server (userId taskId : Z) (w : world) :
  let today := DATE (clock w) in
  (find_task taskId w = None ->
   post_api_tasks_complete userId taskId w =
   (Return (res_status_json 404 (Json_error "Task not found")), w)) /\
  (forall task row,
     find_task taskId w = Some task ->
     hd_error (task_rows userId taskId today w) = Some row ->
     completed row = true ->
     post_api_tasks_complete userId taskId w =
     (Return (res_status_json 400 (Json_error "Task already completed today")),
      w)) /\
  (forall task u,
     find_task taskId w = Some task ->
     find_user userId w = Some u ->
     match hd_error (task_rows userId taskId today w) with
     | Some row => completed row = false
     | None => True
     end ->
     let recorded :=
       upsert_user_task userId taskId (required_count task) w in
     let awarded := awardXP_world userId (xp_reward task) u recorded in
     post_api_tasks_complete userId taskId w =
     (Return (res_json (Json_success_xpEarned (xp_reward task))),
      run (updateStreak userId) awarded) /\
     find_user userId awarded = Some (awardXP_user (xp_reward task) u) /\
     outcome_of (updateStreak userId) awarded = Return tt /\
     ((List.length (task_rows userId taskId today w) <= 1)%nat ->
      exists r,
        task_rows userId taskId today (run (updateStreak userId) awarded)
        = [r] /\ completed r = true)).
Proof.
  intros today. split; [|split].
  - unfold find_task. intros Hnone.
    unfold post_api_tasks_complete, try_catch, bind, query.
    now destruct (filter _ (daily_tasks w)).
  - intros task row Htask Hrow Hdone.
    destruct (find_task_select _ _ _ Htask) as [ts Hts].
    unfold post_api_tasks_complete, try_catch, bind, query. rewrite Hts.
    unfold task_rows, today in Hrow.
    destruct (filter _ (user_tasks w)) as [|r rs]; [discriminate|].
    injection Hrow as ->. now rewrite Hdone.
  - intros task u Htask Hu Hrow recorded awarded.
    destruct (find_task_select _ _ _ Htask) as [ts Hts].
    assert (Hu1 : find_user userId recorded = Some u).
    { unfold recorded, upsert_user_task.
      now destruct (existsb _ (user_tasks w)). }
    pose proof (find_user_awardXP_world userId (xp_reward task) u recorded Hu1)
      as Hu2. fold awarded in Hu2.
    destruct (updateStreak_returns userId awarded _ Hu2) as (w' & Hstreak).
    assert (Hroute : post_api_tasks_complete userId taskId w =
              (Return (res_json (Json_success_xpEarned (xp_reward task))),
               run (updateStreak userId) awarded)).
    { unfold post_api_tasks_complete, try_catch, bind, query, exec, run.
      rewrite Hts. unfold task_rows, today in Hrow.
      destruct (filter _ (user_tasks w)) as [|r rs].
      - fold recorded. rewrite (awardXP_found _ _ _ _ Hu1). fold awarded.
        now rewrite Hstreak.
      - simpl in Hrow. rewrite Hrow.
        fold recorded. rewrite (awardXP_found _ _ _ _ Hu1). fold awarded.
        now rewrite Hstreak. }
    split; [exact Hroute|]. split; [exact Hu2|].
    split; [unfold outcome_of; now rewrite Hstreak|].
    intros Huniq.
    destruct (updateStreak_same_user_tasks userId awarded) as (Ht & Hc & _).
    unfold run, task_rows. rewrite Ht.
    assert (Hrec : user_tasks awarded = user_tasks recorded).
    { unfold awarded, awardXP_world.
      now destruct (surplus (xp u + xp_reward task) (calculateXPForLevel (level u + 1))). }
    rewrite Hrec.
    pose proof (task_rows_upsert userId taskId (required_count task) w) as Hup.
    fold today in Hup. fold recorded in Hup. unfold task_rows in Hup at 1.
    rewrite Hup.
    destruct (task_rows userId taskId today w) as [|r [|r2 rs]];
      simpl in Huniq; try lia.
    + now eexists.
    + now eexists.
Qed.

(** C7 on [server.js].  User 1 completes task 1 (80 xp) twice on day 1.
    The route of [server.js] answers the first request 200 and never
    touches the streak or [last_activity].  Where the store has no unique
    index on the key of [user_tasks], it answers the second request 200
    too, stores two completed rows for the day and credits 160 points;
    where the store has the index, the second INSERT is refused and the
    answer is 500.  Either way the second request is not answered 400.  The
    route of the full server sets the streak and answers the second request
    with 400, changing nothing. *)
Theorem server_js_completes_twice :
  let day1 := at_time 86400000 sample_world in
  let once index := ServerJs.tasks_complete index 1 1 day1 in
  let twice index := ServerJs.tasks_complete index 1 1 (snd (once index)) in
  let full_once := post_api_tasks_complete 1 1 day1 in
  (forall index,
     fst (once index) = Return (res_json (Json_success_xpEarned 80)) /\
     find_user 1 (snd (once index))
     = Some {| id := 1; whop_user_id := "user_abc"; level := 1; xp := 80;
               total_points := 80; streak := 0; last_activity := None;
               access_token := None; refresh_token := None;
               last_login := None |} /\
     exists r, fst (twice index) = Return r /\ status r <> 400) /\
  fst (twice No_unique_index) = Return (res_json (Json_success_xpEarned 80)) /\
  List.length (task_rows 1 1 (DATE 86400000) (snd (twice No_unique_index)))
  = 2%nat /\
  find_user 1 (snd (twice No_unique_index))
  = Some {| id := 1; whop_user_id := "user_abc"; level := 2; xp := 10;
            total_points := 160; streak := 0; last_activity := None;
            access_token := None; refresh_token := None;
            last_login := None |} /\
  fst (twice Unique_per_day)
  = Return (res_status_json 500 (Json_error "Failed to complete task")) /\
  List.length (task_rows 1 1 (DATE 86400000) (snd (twice Unique_per_day)))
  = 1%nat /\
  find_user 1 (snd (twice Unique_per_day))
  = find_user 1 (snd (once Unique_per_day)) /\
  fst full_once = Return (res_json (Json_success_xpEarned 80)) /\
  find_user 1 (snd full_once)
  = Some {| id := 1; whop_user_id := "user_abc"; level := 1; xp := 80;
            total_points := 80; streak := 1;
            last_activity := Some 86400000;
            access_token := None; refresh_token := None;
            last_login := None |} /\
  post_api_tasks_complete 1 1 (snd full_once)
  = (Return (res_status_json 400 (Json_error "Task already completed today")),
     snd full_once).
Proof.
  cbv zeta. split.
  - intros [|]; vm_compute; (split; [reflexivity|split; [reflexivity|]]);
      eexists; (split; [reflexivity | discriminate]).
  - vm_compute. repeat split; reflexivity.
Qed.

(** * Properties of the rest of the server *)

(** ** Nothing stored is lost *)

Lemma extends_refl {A} (l : list A) : extends l l.
Proof. exists []. now rewrite app_nil_r. Qed.

Lemma extends_trans {A} (a b c : list A) :
  extends a b -> extends b c -> extends a c.
Proof.
  intros [x ->] [y ->]. exists (x ++ y). now rewrite app_assoc.
Qed.

Lemma extends_app {A} (l more : list A) : extends l (l ++ more).
Proof. now exists more. Qed.

Lemma grows_in_place_refl (w : world) : grows_in_place w w.
Proof. unfold grows_in_place. repeat split; apply extends_refl. Qed.

Lemma grows_in_place_trans (a b c : world) :
  grows_in_place a b -> grows_in_place b c -> grows_in_place a c.
Proof.
  intros (A1 & A2 & A3 & A4 & A5 & A6 & A7) (B1 & B2 & B3 & B4 & B5 & B6 & B7).
  unfold grows_in_place.
  repeat split; try (eapply extends_trans; eassumption); congruence.
Qed.

Lemma map_user_key_update (userId : Z) (f : user -> user) (l : list user) :
  (forall u, user_key (f u) = user_key u) ->
  map user_key (map (fun u => if has_id userId u then f u else u) l)
  = map user_key l.
Proof.
  intros Hf. rewrite map_map. apply map_ext. intros u.
  now destruct (has_id userId u).
Qed.

Lemma update_user_grows_in_place (userId : Z) (f : user -> user) :
  (forall u, user_key (f u) = user_key u) ->
  preserves grows_in_place (exec (update_user userId f)).
Proof.
  intros Hf. apply preserves_exec. intros w. unfold grows_in_place. simpl.
  rewrite map_user_key_update by exact Hf.
  repeat split; apply extends_refl.
Qed.

(** A write that appends to one table and leaves the others alone. *)
Ltac appends_only :=
  apply preserves_exec; intros ?w; unfold grows_in_place; simpl;
  rewrite ?map_app;
  repeat split; first [apply extends_refl | apply extends_app].

Lemma logActivity_grows_in_place (userId : Z) (ty d : string) (x : Z) :
  preserves grows_in_place (logActivity userId ty d x).
Proof. unfold logActivity. appends_only. Qed.

Lemma awardXP_grows_in_place (userId a : Z) :
  preserves grows_in_place (awardXP userId a).
Proof.
  unfold awardXP. preservation grows_in_place_refl grows_in_place_trans.
  - apply logActivity_grows_in_place.
  - now apply update_user_grows_in_place.
Qed.

Lemma awardAchievement_grows_in_place (userId achievementId bonus : Z) :
  preserves grows_in_place (awardAchievement userId achievementId bonus).
Proof.
  unfold awardAchievement. preservation grows_in_place_refl grows_in_place_trans.
  - appends_only.
  - apply awardXP_grows_in_place.
  - apply logActivity_grows_in_place.
Qed.

Lemma updateStreak_grows_in_place (userId : Z) :
  preserves grows_in_place (updateStreak userId).
Proof.
  unfold updateStreak. preservation grows_in_place_refl grows_in_place_trans;
    try apply awardAchievement_grows_in_place.
  apply preserves_exec. intros w. unfold grows_in_place. simpl.
  rewrite map_user_key_update by reflexivity.
  repeat split; apply extends_refl.
Qed.

Lemma console_grows_in_place (line : string) :
  preserves grows_in_place (console_log line).
Proof. unfold console_log. appends_only. Qed.

Lemma upsert_grows_in_place (userId taskId p : Z) :
  preserves grows_in_place (exec (upsert_user_task userId taskId p)).
Proof.
  apply preserves_exec. intros w. unfold grows_in_place, upsert_user_task.
  destruct (existsb _ (user_tasks w)); simpl.
  - replace (map task_key (map _ (user_tasks w)))
      with (map task_key (user_tasks w)).
    + repeat split; apply extends_refl.
    + rewrite map_map. apply map_ext. intros r.
      now destruct (task_row_of userId taskId (DATE (clock w)) r).
  - rewrite map_app. repeat split; first [apply extends_refl | apply extends_app].
Qed.

Lemma post_webhooks_whop_grows_in_place (e : event) :
  preserves grows_in_place (post_webhooks_whop e).
Proof.
  unfold post_webhooks_whop, handleMessageCreated, handlePostCreated,
    handleReactionAdded, handleMemberJoined, getUserByWhopId, console_error,
    checkMessageAchievements, checkPostAchievements.
  preservation grows_in_place_refl grows_in_place_trans;
    first [ apply awardXP_grows_in_place
          | apply awardAchievement_grows_in_place
          | apply console_grows_in_place ].
Qed.

Lemma post_api_tasks_complete_grows_in_place (userId taskId : Z) :
  preserves grows_in_place (post_api_tasks_complete userId taskId).
Proof.
  unfold post_api_tasks_complete, console_error.
  preservation grows_in_place_refl grows_in_place_trans;
    first [ apply awardXP_grows_in_place
          | apply updateStreak_grows_in_place
          | apply upsert_grows_in_place
          | apply console_grows_in_place ].
Qed.

Lemma post_api_rewards_redeem_grows_in_place (userId rewardId : Z) :
  preserves grows_in_place (post_api_rewards_redeem userId rewardId).
Proof.
  unfold post_api_rewards_redeem, console_error.
  preservation grows_in_place_refl grows_in_place_trans;
    first [ now apply update_user_grows_in_place
          | apply console_grows_in_place
          | appends_only ].
Qed.

Lemma update_login_grows_in_place (login : whop_login) :
  preserves grows_in_place (exec (update_login login)).
Proof.
  apply preserves_exec. intros w. unfold grows_in_place, update_login. simpl.
  replace (map user_key (map _ (users w))) with (map user_key (users w)).
  - repeat split; apply extends_refl.
  - rewrite map_map. apply map_ext. intros u.
    now destruct (String.eqb (whop_user_id u) (login_id login)).
Qed.

Lemma get_auth_callback_grows_in_place (code : option string)
  (whopUser : option whop_login) (nextId : Z) :
  preserves grows_in_place (get_auth_callback code whopUser nextId).
Proof.
  unfold get_auth_callback, console_error.
  preservation grows_in_place_refl grows_in_place_trans;
    first [ apply awardAchievement_grows_in_place
          | apply console_grows_in_place
          | apply update_login_grows_in_place
          | appends_only ].
Qed.

Lemma server_js_grows_in_place (r : route) :
  match r with
  | Route_server_js_auth_callback _ _ | Route_server_js_tasks_complete _ _ _
  | Route_server_js_webhook _ => preserves grows_in_place (serve r)
  | _ => True
  end.
Proof.
  destruct r; try exact I; unfold serve, server_js_get_auth_callback,
    ServerJs.tasks_complete, insert_user_task, ServerJs.webhooks_whop,
    console_error;
    preservation grows_in_place_refl grows_in_place_trans;
    first [ apply awardXP_grows_in_place
          | apply console_grows_in_place
          | appends_only ].
Qed.

Lemma serve_grows_in_place (r : route) : preserves grows_in_place (serve r).
Proof.
  pose proof (server_js_grows_in_place r) as Hjs.
  destruct r; try exact Hjs; unfold serve;
    (apply (preserves_bind _ grows_in_place_trans);
     [|intros ?; apply (preserves_ret _ grows_in_place_refl)]).
  - apply get_auth_callback_grows_in_place.
  - apply post_api_tasks_complete_grows_in_place.
  - apply post_api_rewards_redeem_grows_in_place.
  - apply post_webhooks_whop_grows_in_place.
Qed.

Lemma serve_all_grows_in_place (requests : list (Z * route)) (w : world) :
  grows_in_place w (serve_all requests w).
Proof.
  revert w. induction requests as [|[t r] rest IH]; intros w; simpl.
  - apply grows_in_place_refl.
  - apply grows_in_place_trans with (run (serve r) (at_time t w)); [|apply IH].
    exact (serve_grows_in_place r (at_time t w)).
Qed.

Lemma extends_holds_all {A} (l l' : list A) : extends l l' -> holds_all l l'.
Proof. intros [more ->]. exists more. apply Permutation_refl. Qed.

(** X1.  No sequence of requests, to either copy of the server, deletes or
    rewrites an entry of the activity log, an unlock or a redemption,
    removes a row of [users] or [user_tasks] or changes its key, or touches
    the two catalogs.  Nothing is said of the order of the rows. *)
Theorem serve_all_never_loses (requests : list (Z * route)) (w : world) :
  never_loses w (serve_all requests w).
Proof.
  destruct (serve_all_grows_in_place requests w)
    as (H1 & H2 & H3 & H4 & H5 & H6 & H7).
  unfold never_loses.
  repeat split; try (apply extends_holds_all; assumption); assumption.
Qed.

(** ** Unlocks are permanent and single *)

Lemma unlocks_once_refl (w : world) : unlocks_once w w.
Proof. intros u a. lia. Qed.

Lemma unlocks_once_trans (a b c : world) :
  unlocks_once a b -> unlocks_once b c -> unlocks_once a c.
Proof.
  intros Hab Hbc u x. specialize (Hab u x). specialize (Hbc u x). lia.
Qed.

Lemma same_achievements_once (w w' : world) :
  user_achievements w' = user_achievements w -> unlocks_once w w'.
Proof. intros H u a. unfold unlock_count. rewrite H. lia. Qed.

(** A write that leaves [user_achievements] alone. *)
Ltac keeps_achievements :=
  apply preserves_exec; intros ?w; apply same_achievements_once; reflexivity.

Lemma awardXP_unlocks_once (userId a : Z) :
  preserves unlocks_once (awardXP userId a).
Proof.
  unfold awardXP, logActivity.
  preservation unlocks_once_refl unlocks_once_trans; keeps_achievements.
Qed.

Lemma unlock_count_unlock_world_other (userId achievementId u a : Z)
  (w : world) :
  unlock_count u a (unlock_world userId achievementId w)
  = (unlock_count u a w
     + if ((userId =? u) && (achievementId =? a))%Z then 1 else 0)%nat.
Proof.
  unfold unlock_count, unlock_world. simpl.
  rewrite filter_app, length_app. simpl. unfold unlocked at 2. simpl.
  now destruct ((userId =? u) && (achievementId =? a)).
Qed.

Lemma awardAchievement_unlocks_once (userId achievementId bonus : Z) :
  preserves unlocks_once (awardAchievement userId achievementId bonus).
Proof.
  intros w.
  destruct (unlock_count userId achievementId w) as [|n] eqn:Hc.
  - assert (Hins : unlocks_once w (unlock_world userId achievementId w)).
    { intros u a. rewrite unlock_count_unlock_world_other.
      destruct ((userId =? u) && (achievementId =? a)) eqn:Hsame; [|lia].
      apply andb_true_iff in Hsame. destruct Hsame as [Hu Ha].
      apply Z.eqb_eq in Hu, Ha. subst. rewrite Hc. simpl. lia. }
    destruct (find_user userId w) as [u0|] eqn:Hu.
    + rewrite (awardAchievement_new _ _ _ _ u0 Hu Hc). simpl snd.
      apply unlocks_once_trans with (unlock_world userId achievementId w);
        [exact Hins|].
      apply same_achievements_once. unfold achievement_world.
      change (user_achievements (with_activity_log ?f ?w0))
        with (user_achievements w0).
      apply user_achievements_awardXP_world.
    + destruct (awardAchievement_no_user _ achievementId bonus _ Hu Hc)
        as [e He].
      rewrite He. exact Hins.
  - rewrite awardAchievement_present by lia. apply unlocks_once_refl.
Qed.

Lemma updateStreak_unlocks_once (userId : Z) :
  preserves unlocks_once (updateStreak userId).
Proof.
  unfold updateStreak. preservation unlocks_once_refl unlocks_once_trans;
    first [apply awardAchievement_unlocks_once | keeps_achievements].
Qed.

Lemma upsert_unlocks_once (userId taskId p : Z) :
  preserves unlocks_once (exec (upsert_user_task userId taskId p)).
Proof.
  apply preserves_exec. intros w. apply same_achievements_once.
  unfold upsert_user_task. now destruct (existsb _ (user_tasks w)).
Qed.

Lemma serve_unlocks_once (r : route) : preserves unlocks_once (serve r).
Proof.
  destruct r; unfold serve, get_auth_callback, post_api_tasks_complete,
    post_api_rewards_redeem, post_webhooks_whop, server_js_get_auth_callback,
    ServerJs.tasks_complete, insert_user_task, ServerJs.webhooks_whop,
    handleMessageCreated, handlePostCreated, handleReactionAdded,
    handleMemberJoined, getUserByWhopId, checkMessageAchievements,
    checkPostAchievements, console_error, console_log;
    preservation unlocks_once_refl unlocks_once_trans;
    first [ apply awardXP_unlocks_once
          | apply awardAchievement_unlocks_once
          | apply updateStreak_unlocks_once
          | apply upsert_unlocks_once
          | keeps_achievements ].
Qed.

(** X2.  Across any sequence of requests the number of unlock rows of a (user,
    achievement) pair never drops, and it never grows beyond one row: a
    store that starts with at most one row for each pair keeps at most one
    row for each pair. *)
Theorem serve_all_unlocks_once (requests : list (Z * route)) (w : world) :
  unlocks_once w (serve_all requests w) /\
  ((forall userId achievementId,
      (unlock_count userId achievementId w <= 1)%nat) ->
   forall userId achievementId,
     (unlock_count userId achievementId (serve_all requests w) <= 1)%nat).
Proof.
  assert (H : forall requests w, unlocks_once w (serve_all requests w)).
  { clear. induction requests as [|[t r] rest IH]; intros w; simpl.
    - apply unlocks_once_refl.
    - apply unlocks_once_trans with (run (serve r) (at_time t w));
        [|apply IH].
      exact (serve_unlocks_once r (at_time t w)). }
  split; [apply H|].
  intros Hone u a. specialize (H requests w u a). specialize (Hone u a). lia.
Qed.

Lemma serve_all_unlocks_once_witness :
  let after :=
    serve_all
      [(5, Route_auth_callback (Some "c0de") (Some (login_of "user_new")) 2);
       (6, Route_auth_callback (Some "c0de") (Some (login_of "user_new")) 3)]
      sample_world in
  (unlock_count 2 1 after <= 1)%nat /\ (unlock_count 3 1 after <= 1)%nat.
Proof.
  intros after.
  destruct (serve_all_unlocks_once
              [(5, Route_auth_callback (Some "c0de") (Some (login_of "user_new")) 2);
               (6, Route_auth_callback (Some "c0de") (Some (login_of "user_new")) 3)]
              sample_world) as [_ H].
  split; apply H; intros u a; unfold unlock_count; simpl; lia.
Defined.

(** ** Levels and points only grow, redemption apart *)

Lemma keeps_try_catch (P : world -> world -> Prop) {A} (m : M A)
  (h : exn -> M A) (w : world) :
  (forall a b c, P a b -> P b c -> P a c) ->
  keeps P m w -> (forall e, preserves P (h e)) -> keeps P (try_catch m h) w.
Proof.
  intros Htrans Hm Hh. unfold keeps, try_catch in *.
  destruct (m w) as [[a|e] w1]; simpl in *.
  - exact Hm.
  - apply Htrans with w1; [exact Hm | apply Hh].
Qed.

Lemma keeps_bind_query (P : world -> world -> Prop) {A B} (q : world -> A)
  (k : A -> M B) (w : world) :
  keeps P (k (q w)) w -> keeps P (bind (query q) k) w.
Proof. intros H. exact H. Qed.

Lemma never_demotes_refl (w : world) : never_demotes w w.
Proof. intros uid u Hu. exists u. repeat split; [exact Hu | lia | lia]. Qed.

Lemma never_demotes_trans (a b c : world) :
  never_demotes a b -> never_demotes b c -> never_demotes a c.
Proof.
  intros Hab Hbc uid u Hu.
  destruct (Hab uid u Hu) as (u1 & Hu1 & Hl1 & Hp1).
  destruct (Hbc uid u1 Hu1) as (u2 & Hu2 & Hl2 & Hp2).
  exists u2. repeat split; [exact Hu2 | lia | lia].
Qed.

Lemma same_users_never_demotes (w w' : world) :
  users w' = users w -> never_demotes w w'.
Proof.
  intros H uid u Hu. exists u. unfold find_user, select_user in *.
  rewrite H. repeat split; [exact Hu | lia | lia].
Qed.

(** A write that leaves [users] alone. *)
Ltac keeps_users :=
  apply preserves_exec; intros ?w; apply same_users_never_demotes; reflexivity.

Lemma update_user_never_demotes (userId : Z) (f : user -> user) (w : world) :
  (forall u, id (f u) = id u) ->
  (forall u, find_user userId w = Some u ->
     level u <= level (f u) /\ total_points u <= total_points (f u)) ->
  never_demotes w (update_user userId f w).
Proof.
  intros Hid Hf uid u Hu. destruct (Z.eq_dec uid userId) as [->|Hne].
  - exists (f u). rewrite find_user_update, Hu by exact Hid.
    split; [reflexivity | now apply Hf].
  - exists u. unfold find_user. rewrite select_user_update_other by auto.
    repeat split; [exact Hu | lia | lia].
Qed.

Lemma awardXP_never_demotes (userId a : Z) :
  0 <= a -> preserves never_demotes (awardXP userId a).
Proof.
  intros Ha w. destruct (find_user userId w) as [u|] eqn:Hu.
  - rewrite (awardXP_found _ _ _ _ Hu). simpl snd. unfold awardXP_world.
    destruct (surplus (xp u + a) (calculateXPForLevel (level u + 1))).
    + eapply never_demotes_trans;
        [|apply update_user_never_demotes; [reflexivity|]].
      * apply same_users_never_demotes. reflexivity.
      * intros v Hv.
        change (find_user userId (with_activity_log ?g w))
          with (find_user userId w) in Hv.
        rewrite Hu in Hv. injection Hv as <-. simpl. lia.
    + apply update_user_never_demotes; [reflexivity|].
      intros v Hv. rewrite Hu in Hv. injection Hv as <-. simpl. lia.
  - destruct (awardXP_missing userId a w Hu) as [e He]. rewrite He.
    apply never_demotes_refl.
Qed.

Lemma awardAchievement_never_demotes (userId achievementId bonus : Z) :
  0 <= bonus ->
  preserves never_demotes (awardAchievement userId achievementId bonus).
Proof.
  intros Hb. unfold awardAchievement, logActivity.
  preservation never_demotes_refl never_demotes_trans;
    first [now apply awardXP_never_demotes | keeps_users].
Qed.

Lemma updateStreak_never_demotes (userId : Z) :
  preserves never_demotes (updateStreak userId).
Proof.
  unfold updateStreak. preservation never_demotes_refl never_demotes_trans;
    try (apply awardAchievement_never_demotes; lia).
  apply preserves_exec. intros w.
  apply update_user_never_demotes; [reflexivity|]. intros v _. simpl. lia.
Qed.

Lemma append_user_never_demotes (u0 : user) :
  preserves never_demotes (exec (with_users (fun l => l ++ [u0]))).
Proof.
  apply preserves_exec. intros w uid u Hu. exists u.
  unfold find_user, select_user in *. simpl. rewrite filter_app.
  destruct (filter (has_id uid) (users w)); [discriminate|].
  repeat split; [exact Hu | lia | lia].
Qed.

Lemma find_user_map (g : user -> user) (userId : Z) (w : world) :
  (forall u, id (g u) = id u) ->
  find_user userId (with_users (map g) w) = option_map g (find_user userId w).
Proof.
  intros Hg. unfold find_user, select_user. simpl.
  induction (users w) as [|u l IH]; simpl; [reflexivity|].
  change (has_id userId (g u)) with (id (g u) =? userId). rewrite Hg.
  change (id u =? userId) with (has_id userId u).
  destruct (has_id userId u); [reflexivity | exact IH].
Qed.

(** The UPDATE of a login rewrites the tokens and [last_login] of the rows
    of that Whop user and nothing else. *)
Lemma find_user_update_login (login : whop_login) (userId : Z) (w : world) :
  find_user userId (update_login login w)
  = option_map
      (fun u => if has_whop_id (Some (login_id login)) u
                then set_login (login_access_token login)
                       (login_refresh_token login) (clock w) u
                else u)
      (find_user userId w).
Proof.
  unfold update_login. apply find_user_map. intros u.
  now destruct (has_whop_id (Some (login_id login)) u).
Qed.

Lemma update_login_never_demotes (login : whop_login) :
  preserves never_demotes (exec (update_login login)).
Proof.
  apply preserves_exec. intros w uid u Hu.
  rewrite find_user_update_login, Hu. eexists. split; [reflexivity|].
  cbv beta. destruct (has_whop_id (Some (login_id login)) u); simpl; lia.
Qed.

Lemma upsert_never_demotes (userId taskId p : Z) :
  preserves never_demotes (exec (upsert_user_task userId taskId p)).
Proof.
  apply preserves_exec. intros w. apply same_users_never_demotes.
  unfold upsert_user_task. now destruct (existsb _ (user_tasks w)).
Qed.

Lemma find_task_nonneg (taskId : Z) (w : world) (task : daily_task)
  (rest : list daily_task) :
  (forall t, In t (daily_tasks w) -> 0 <= xp_reward t) ->
  filter (fun t => dt_id t =? taskId) (daily_tasks w) = task :: rest ->
  0 <= xp_reward task.
Proof.
  intros Hcat Hf. apply Hcat.
  assert (Hin : In task (filter (fun t => dt_id t =? taskId) (daily_tasks w)))
    by (rewrite Hf; now left).
  now apply filter_In in Hin.
Qed.

Lemma preserves_keeps (P : world -> world -> Prop) {A} (m : M A) (w : world) :
  preserves P m -> keeps P m w.
Proof. intros H. apply H. Qed.

Lemma post_api_tasks_complete_never_demotes (userId taskId : Z) (w : world) :
  (forall t, In t (daily_tasks w) -> 0 <= xp_reward t) ->
  keeps never_demotes (post_api_tasks_complete userId taskId) w.
Proof.
  intros Hcat. unfold post_api_tasks_complete, console_error.
  apply keeps_try_catch; [exact never_demotes_trans| |].
  - apply keeps_bind_query.
    destruct (filter _ (daily_tasks w)) as [|task rest] eqn:Hf.
    + apply never_demotes_refl.
    + pose proof (find_task_nonneg _ _ _ _ Hcat Hf) as Hnn.
      apply preserves_keeps.
      preservation never_demotes_refl never_demotes_trans;
        first [ now apply awardXP_never_demotes
              | apply updateStreak_never_demotes
              | apply upsert_never_demotes ].
  - intros e. preservation never_demotes_refl never_demotes_trans.
    keeps_users.
Qed.

Lemma server_js_tasks_complete_never_demotes (index : user_tasks_index)
  (userId taskId : Z) (w : world) :
  (forall t, In t (daily_tasks w) -> 0 <= xp_reward t) ->
  keeps never_demotes (ServerJs.tasks_complete index userId taskId) w.
Proof.
  intros Hcat.
  unfold ServerJs.tasks_complete, insert_user_task, console_error.
  apply keeps_try_catch; [exact never_demotes_trans| |].
  - apply keeps_bind_query.
    destruct (filter _ (daily_tasks w)) as [|task rest] eqn:Hf.
    + apply never_demotes_refl.
    + pose proof (find_task_nonneg _ _ _ _ Hcat Hf) as Hnn.
      apply preserves_keeps.
      preservation never_demotes_refl never_demotes_trans;
        first [ now apply awardXP_never_demotes | keeps_users ].
  - intros e. preservation never_demotes_refl never_demotes_trans.
    keeps_users.
Qed.

Lemma serve_never_demotes (r : route) (w : world) :
  (forall t, In t (daily_tasks w) -> 0 <= xp_reward t) ->
  is_redeem r = false ->
  never_demotes w (run (serve r) w).
Proof.
  intros Hcat Hr.
  assert (Hret : forall (m : M response),
            keeps never_demotes m w -> never_demotes w (run (m ;; ret tt) w)).
  { intros m Hm. unfold run, bind, keeps in *.
    now destruct (m w) as [[a|e] w1]. }
  assert (Hret' : forall (m : M auth_reply),
            keeps never_demotes m w -> never_demotes w (run (m ;; ret tt) w)).
  { intros m Hm. unfold run, bind, keeps in *.
    now destruct (m w) as [[a|e] w1]. }
  destruct r; try discriminate; unfold serve.
  - apply Hret'. apply preserves_keeps.
    unfold get_auth_callback, console_error.
    preservation never_demotes_refl never_demotes_trans;
      first [ apply awardAchievement_never_demotes; lia
            | apply append_user_never_demotes
            | apply update_login_never_demotes
            | keeps_users ].
  - apply Hret. now apply post_api_tasks_complete_never_demotes.
  - apply Hret. apply preserves_keeps.
    unfold post_webhooks_whop, handleMessageCreated, handlePostCreated,
      handleReactionAdded, handleMemberJoined, getUserByWhopId,
      checkMessageAchievements, checkPostAchievements, console_error,
      console_log.
    preservation never_demotes_refl never_demotes_trans;
      first [ apply awardXP_never_demotes; lia
            | apply awardAchievement_never_demotes; lia
            | keeps_users ].
  - apply Hret'. apply preserves_keeps.
    unfold server_js_get_auth_callback, console_error.
    preservation never_demotes_refl never_demotes_trans;
      first [ apply append_user_never_demotes | keeps_users ].
  - apply Hret. now apply server_js_tasks_complete_never_demotes.
  - apply Hret. apply preserves_keeps.
    unfold ServerJs.webhooks_whop, console_error, console_log.
    preservation never_demotes_refl never_demotes_trans; keeps_users.
Qed.

(** X3.  Redemption apart, no sequence of requests removes a user or lowers a
    user's level or points, as long as no task of the catalog has a
    negative reward. *)
Theorem serve_all_never_demotes (requests : list (Z * route)) (w : world) :
  (forall t, In t (daily_tasks w) -> 0 <= xp_reward t) ->
  forallb (fun q => negb (is_redeem (snd q))) requests = true ->
  never_demotes w (serve_all requests w).
Proof.
  revert w. induction requests as [|[t r] rest IH]; intros w Hcat Hno; simpl.
  - apply never_demotes_refl.
  - simpl in Hno. apply andb_true_iff in Hno. destruct Hno as [Hr Hrest].
    apply negb_true_iff in Hr.
    pose proof (serve_grows_in_place r (at_time t w)) as (_ & _ & _ & _ & _ & Hd & _).
    apply never_demotes_trans with (run (serve r) (at_time t w)).
    + apply (never_demotes_trans _ (at_time t w));
        [now apply same_users_never_demotes|].
      now apply serve_never_demotes.
    + apply IH; [|exact Hrest]. unfold run. rewrite Hd. exact Hcat.
Qed.

Lemma serve_all_never_demotes_witness :
  exists u',
    find_user 1 (serve_all
      [(86400000, Route_tasks_complete 1 1);
       (86400001, Route_webhook (message_event "user_abc"))] sample_world)
    = Some u' /\
    1 <= level u' /\ 0 <= total_points u'.
Proof.
  destruct (serve_all_never_demotes
              [(86400000, Route_tasks_complete 1 1);
               (86400001, Route_webhook (message_event "user_abc"))]
              sample_world) with (userId := 1) (u := new_user 1 "user_abc")
    as (u' & Hu' & Hl & Hp).
  - intros t [<-|[<-|[]]]; simpl; lia.
  - reflexivity.
  - reflexivity.
  - exists u'. simpl in Hl, Hp. auto.
Defined.

(** ** Deferred level-ups *)

Lemma calculateXPForLevel_at_least_150 (L : Z) :
  1 <= L -> number_le (Num 150) (calculateXPForLevel (L + 1)).
Proof.
  intros HL. pose proof (calculateXPForLevel_le 2 (L + 1) ltac:(lia)) as H.
  assert (H2 : calculateXPForLevel 2 = Num 150) by (vm_compute; reflexivity).
  now rewrite H2 in H.
Qed.

Lemma award_all_zero_catches_up (userId : Z) (n : nat) :
  forall (w : world) (u : user),
    find_user userId w = Some u ->
    1 <= level u -> 0 <= xp u ->
    xp u < 150 * Z.of_nat n \/ xp_below_next u ->
    exists u',
      find_user userId (award_all userId (repeat 0 n) w) = Some u' /\
      xp_below_next u' /\
      total_points u' = total_points u /\
      0 <= xp u' <= xp u /\ level u <= level u'.
Proof.
  induction n as [|n IH]; intros w u Hu Hl Hx Hcase.
  - destruct Hcase as [Hlt|Hinv]; [lia|].
    exists u. simpl. repeat split; auto; lia.
  - cbn [repeat award_all]. unfold run at 1.
    rewrite (awardXP_found _ _ _ _ Hu). simpl snd.
    pose proof (find_user_awardXP_world userId 0 u w Hu) as Hu1.
    pose proof (calculateXPForLevel_at_least_150 (level u) Hl) as H150.
    unfold awardXP_user in Hu1. unfold xp_below_next in Hcase.
    destruct (surplus (xp u + 0) (calculateXPForLevel (level u + 1)))
      as [rest|] eqn:Hcmp.
    + apply surplus_Some in Hcmp. destruct Hcmp as [Hn Hrest].
      rewrite Hn in H150, Hcase. simpl in H150, Hcase.
      destruct (IH _ _ Hu1) as (u' & Hf & Hinv & Hp & Hxx & Hll);
        cbn [level xp total_points set_progress] in *; try lia.
      exists u'. repeat split; auto; lia.
    + apply surplus_None in Hcmp.
      destruct (IH _ _ Hu1) as (u' & Hf & Hinv & Hp & Hxx & Hll);
        cbn [level xp total_points set_progress] in *; try lia.
      * right. unfold xp_below_next. cbn [level xp set_progress].
        exact Hcmp.
      * exists u'. repeat split; auto; lia.
Qed.

(** X5.  The level-ups that one large award leaves behind are made up by later
    awards, even of 0 xp: for a user of level at least 1 with [X >= 0] xp,
    [X / 150 + 1] awards of 0 bring the xp below the threshold of the next
    level; the points stay as they were and the level only rises. *)
Theorem awardXP_zero_catches_up (userId : Z) (w : world) (u : user) :
  find_user userId w = Some u ->
  1 <= level u -> 0 <= xp u ->
  exists u',
    find_user userId
      (award_all userId (repeat 0 (Z.to_nat (xp u / 150 + 1))) w) = Some u' /\
    xp_below_next u' /\
    total_points u' = total_points u /\
    0 <= xp u' <= xp u /\ level u <= level u'.
Proof.
  intros Hu Hl Hx. apply award_all_zero_catches_up; auto.
  left. rewrite Z2Nat.id by (pose proof (Z.div_pos (xp u) 150); lia).
  pose proof (Z.mul_succ_div_gt (xp u) 150). lia.
Qed.

Lemma awardXP_zero_catches_up_witness :
  exists u',
    find_user 1 (award_all 1 (repeat 0 6) (run (awardXP 1 1000) sample_world))
    = Some u' /\
    xp_below_next u' /\ total_points u' = 1000.
Proof.
  destruct (awardXP_zero_catches_up 1 (run (awardXP 1 1000) sample_world)
              (set_progress 850 2 1000 (new_user 1 "user_abc")))
    as (u' & Hf & Hinv & Hp & _).
  - vm_compute. reflexivity.
  - simpl. lia.
  - simpl. lia.
  - exists u'. repeat split; assumption.
Defined.

(** ** Streak updates less than a day apart *)

Lemma updateStreak_run (userId : Z) (w : world) (u : user) :
  find_user userId w = Some u ->
  updateStreak userId w = (Return tt, updateStreak_world userId u w).
Proof.
  intros Hu. rewrite (updateStreak_found _ _ _ Hu).
  pose proof (find_user_streak_world userId w u Hu) as Hu1.
  unfold updateStreak_world.
  destruct (newStreak_of (clock w) u =? 7) eqn:H7; simpl andb.
  - destruct (unlock_count userId 3 w) as [|n] eqn:Hc; simpl.
    + now apply awardAchievement_new.
    + assert (H30 : (newStreak_of (clock w) u =? 30) = false).
      { apply Z.eqb_eq in H7. rewrite H7. reflexivity. }
      rewrite H30. simpl. apply awardAchievement_present.
      change (unlock_count userId 3 (streak_world userId u w))
        with (unlock_count userId 3 w). lia.
  - destruct (newStreak_of (clock w) u =? 30) eqn:H30; simpl andb.
    + destruct (unlock_count userId 6 w) as [|n] eqn:Hc; simpl.
      * now apply awardAchievement_new.
      * apply awardAchievement_present.
        change (unlock_count userId 6 (streak_world userId u w))
          with (unlock_count userId 6 w). lia.
    + reflexivity.
Qed.

Lemma find_user_updateStreak_world (userId : Z) (w : world) (u : user) :
  find_user userId w = Some u ->
  exists u',
    find_user userId (updateStreak_world userId u w) = Some u' /\
    streak u' = newStreak_of (clock w) u /\
    last_activity u' = Some (clock w) /\
    total_points u <= total_points u'.
Proof.
  intros Hu. pose proof (find_user_streak_world userId w u Hu) as Hu1.
  unfold updateStreak_world.
  set (u1 := set_streak (Some (clock w)) (newStreak_of (clock w) u) u) in *.
  assert (Hnew : forall a bonus, 0 <= bonus -> exists u',
            find_user userId
              (achievement_world userId a bonus u1 (streak_world userId u w))
            = Some u' /\
            streak u' = newStreak_of (clock w) u /\
            last_activity u' = Some (clock w) /\
            total_points u <= total_points u').
  { intros a bonus Hb. exists (awardXP_user bonus u1).
    destruct (awardXP_user_fields bonus u1) as (_ & Hp & Hs & Hl).
    split; [now apply find_user_achievement_world|].
    rewrite Hs, Hl, Hp. simpl. repeat split. lia. }
  destruct (_ && _); [apply Hnew; lia|].
  destruct (_ && _); [apply Hnew; lia|].
  exists u1. repeat split; [exact Hu1 | simpl; lia].
Qed.

Lemma clock_updateStreak_world (userId : Z) (w : world) (u : user) :
  clock (updateStreak_world userId u w) = clock w.
Proof.
  unfold updateStreak_world, achievement_world.
  destruct (_ && _); [simpl; now rewrite clock_awardXP_world|].
  destruct (_ && _); [simpl; now rewrite clock_awardXP_world|].
  reflexivity.
Qed.

Lemma newStreak_of_within_a_day (now : Z) (u : user) (last : Z) :
  last_activity u = Some last ->
  now - last < msPerDay ->
  newStreak_of now u = streak u.
Proof.
  intros Hl Hgap. apply newStreak_of_cases. unfold daysDiff_of. rewrite Hl.
  assert (H : (now - last) / msPerDay < 1)
    by (apply Z.div_lt_upper_bound; [reflexivity | lia]).
  lia.
Qed.

(** X6.  A second [updateStreak] less than 24 hours after the first one only
    stamps [last_activity]: the streak is written back as it was and no
    achievement is looked at anew. *)
Theorem updateStreak_again_within_a_day (userId t : Z) (w : world) (u : user) :
  find_user userId w = Some u ->
  t - clock w < msPerDay ->
  let first := run (updateStreak userId) w in
  exists u1,
    find_user userId first = Some u1 /\
    updateStreak userId (at_time t first) =
    (Return tt,
     update_user userId (set_streak (Some t) (streak u1)) (at_time t first)).
Proof.
  intros Hu Hgap first.
  assert (Hfirst : first = updateStreak_world userId u w).
  { unfold first, run. now rewrite (updateStreak_run _ _ _ Hu). }
  destruct (find_user_updateStreak_world userId w u Hu)
    as (u1 & Hu1 & Hs & Hl & _).
  rewrite <- Hfirst in Hu1. exists u1. split; [exact Hu1|].
  assert (Hu1' : find_user userId (at_time t first) = Some u1) by exact Hu1.
  rewrite (updateStreak_run _ _ _ Hu1'). f_equal.
  assert (Hsame : newStreak_of t u1 = streak u1)
    by now apply (newStreak_of_within_a_day t u1 (clock w)).
  unfold updateStreak_world. cbn [clock at_time]. rewrite Hsame.
  assert (Hdone : forall a,
            streak u1 = (if a =? 3 then 7 else 30) -> (a = 3 \/ a = 6) ->
            (unlock_count userId a (at_time t first) =? 0)%nat = false).
  { intros a Hsa Ha. apply Nat.eqb_neq. rewrite unlock_count_at_time.
    pose proof (awardAchievement_unlocks userId a
                  (if a =? 3 then 500 else 1000)
                  (streak_world userId u w)) as Hun.
    assert (Hw : run (awardAchievement userId a (if a =? 3 then 500 else 1000))
                   (streak_world userId u w) = first).
    { unfold first, run. rewrite (updateStreak_found _ _ _ Hu).
      rewrite <- Hs, Hsa. destruct Ha as [-> | ->]; reflexivity. }
    rewrite Hw in Hun. lia. }
  assert (Hsw : streak_world userId u1 (at_time t first)
                = update_user userId (set_streak (Some t) (streak u1))
                    (at_time t first)).
  { unfold streak_world. cbn [clock at_time]. now rewrite Hsame. }
  destruct (streak u1 =? 7) eqn:H7.
  - apply Z.eqb_eq in H7. rewrite (Hdone 3) by (auto; rewrite H7; reflexivity).
    replace (streak u1 =? 30) with false by (rewrite H7; reflexivity).
    simpl andb. cbv iota. exact Hsw.
  - simpl andb. cbv iota. destruct (streak u1 =? 30) eqn:H30.
    + apply Z.eqb_eq in H30.
      rewrite (Hdone 6) by (auto; rewrite H30; reflexivity).
      simpl andb. cbv iota. exact Hsw.
    + simpl andb. cbv iota. exact Hsw.
Qed.

Lemma updateStreak_again_within_a_day_witness :
  exists u1,
    find_user 1 (run (updateStreak 1) sixth_day_world) = Some u1 /\
    streak u1 = 7 /\
    updateStreak 1 (at_time 90000001 (run (updateStreak 1) sixth_day_world)) =
    (Return tt,
     update_user 1 (set_streak (Some 90000001) (streak u1))
       (at_time 90000001 (run (updateStreak 1) sixth_day_world))).
Proof.
  destruct (updateStreak_again_within_a_day 1 90000001 sixth_day_world
              (set_streak (Some 0) 6 (new_user 1 "user_abc")))
    as (u1 & Hu1 & Hrun).
  - reflexivity.
  - vm_compute. reflexivity.
  - exists u1. split; [exact Hu1|]. split; [|exact Hrun].
    assert (H : option_map streak
                  (find_user 1 (run (updateStreak 1) sixth_day_world))
                = Some 7) by (vm_compute; reflexivity).
    rewrite Hu1 in H. now injection H.
Defined.

Lemma updateStreak_at_within_a_day (userId : Z) (times : list Z) :
  forall (w : world) (u : user) (last : Z),
    find_user userId w = Some u ->
    last_activity u = Some last ->
    within_a_day last times ->
    exists u',
      find_user userId (updateStreak_at userId times w) = Some u' /\
      streak u' = streak u /\
      total_points u <= total_points u'.
Proof.
  induction times as [|t rest IH]; intros w u last Hu Hl Hchain.
  - exists u. repeat split; [exact Hu | lia].
  - destruct Hchain as [Hgap Hrest]. cbn [updateStreak_at].
    assert (Hu0 : find_user userId (at_time t w) = Some u) by exact Hu.
    unfold run. rewrite (updateStreak_run _ _ _ Hu0). simpl snd.
    destruct (find_user_updateStreak_world userId (at_time t w) u Hu0)
      as (u1 & Hu1 & Hs & Hl1 & Hp).
    cbn [clock at_time] in Hs, Hl1.
    rewrite (newStreak_of_within_a_day t u last Hl Hgap) in Hs.
    destruct (IH _ u1 t Hu1 Hl1 Hrest) as (u' & Hu' & Hs' & Hp').
    exists u'. repeat split; [exact Hu' | congruence | lia].
Qed.

(** X7.  A streak only moves when two consecutive updates are at least 24 hours
    apart: along any sequence of [updateStreak] calls, the first less than
    24 hours after [last_activity] and each next one less than 24 hours
    after the one before, the streak keeps its value, however many
    calendar days the sequence spans. *)
Theorem updateStreak_never_moves_within_a_day (userId : Z) (times : list Z)
  (w : world) (u : user) (last : Z) :
  find_user userId w = Some u ->
  last_activity u = Some last ->
  within_a_day last times ->
  exists u',
    find_user userId (updateStreak_at userId times w) = Some u' /\
    streak u' = streak u.
Proof.
  intros Hu Hl Hchain.
  destruct (updateStreak_at_within_a_day userId times w u last Hu Hl Hchain)
    as (u' & Hu' & Hs & _).
  now exists u'.
Qed.

Lemma updateStreak_never_moves_within_a_day_witness :
  exists u',
    find_user 1
      (updateStreak_at 1 [165600000; 248400000; 331200000]
         late_evening_world) = Some u' /\
    streak u' = 3.
Proof.
  destruct (updateStreak_never_moves_within_a_day 1
              [165600000; 248400000; 331200000] late_evening_world
              (set_streak (Some 82800000) 3 (new_user 1 "user_abc"))
              82800000)
    as (u' & Hu' & Hs).
  - reflexivity.
  - reflexivity.
  - simpl. unfold msPerDay. lia.
  - exists u'. split; [exact Hu'|]. exact Hs.
Defined.

(** ** How often a reward can be redeemed *)

Lemma find_reward_redeem_world (userId rewardId rid : Z) (r : reward)
  (w : world) :
  find_reward rid (redeem_world userId rewardId r w) = find_reward rid w.
Proof. reflexivity. Qed.

(** X8.  A user with [P >= 0] points redeems a reward of cost [C > 0] exactly
    [P / C] times: of [n] requests in a row the first [min n (P / C)] are
    answered 200, all later ones 400, and [P - C * min n (P / C)] points
    are left. *)
Theorem redeem_times_capacity (userId rewardId : Z) (n : nat) :
  forall (w : world) (u : user) (r : reward),
    find_user userId w = Some u ->
    find_reward rewardId w = Some r ->
    0 < cost r -> 0 <= total_points u ->
    let k := Nat.min n (Z.to_nat (total_points u / cost r)) in
    fst (redeem_times userId rewardId n w)
    = repeat redeemed_ok k ++ repeat redeemed_short (n - k) /\
    option_map total_points
      (find_user userId (snd (redeem_times userId rewardId n w)))
    = Some (total_points u - cost r * Z.of_nat k) /\
    redemption_count userId rewardId (snd (redeem_times userId rewardId n w))
    = (redemption_count userId rewardId w + k)%nat.
Proof.
  induction n as [|n IH]; intros w u r Hu Hr Hc Hp k.
  - simpl. rewrite Hu. simpl. repeat split; [f_equal; lia | lia].
  - cbn [redeem_times].
    destruct (Z_le_gt_dec (cost r) (total_points u)) as [Hle|Hgt].
    + rewrite (redeem_enough _ _ _ u r Hu Hr Hle).
      pose proof (find_user_redeem_world userId rewardId w u r Hu) as Hu1.
      pose proof (redemption_count_redeem_world userId rewardId w r) as Hn1.
      assert (Hr1 : find_reward rewardId (redeem_world userId rewardId r w)
                    = Some r) by exact Hr.
      specialize (IH _ _ r Hu1 Hr1 Hc). cbv zeta in IH.
      cbn [total_points set_total_points] in IH.
      destruct IH as (Hres & Hpts & Hcnt); [lia|].
      destruct (redeem_times userId rewardId n
                  (redeem_world userId rewardId r w)) as [rs w2].
      cbn [fst snd] in *.
      assert (Hq : total_points u / cost r
                   = (total_points u - cost r) / cost r + 1).
      { replace (total_points u)
          with ((total_points u - cost r) + 1 * cost r) at 1 by lia.
        rewrite Z.div_add by lia. reflexivity. }
      assert (Hq0 : 0 <= (total_points u - cost r) / cost r)
        by (apply Z.div_pos; lia).
      assert (Hk : k = S (Nat.min n
                     (Z.to_nat ((total_points u - cost r) / cost r)))).
      { unfold k. rewrite Hq, Z2Nat.inj_add by lia. simpl Z.to_nat.
        rewrite Nat.add_1_r. reflexivity. }
      rewrite Hk. cbn [repeat app Nat.sub]. rewrite Hres, Hpts, Hcnt, Hn1.
      repeat split; [f_equal; lia | lia].
    + rewrite (redeem_short _ _ _ u r Hu Hr) by lia.
      specialize (IH _ _ r Hu Hr Hc Hp). cbv zeta in IH.
      destruct IH as (Hres & Hpts & Hcnt).
      destruct (redeem_times userId rewardId n w) as [rs w2].
      cbn [fst snd] in *.
      assert (Hq : total_points u / cost r = 0)
        by (apply Z.div_small; lia).
      unfold k. rewrite Hq in *. simpl Z.to_nat in *.
      rewrite Nat.min_0_r in *. cbn [repeat app] in *.
      rewrite Nat.sub_0_r in *. cbn [repeat]. rewrite Hres, Hpts, Hcnt.
      repeat split.
Qed.

Lemma redeem_times_capacity_witness :
  let w := run (awardXP 1 1200) sample_world in
  fst (redeem_times 1 1 4 w)
  = [redeemed_ok; redeemed_ok; redeemed_short; redeemed_short] /\
  option_map total_points (find_user 1 (snd (redeem_times 1 1 4 w)))
  = Some 200.
Proof.
  intros w.
  destruct (redeem_times_capacity 1 1 4 w
              (set_progress 1050 2 1200 (new_user 1 "user_abc"))
              {| rw_id := 1; cost := 500; rw_active := true |})
    as (Hres & Hpts & _).
  - vm_compute. reflexivity.
  - vm_compute. reflexivity.
  - simpl. lia.
  - simpl. lia.
  - split; [exact Hres | exact Hpts].
Defined.

(** ** Task completion on [server.js] *)

Lemma existsb_filter {A} (f : A -> bool) (l : list A) :
  existsb f l = match filter f l with [] => false | _ => true end.
Proof.
  induction l as [|x l IH]; simpl; [reflexivity|].
  destruct (f x); simpl; [reflexivity | exact IH].
Qed.

Lemma server_js_complete_found (index : user_tasks_index) (userId taskId : Z)
  (w : world) (task : daily_task) (u : user) :
  find_task taskId w = Some task ->
  find_user userId w = Some u ->
  (index = Unique_per_day ->
   task_rows userId taskId (DATE (clock w)) w = []) ->
  ServerJs.tasks_complete index userId taskId w =
  (Return (res_json (Json_success_xpEarned (xp_reward task))),
   server_js_complete_world userId taskId task u w).
Proof.
  intros Htask Hu Hfree. destruct (find_task_select _ _ _ Htask) as [ts Hts].
  unfold ServerJs.tasks_complete, insert_user_task, try_catch, bind, query,
    exec.
  rewrite Hts. destruct index.
  - rewrite existsb_filter. unfold task_rows in Hfree.
    rewrite (Hfree eq_refl).
    rewrite (awardXP_found userId (xp_reward task) _ u) by exact Hu.
    reflexivity.
  - rewrite (awardXP_found userId (xp_reward task) _ u) by exact Hu.
    reflexivity.
Qed.

(** Under the unique index a second INSERT for the day is refused: the
    route answers 500 and writes one console line. *)
Lemma server_js_complete_refused (userId taskId : Z) (w : world)
  (task : daily_task) :
  find_task taskId w = Some task ->
  task_rows userId taskId (DATE (clock w)) w <> [] ->
  ServerJs.tasks_complete Unique_per_day userId taskId w =
  (Return (res_status_json 500 (Json_error "Failed to complete task")),
   with_console (fun c => c ++ ["Error completing task:"]) w).
Proof.
  intros Htask Hrows. destruct (find_task_select _ _ _ Htask) as [ts Hts].
  unfold ServerJs.tasks_complete, insert_user_task, try_catch, bind, query,
    exec, throw, console_error, ret.
  rewrite Hts, existsb_filter. unfold task_rows in Hrows.
  destruct (filter _ (user_tasks w)); [congruence | reflexivity].
Qed.

Lemma server_js_complete_times_refused (userId taskId : Z) (n : nat) :
  forall (w : world) (task : daily_task),
    find_task taskId w = Some task ->
    task_rows userId taskId (DATE (clock w)) w <> [] ->
    server_js_complete_times Unique_per_day userId taskId n w =
    (repeat (Return (res_status_json 500
                       (Json_error "Failed to complete task"))) n,
     Nat.iter n (with_console (fun c => c ++ ["Error completing task:"])) w).
Proof.
  induction n as [|n IH]; intros w task Htask Hrows; [reflexivity|].
  cbn [server_js_complete_times].
  rewrite (server_js_complete_refused _ _ _ _ Htask Hrows).
  rewrite (IH _ task) by assumption.
  cbn [repeat]. f_equal. apply Nat.iter_swap.
Qed.

Lemma iter_console_facts (n : nat) (line : string) (w : world) :
  let w' := Nat.iter n (with_console (fun c => c ++ [line])) w in
  users w' = users w /\ user_tasks w' = user_tasks w /\
  user_achievements w' = user_achievements w /\
  activity_log w' = activity_log w /\ clock w' = clock w.
Proof.
  induction n as [|n IH]; [now repeat split|].
  cbn [Nat.iter]. destruct IH as (H1 & H2 & H3 & H4 & H5).
  now repeat split.
Qed.

Lemma server_js_complete_world_facts (userId taskId : Z) (task : daily_task)
  (u : user) (w : world) :
  find_user userId w = Some u ->
  let w' := server_js_complete_world userId taskId task u w in
  find_user userId w' = Some (awardXP_user (xp_reward task) u) /\
  find_task taskId w' = find_task taskId w /\
  clock w' = clock w /\
  task_rows userId taskId (DATE (clock w)) w'
  = task_rows userId taskId (DATE (clock w)) w
    ++ [new_user_task userId taskId (required_count task) (clock w)].
Proof.
  intros Hu w'. unfold w', server_js_complete_world.
  split; [now apply find_user_awardXP_world|].
  unfold find_task, task_rows, awardXP_world.
  destruct (surplus (xp u + xp_reward task) (calculateXPForLevel (level u + 1)));
    simpl; rewrite filter_app; simpl; unfold task_row_of at 2; simpl;
    rewrite !Z.eqb_refl; simpl; repeat split.
Qed.



(** ** Errors of the routes *)

(** X13.  An event of one of the three handled types without a [data] object
    makes the handler throw: the route answers 500 and writes one console
    line, nothing else.  member.joined needs no [data]. *)
Theorem webhook_without_data (e : event) (w : world) :
  data e = None ->
  (type e = "message.created" \/ type e = "post.created" \/
   type e = "reaction.added" ->
   post_webhooks_whop e w =
   (Return (res_status_json 500 (Json_error "Webhook processing failed")),
    with_console (fun c => c ++ ["Webhook error:"]) w)) /\
  (type e = "member.joined" ->
   post_webhooks_whop e w = (Return (res_json Json_success), w)).
Proof.
  intros Hd. split.
  - intros [Hty|[Hty|Hty]];
      [ rewrite (switch_message e Hty)
      | rewrite (switch_post e Hty)
      | rewrite (switch_reaction e Hty) ];
      now rewrite Hd.
  - intros Hty. now rewrite (switch_member e Hty).
Qed.

Lemma webhook_without_data_witness :
  post_webhooks_whop {| type := "post.created"; data := None |} sample_world =
  (Return (res_status_json 500 (Json_error "Webhook processing failed")),
   with_console (fun c => c ++ ["Webhook error:"]) sample_world).
Proof.
  destruct (webhook_without_data {| type := "post.created"; data := None |}
              sample_world) as [H _].
  - reflexivity.
  - apply H. right. left. reflexivity.
Defined.

(** X9.  Redemption of a reward that is absent or not active is answered 404,
    whatever the points of the user, and for a token whose user has no
    row it is answered 500; neither changes the store. *)
Theorem redeem_errors (userId rewardId : Z) (w : world) :
  (find_reward rewardId w = None ->
   post_api_rewards_redeem userId rewardId w =
   (Return (res_status_json 404 (Json_error "Reward not found")), w)) /\
  (forall r,
     find_reward rewardId w = Some r ->
     find_user userId w = None ->
     post_api_rewards_redeem userId rewardId w =
     (Return (res_status_json 500 (Json_error "Failed to redeem reward")),
      with_console (fun c => c ++ ["Error redeeming reward:"]) w)).
Proof.
  split.
  - unfold find_reward. intros Hnone.
    unfold post_api_rewards_redeem, try_catch, bind, query.
    now destruct (filter _ (rewards w)).
  - intros r Hr Hu. destruct (find_reward_select _ _ _ Hr) as [rs Hrs].
    apply find_user_none in Hu.
    unfold post_api_rewards_redeem, try_catch, bind, query.
    now rewrite Hrs, Hu.
Qed.

Lemma redeem_errors_witness :
  post_api_rewards_redeem 1 7 sample_world =
  (Return (res_status_json 404 (Json_error "Reward not found")), sample_world)
  /\
  post_api_rewards_redeem 9 1 sample_world =
  (Return (res_status_json 500 (Json_error "Failed to redeem reward")),
   with_console (fun c => c ++ ["Error redeeming reward:"]) sample_world).
Proof.
  split.
  - apply (redeem_errors 1 7 sample_world). reflexivity.
  - apply (proj2 (redeem_errors 9 1 sample_world)
             {| rw_id := 1; cost := 500; rw_active := true |}); reflexivity.
Defined.

(** ** Task completion on the full server *)

(** X10.  On the full server a task pays once a day: after a completion that was
    answered 200, any further request of the same user for the same task
    on the same calendar day is answered 400 and changes nothing.  The
    key (user, task, day) is taken to be unique before the first request. *)
Theorem complete_task_once_a_day (userId taskId t2 : Z) (w : world)
  (task : daily_task) (u : user) :
  find_task taskId w = Some task ->
  find_user userId w = Some u ->
  (List.length (task_rows userId taskId (DATE (clock w)) w) <= 1)%nat ->
  match hd_error (task_rows userId taskId (DATE (clock w)) w) with
  | Some row => completed row = false
  | None => True
  end ->
  DATE t2 = DATE (clock w) ->
  let first := post_api_tasks_complete userId taskId w in
  fst first = Return (res_json (Json_success_xpEarned (xp_reward task))) /\
  post_api_tasks_complete userId taskId (at_time t2 (snd first)) =
  (Return (res_status_json 400 (Json_error "Task already completed today")),
   at_time t2 (snd first)).
Proof.
  intros Htask Hu Huniq Hrow Hday first.
  destruct (complete_task_full_server userId taskId w) as (_ & _ & Hok).
  destruct (Hok task u Htask Hu Hrow) as (Hroute & _ & _ & Hrows).
  destruct (Hrows Huniq) as (r & Hr & Hdone).
  unfold first. rewrite Hroute. cbn [fst snd]. split; [reflexivity|].
  set (w' := run (updateStreak userId)
               (awardXP_world userId (xp_reward task) u
                  (upsert_user_task userId taskId (required_count task) w)))
    in *.
  destruct (complete_task_full_server userId taskId (at_time t2 w'))
    as (_ & Hagain & _).
  apply (Hagain task r).
  - pose proof (post_api_tasks_complete_grows_in_place userId taskId w)
      as (_ & _ & _ & _ & _ & Hd & _).
    rewrite Hroute in Hd. cbn [snd] in Hd. fold w' in Hd.
    unfold find_task in *. cbn [daily_tasks at_time]. now rewrite Hd.
  - cbn [clock at_time]. rewrite Hday.
    change (task_rows userId taskId (DATE (clock w)) (at_time t2 w'))
      with (task_rows userId taskId (DATE (clock w)) w').
    now rewrite Hr.
  - exact Hdone.
Qed.

Lemma complete_task_once_a_day_witness :
  let first := post_api_tasks_complete 1 2 (at_time 86400000 sample_world) in
  fst first = Return (res_json (Json_success_xpEarned 10)) /\
  post_api_tasks_complete 1 2 (at_time 172799999 (snd first)) =
  (Return (res_status_json 400 (Json_error "Task already completed today")),
   at_time 172799999 (snd first)).
Proof.
  apply (complete_task_once_a_day 1 2 172799999 (at_time 86400000 sample_world)
           {| dt_id := 2; required_count := 3; xp_reward := 10;
              dt_active := true |} (new_user 1 "user_abc")).
  - reflexivity.
  - reflexivity.
  - simpl. lia.
  - exact I.
  - reflexivity.
Defined.

(** X11.  Nothing is rolled back: when the user of the token has no row, the
    full server answers 500 at [awardXP], yet the completion row written
    before stays, so that the same request sent again is answered 400. *)
Theorem complete_task_missing_user (userId taskId : Z) (w : world)
  (task : daily_task) :
  find_task taskId w = Some task ->
  find_user userId w = None ->
  task_rows userId taskId (DATE (clock w)) w = [] ->
  let failed :=
    with_console (fun c => c ++ ["Error completing task:"])
      (upsert_user_task userId taskId (required_count task) w) in
  post_api_tasks_complete userId taskId w =
  (Return (res_status_json 500 (Json_error "Failed to complete task")),
   failed) /\
  task_rows userId taskId (DATE (clock w)) failed
  = [new_user_task userId taskId (required_count task) (clock w)] /\
  post_api_tasks_complete userId taskId failed =
  (Return (res_status_json 400 (Json_error "Task already completed today")),
   failed).
Proof.
  intros Htask Hu Hrows failed.
  destruct (find_task_select _ _ _ Htask) as [ts Hts].
  pose proof (task_rows_upsert userId taskId (required_count task) w) as Hup.
  rewrite Hrows in Hup.
  assert (Hfr : task_rows userId taskId (DATE (clock w)) failed
                = [new_user_task userId taskId (required_count task) (clock w)])
    by exact Hup.
  split; [|split; [exact Hfr|]].
  - unfold post_api_tasks_complete, try_catch, bind, query, exec.
    rewrite Hts. unfold task_rows in Hrows. rewrite Hrows.
    assert (Hu1 : find_user userId
                    (upsert_user_task userId taskId (required_count task) w)
                  = None).
    { unfold upsert_user_task. now destruct (existsb _ (user_tasks w)). }
    destruct (awardXP_missing userId (xp_reward task) _ Hu1) as [e He].
    now rewrite He.
  - destruct (complete_task_full_server userId taskId failed)
      as (_ & Hagain & _).
    apply (Hagain task
             (new_user_task userId taskId (required_count task) (clock w))).
    + unfold failed, find_task, upsert_user_task in *.
      now destruct (existsb _ (user_tasks w)).
    + assert (Hc : clock failed = clock w).
      { unfold failed, upsert_user_task.
        now destruct (existsb _ (user_tasks w)). }
      rewrite Hc, Hfr. reflexivity.
    + reflexivity.
Qed.

Lemma complete_task_missing_user_witness :
  exists failed,
    post_api_tasks_complete 9 1 sample_world =
    (Return (res_status_json 500 (Json_error "Failed to complete task")),
     failed) /\
    List.length (task_rows 9 1 0 failed) = 1%nat.
Proof.
  destruct (complete_task_missing_user 9 1 sample_world
              {| dt_id := 1; required_count := 1; xp_reward := 80;
                 dt_active := true |})
    as (Hrun & Hrows & _).
  - reflexivity.
  - reflexivity.
  - reflexivity.
  - eexists. split; [exact Hrun|]. change (DATE (clock sample_world)) with 0 in Hrows.
    now rewrite Hrows.
Defined.

(** ** OAuth callback *)

Lemma map_if_has_id_absent (userId : Z) (f : user -> user) (l : list user) :
  filter (has_id userId) l = [] ->
  map (fun u => if has_id userId u then f u else u) l = l.
Proof.
  induction l as [|u l IH]; simpl; [reflexivity|].
  destruct (has_id userId u); [discriminate|].
  intros H. now rewrite IH.
Qed.

Lemma filter_whop_absent (whopId : string) (l : list user) :
  (forall u, In u l -> whop_user_id u <> whopId) ->
  filter (has_whop_id (Some whopId)) l = [].
Proof.
  induction l as [|u l IH]; intros Hno; simpl; [reflexivity|].
  assert (Hu : (whop_user_id u =? whopId)%string = false)
    by (apply String.eqb_neq, Hno; now left).
  rewrite Hu. apply IH. intros v Hv. apply Hno. now right.
Qed.

(** X14.  Without a [code] the callback answers 400, and when the identity
    provider fails it answers 500; neither touches the store. *)
Theorem auth_callback_errors (code : option string)
  (whopUser : option whop_login) (nextId : Z) (w : world) :
  (code_missing code = true ->
   get_auth_callback code whopUser nextId w =
   (Return (Auth_json
      (res_status_json 400 (Json_error "Authorization code missing"))), w) /\
   server_js_get_auth_callback code nextId w =
   (Return (Auth_json
      (res_status_json 400 (Json_error "Authorization code missing"))), w)) /\
  (code_missing code = false -> whopUser = None ->
   get_auth_callback code whopUser nextId w =
   (Return (Auth_json
      (res_status_json 500 (Json_error "Authentication failed"))),
    with_console (fun c => c ++ ["OAuth error:"]) w)).
Proof.
  split.
  - intros Hc. unfold get_auth_callback, server_js_get_auth_callback.
    now rewrite Hc.
  - intros Hc ->. unfold get_auth_callback. now rewrite Hc.
Qed.

Lemma auth_callback_errors_witness :
  get_auth_callback (Some "") (Some (login_of "user_abc")) 2 sample_world =
  (Return (Auth_json
     (res_status_json 400 (Json_error "Authorization code missing"))),
   sample_world) /\
  get_auth_callback (Some "c0de") None 2 sample_world =
  (Return (Auth_json
     (res_status_json 500 (Json_error "Authentication failed"))),
   with_console (fun c => c ++ ["OAuth error:"]) sample_world).
Proof.
  split.
  - apply (auth_callback_errors (Some "") (Some (login_of "user_abc")) 2
             sample_world).
    reflexivity.
  - apply (auth_callback_errors (Some "c0de") None 2 sample_world);
      reflexivity.
Defined.

Lemma first_login_world (login : whop_login) (nextId : Z) (w : world) :
  (forall u, In u (users w) -> whop_user_id u <> login_id login) ->
  (forall u, In u (users w) -> id u <> nextId) ->
  unlock_count nextId 1 w = 0%nat ->
  forall code, code_missing code = false ->
  get_auth_callback code (Some login) nextId w =
  (Return (Auth_redirect nextId (login_id login)),
   achievement_world nextId 1 100 (new_whop_user nextId login)
     (with_users (fun l => l ++ [new_whop_user nextId login]) w)) /\
  filter (has_id nextId) (users w) = [].
Proof.
  intros Hwhop Hid Hc code Hcode.
  assert (Hnone : filter (has_id nextId) (users w) = []).
  { clear - Hid. induction (users w) as [|u l IH]; simpl; [reflexivity|].
    assert (Hu : has_id nextId u = false)
      by (apply Z.eqb_neq, Hid; now left).
    rewrite Hu. apply IH. intros v Hv. apply Hid. now right. }
  split; [|exact Hnone].
  unfold get_auth_callback, try_catch, bind, query, exec. rewrite Hcode.
  rewrite (filter_whop_absent (login_id login) (users w) Hwhop).
  rewrite (awardAchievement_new nextId 1 100 _ (new_whop_user nextId login)).
  - reflexivity.
  - unfold find_user, select_user. simpl. rewrite filter_app, Hnone. simpl.
    unfold has_id. simpl. now rewrite Z.eqb_refl.
  - exact Hc.
Qed.

Lemma first_login_rows (code : option string) (login : whop_login)
  (nextId : Z) (w : world) :
  code_missing code = false ->
  (forall u, In u (users w) -> whop_user_id u <> login_id login) ->
  (forall u, In u (users w) -> id u <> nextId) ->
  unlock_count nextId 1 w = 0%nat ->
  exists w',
    get_auth_callback code (Some login) nextId w =
      (Return (Auth_redirect nextId (login_id login)), w') /\
    users w' = users w ++ [first_steps_user nextId login] /\
    user_achievements w' = user_achievements w ++
      [{| ua_user_id := nextId; achievement_id := 1;
          unlocked_at := clock w |}] /\
    activity_log w' = activity_log w ++
      [{| al_user_id := nextId; activity_type := "achievement";
          description := "Unlocked achievement"; xp_earned := 100;
          al_created_at := clock w |}] /\
    clock w' = clock w.
Proof.
  intros Hcode Hwhop Hid Hc.
  destruct (first_login_world login nextId w Hwhop Hid Hc code Hcode)
    as [Hrun Hnone].
  eexists. split; [exact Hrun|].
  assert (Hno : surplus (0 + 100) (calculateXPForLevel (1 + 1)) = None)
    by (vm_compute; reflexivity).
  unfold achievement_world, awardXP_world, unlock_world.
  change (surplus (xp (new_whop_user nextId login) + 100)
            (calculateXPForLevel (level (new_whop_user nextId login) + 1)))
    with (surplus (0 + 100) (calculateXPForLevel (1 + 1))).
  rewrite Hno.
  simpl. rewrite map_app, (map_if_has_id_absent _ _ _ Hnone).
  simpl. unfold has_id. simpl. rewrite Z.eqb_refl. repeat split.
Qed.

(** X15.  The first login of a Whop user on the full server creates one row,
    whose id the redirect carries and which holds the tokens of the login,
    and unlocks First Steps once: the new user starts at level 1 with 100
    xp and 100 points, one unlock row and one activity entry; the rows of
    the other users are untouched. *)
Theorem auth_callback_first_login (code : option string) (login : whop_login)
  (nextId : Z) (w : world) :
  code_missing code = false ->
  (forall u, In u (users w) -> whop_user_id u <> login_id login) ->
  (forall u, In u (users w) -> id u <> nextId) ->
  unlock_count nextId 1 w = 0%nat ->
  exists w',
    get_auth_callback code (Some login) nextId w =
      (Return (Auth_redirect nextId (login_id login)), w') /\
    users w' = users w ++ [first_steps_user nextId login] /\
    user_achievements w' = user_achievements w ++
      [{| ua_user_id := nextId; achievement_id := 1;
          unlocked_at := clock w |}] /\
    activity_log w' = activity_log w ++
      [{| al_user_id := nextId; activity_type := "achievement";
          description := "Unlocked achievement"; xp_earned := 100;
          al_created_at := clock w |}].
Proof.
  intros Hcode Hwhop Hid Hc.
  destruct (first_login_rows code login nextId w Hcode Hwhop Hid Hc)
    as (w' & Hrun & Hus & Hua & Hlog & _).
  exists w'. repeat split; assumption.
Qed.

Lemma auth_callback_first_login_witness :
  exists w',
    get_auth_callback (Some "c0de") (Some (login_of "user_new")) 2
      sample_world =
      (Return (Auth_redirect 2 "user_new"), w') /\
    users w' = users sample_world
               ++ [first_steps_user 2 (login_of "user_new")].
Proof.
  destruct (auth_callback_first_login (Some "c0de") (login_of "user_new") 2
              sample_world)
    as (w' & Hrun & Hus & _).
  - reflexivity.
  - intros u [<-|[]]. discriminate.
  - intros u [<-|[]]. discriminate.
  - reflexivity.
  - exists w'. split; assumption.
Defined.

Lemma map_login_absent (whopId : string) (g : user -> user) (l : list user) :
  (forall u, In u l -> whop_user_id u <> whopId) ->
  map (fun u => if has_whop_id (Some whopId) u then g u else u) l = l.
Proof.
  induction l as [|u l IH]; intros Hno; simpl; [reflexivity|].
  assert (Hu : (whop_user_id u =? whopId)%string = false)
    by (apply String.eqb_neq, Hno; now left).
  rewrite Hu. f_equal. apply IH. intros v Hv. apply Hno. now right.
Qed.

(** X16.  A login of a known Whop user rewrites the tokens and [last_login]
    of the rows of that user and nothing else: every other column, every
    other user and every other table stay as they are; the redirect
    carries the id of the first row with the Whop id.  So a second login
    right after the first one yields the same id, stores the new tokens and
    credits First Steps no second time. *)
Theorem auth_callback_returning_user (code : option string)
  (login again : whop_login) (nextId nextId2 t : Z) (w : world) :
  code_missing code = false ->
  (forall row rest,
     filter (has_whop_id (Some (login_id login))) (users w) = row :: rest ->
     get_auth_callback code (Some login) nextId w =
     (Return (Auth_redirect (id row) (login_id login)),
      update_login login w)) /\
  (forall userId u,
     find_user userId w = Some u ->
     exists u',
       find_user userId (update_login login w) = Some u' /\
       id u' = id u /\ whop_user_id u' = whop_user_id u /\
       level u' = level u /\ xp u' = xp u /\
       total_points u' = total_points u /\ streak u' = streak u /\
       last_activity u' = last_activity u /\
       (whop_user_id u = login_id login ->
        access_token u' = Some (login_access_token login) /\
        refresh_token u' = Some (login_refresh_token login) /\
        last_login u' = Some (clock w)) /\
       (whop_user_id u <> login_id login -> u' = u)) /\
  (user_tasks (update_login login w) = user_tasks w /\
   user_achievements (update_login login w) = user_achievements w /\
   user_rewards (update_login login w) = user_rewards w /\
   activity_log (update_login login w) = activity_log w /\
   console (update_login login w) = console w) /\
  (login_id again = login_id login ->
   (forall u, In u (users w) -> whop_user_id u <> login_id login) ->
   (forall u, In u (users w) -> id u <> nextId) ->
   unlock_count nextId 1 w = 0%nat ->
   let first := run (get_auth_callback code (Some login) nextId) w in
   let second :=
     get_auth_callback code (Some again) nextId2 (at_time t first) in
   fst second = Return (Auth_redirect nextId (login_id login)) /\
   users (snd second)
   = users w ++ [set_login (login_access_token again)
                   (login_refresh_token again) t
                   (first_steps_user nextId login)] /\
   user_achievements (snd second) = user_achievements first /\
   activity_log (snd second) = activity_log first).
Proof.
  intros Hcode.
  assert (Hknown : forall l w0 row rest,
            filter (has_whop_id (Some (login_id l))) (users w0) = row :: rest ->
            forall n, get_auth_callback code (Some l) n w0 =
                      (Return (Auth_redirect (id row) (login_id l)),
                       update_login l w0)).
  { intros l w0 row rest Hf n.
    unfold get_auth_callback, try_catch, bind, query, exec.
    now rewrite Hcode, Hf. }
  split; [intros row rest Hf; now apply (Hknown login w row rest)|].
  split; [|split; [now repeat split|]].
  - intros userId u Hu. rewrite find_user_update_login, Hu.
    eexists. split; [reflexivity|]. cbv beta.
    unfold has_whop_id.
    destruct (String.eqb_spec (whop_user_id u) (login_id login)) as [He|Hne];
      simpl; repeat split; intros; congruence.
  - intros Hsame Hwhop Hid Hc first second.
    destruct (first_login_rows code login nextId w Hcode Hwhop Hid Hc)
      as (w' & Hrun & Hus & _).
    assert (Hw : first = w') by (unfold first, run; now rewrite Hrun).
    rewrite <- Hw in Hus.
    assert (Hrun2 : second =
              (Return (Auth_redirect nextId (login_id login)),
               update_login again (at_time t first))).
    { unfold second. rewrite <- Hsame.
      apply (Hknown again (at_time t first)
               (first_steps_user nextId login) []).
      cbn [users at_time]. rewrite Hus, filter_app, Hsame.
      rewrite (filter_whop_absent (login_id login) (users w) Hwhop). simpl.
      now rewrite String.eqb_refl. }
    rewrite Hrun2. cbn [fst snd]. split; [reflexivity|].
    split; [|split; reflexivity].
    unfold update_login. cbn [users with_users at_time clock].
    rewrite Hus, map_app, Hsame.
    rewrite (map_login_absent (login_id login) _ (users w) Hwhop).
    simpl. now rewrite String.eqb_refl.
Qed.

Lemma auth_callback_returning_user_witness :
  let first :=
    run (get_auth_callback (Some "c0de") (Some (login_of "user_new")) 2)
      sample_world in
  get_auth_callback (Some "c0de") (Some (login_of "user_abc")) 2 sample_world =
  (Return (Auth_redirect 1 "user_abc"),
   update_login (login_of "user_abc") sample_world) /\
  fst (get_auth_callback (Some "c0de") (Some (login_of "user_new")) 3
         (at_time 9 first))
  = Return (Auth_redirect 2 "user_new").
Proof.
  intros first.
  destruct (auth_callback_returning_user (Some "c0de") (login_of "user_abc")
              (login_of "user_abc") 2 3 9 sample_world eq_refl)
    as [Hknown _].
  destruct (auth_callback_returning_user (Some "c0de") (login_of "user_new")
              (login_of "user_new") 2 3 9 sample_world eq_refl)
    as (_ & _ & _ & Hagain).
  split.
  - apply (Hknown (new_user 1 "user_abc") []). reflexivity.
  - apply Hagain.
    + reflexivity.
    + intros u [<-|[]]. discriminate.
    + intros u [<-|[]]. discriminate.
    + reflexivity.
Defined.

Lemma server_js_callback_run (code : option string) (nextId : Z) (w : world) :
  server_js_get_auth_callback code nextId w =
  if code_missing code
  then (Return (Auth_json
          (res_status_json 400 (Json_error "Authorization code missing"))), w)
  else
    match filter
            (has_whop_id
               (Some (String.append "test_user_" (string_of_Z (clock w)))))
            (users w)
    with
    | [] =>
        (Return (Auth_redirect nextId
                   (String.append "test_user_" (string_of_Z (clock w)))),
         with_users (fun l => l ++
           [new_user nextId
              (String.append "test_user_" (string_of_Z (clock w)))]) w)
    | row :: _ =>
        (Return (Auth_redirect (id row)
                   (String.append "test_user_" (string_of_Z (clock w)))), w)
    end.
Proof.
  unfold server_js_get_auth_callback, try_catch, bind, query, exec.
  destruct (code_missing code); [reflexivity|].
  now destruct (filter _ (users w)).
Qed.

(** X17.  The callback of [server.js] never credits anything: whatever the
    request, the unlocks, the activity log and the rows of the users
    already stored stay as they are, and at most one row is appended, for
    the test user of the current clock value, at level 1 with 0 xp and 0
    points. *)
Theorem server_js_auth_callback_effect (code : option string) (nextId : Z)
  (w : world) :
  let w' := run (server_js_get_auth_callback code nextId) w in
  let testUser := String.append "test_user_" (string_of_Z (clock w)) in
  user_achievements w' = user_achievements w /\
  activity_log w' = activity_log w /\
  (users w' = users w \/ users w' = users w ++ [new_user nextId testUser]) /\
  ((code_missing code = false /\
    forall u, In u (users w) -> whop_user_id u <> testUser) ->
   outcome_of (server_js_get_auth_callback code nextId) w
   = Return (Auth_redirect nextId testUser) /\
   users w' = users w ++ [new_user nextId testUser]).
Proof.
  intros w' testUser. unfold w', run, outcome_of.
  rewrite server_js_callback_run. fold testUser.
  destruct (code_missing code) eqn:Hcode.
  - cbn [fst snd]. split; [reflexivity|]. split; [reflexivity|].
    split; [now left|]. intros [Hc _]. discriminate.
  - destruct (filter (has_whop_id (Some testUser)) (users w)) as [|row rest]
      eqn:Hf; cbn [fst snd].
    + split; [reflexivity|]. split; [reflexivity|].
      split; [now right|]. intros _. now split.
    + split; [reflexivity|]. split; [reflexivity|].
      split; [now left|]. intros [_ Hno].
      rewrite (filter_whop_absent testUser (users w) Hno) in Hf.
      discriminate.
Qed.

Lemma server_js_auth_callback_effect_witness :
  outcome_of (server_js_get_auth_callback (Some "c0de") 2)
    (at_time 1234 sample_world)
  = Return (Auth_redirect 2 "test_user_1234") /\
  users (run (server_js_get_auth_callback (Some "c0de") 2)
           (at_time 1234 sample_world))
  = users sample_world ++ [new_user 2 "test_user_1234"].
Proof.
  destruct (server_js_auth_callback_effect (Some "c0de") 2
              (at_time 1234 sample_world)) as (_ & _ & _ & H).
  apply H. split; [reflexivity|].
  intros u [<-|[]]. discriminate.
Defined.

(** ** Bearer tokens *)

Lemma split_space_no_space (s : string) :
  no_space s = true -> split_space s = [s].
Proof.
  induction s as [|c s IH]; simpl; [reflexivity|].
  intros H. apply andb_true_iff in H. destruct H as [Hc Hs].
  apply negb_true_iff in Hc. rewrite Hc, (IH Hs). reflexivity.
Qed.

Lemma split_space_cons (s : string) :
  exists piece more, split_space s = piece :: more.
Proof.
  induction s as [|c s (p & m & IH)]; simpl.
  - now eexists; eexists.
  - destruct (Ascii.eqb c space); [now eexists; eexists|].
    rewrite IH. now eexists; eexists.
Qed.

Lemma split_space_app (a b : string) :
  no_space a = true ->
  split_space (String.append a (String.append sp b)) = a :: split_space b.
Proof.
  induction a as [|c a IH]; intros H.
  - reflexivity.
  - cbn [no_space] in H. apply andb_true_iff in H. destruct H as [Hc Ha].
    apply negb_true_iff in Hc.
    change (split_space (String c (String.append a (String.append sp b)))
            = String c a :: split_space b).
    cbn [split_space]. now rewrite Hc, (IH Ha).
Qed.

Lemma append_sp_nonempty (a b : string) :
  (String.append a (String.append sp b) =? "")%string = false.
Proof. apply String.eqb_neq. now destruct a. Qed.

Lemma header_token_second_piece (scheme token more : string) :
  no_space scheme = true -> no_space token = true ->
  header_token (Some (String.append scheme (String.append sp token)))
  = (if (token =? "")%string then None else Some token) /\
  header_token
    (Some (String.append scheme
             (String.append sp (String.append token (String.append sp more)))))
  = (if (token =? "")%string then None else Some token).
Proof.
  intros Hs Ht. unfold header_token.
  rewrite !append_sp_nonempty, !split_space_app by assumption.
  rewrite split_space_no_space by assumption. now split.
Qed.

Section AuthenticationFacts.

Variable jwt_verify : string -> option claims.


End AuthenticationFacts.


(** ** ORDER BY *)

Section OrderBy.

Context {A : Type}.
Variable before : A -> A -> bool.

(** [b] does not come strictly before [a]. *)
Let not_after (a b : A) : Prop := before b a = false.

Hypothesis not_after_trans :
  forall a b c, not_after a b -> not_after b c -> not_after a c.
Hypothesis before_not_after : forall a b, before a b = true -> not_after a b.

Lemma insert_by_perm (x : A) (l : list A) :
  Permutation (insert_by before x l) (x :: l).
Proof.
  induction l as [|y l IH]; simpl; [reflexivity|].
  destruct (before y x); [|reflexivity].
  rewrite IH. apply perm_swap.
Qed.

Lemma insert_by_sorted (x : A) (l : list A) :
  StronglySorted not_after l -> StronglySorted not_after (insert_by before x l).
Proof.
  induction 1 as [|y l Hl IH Hy]; simpl.
  - constructor; constructor.
  - destruct (before y x) eqn:Hyx.
    + constructor; [exact IH|].
      apply (Permutation_Forall (Permutation_sym (insert_by_perm x l))).
      constructor; [now apply before_not_after | exact Hy].
    + constructor; [now constructor|].
      constructor; [exact Hyx|].
      apply Forall_forall. intros z Hz.
      apply not_after_trans with y; [exact Hyx|].
      now apply (proj1 (Forall_forall _ _) Hy).
Qed.

Lemma fold_insert_by_perm (l : list A) :
  Permutation (fold_right (insert_by before) [] l) l.
Proof.
  induction l as [|x l IH]; simpl; [reflexivity|].
  rewrite insert_by_perm. now constructor.
Qed.

Lemma fold_insert_by_sorted (l : list A) :
  StronglySorted not_after (fold_right (insert_by before) [] l).
Proof.
  induction l as [|x l IH]; simpl; [constructor|].
  now apply insert_by_sorted.
Qed.

End OrderBy.

Lemma StronglySorted_implies {A} (R R' : A -> A -> Prop) (l : list A) :
  (forall a b, R a b -> R' a b) -> StronglySorted R l -> StronglySorted R' l.
Proof.
  intros HR. induction 1 as [|x l Hl IH Hx]; constructor; [exact IH|].
  apply Forall_forall. intros y Hy. apply HR.
  now apply (proj1 (Forall_forall _ _) Hx).
Qed.

Lemma order_by_desc_perm {A} (key : A -> Z) (l : list A) :
  Permutation (order_by_desc key l) l.
Proof. apply fold_insert_by_perm. Qed.

Lemma order_by_asc_perm {A} (key : A -> Z) (l : list A) :
  Permutation (order_by_asc key l) l.
Proof. apply fold_insert_by_perm. Qed.

Lemma order_by_desc_sorted {A} (key : A -> Z) (l : list A) :
  StronglySorted (fun a b => key b <= key a) (order_by_desc key l).
Proof.
  apply (StronglySorted_implies (fun a b => (key a <? key b) = false)).
  - intros a b Hab. now apply Z.ltb_ge in Hab.
  - apply (fold_insert_by_sorted (fun y x : A => key x <? key y)).
    + intros a b c Hab Hbc. apply Z.ltb_ge in Hab, Hbc. apply Z.ltb_ge. lia.
    + intros a b Hab. apply Z.ltb_lt in Hab. apply Z.ltb_ge. lia.
Qed.

Lemma order_by_asc_sorted {A} (key : A -> Z) (l : list A) :
  StronglySorted (fun a b => key a <= key b) (order_by_asc key l).
Proof.
  apply (StronglySorted_implies (fun a b => (key b <? key a) = false)).
  - intros a b Hab. now apply Z.ltb_ge in Hab.
  - apply (fold_insert_by_sorted (fun y x : A => key y <? key x)).
    + intros a b c Hab Hbc. apply Z.ltb_ge in Hab, Hbc. apply Z.ltb_ge. lia.
    + intros a b Hab. apply Z.ltb_lt in Hab. apply Z.ltb_ge. lia.
Qed.

(** ** Leaderboard *)

Lemma nth_error_row_number {A} (l : list A) :
  forall (n : Z) (k : nat),
    nth_error (row_number n l) k
    = option_map (fun x => (n + Z.of_nat k, x)) (nth_error l k).
Proof.
  induction l as [|x l IH]; intros n k; destruct k as [|k]; simpl;
    try reflexivity.
  - now rewrite Z.add_0_r.
  - rewrite IH. destruct (nth_error l k); simpl; [|reflexivity].
    do 2 f_equal. lia.
Qed.

Lemma length_row_number {A} (l : list A) :
  forall n, List.length (row_number n l) = List.length l.
Proof. induction l as [|x l IH]; intros n; simpl; [|rewrite IH]; reflexivity. Qed.

Lemma nth_error_limit_offset {A} (limit offset : Z) (l : list A) (k : nat)
  (x : A) :
  nth_error (limit_offset limit offset l) k = Some x ->
  (k < Z.to_nat limit)%nat /\ nth_error l (Z.to_nat offset + k) = Some x.
Proof.
  unfold limit_offset. rewrite nth_error_firstn.
  destruct (Nat.ltb_spec k (Z.to_nat limit)); [|discriminate].
  rewrite nth_error_skipn. auto.
Qed.

Lemma sorted_desc_split {A} (key : A -> Z) (l : list A) :
  StronglySorted (fun a b => key b <= key a) l ->
  forall j x,
    nth_error l j = Some x ->
    Forall (fun y => key x <= key y) (firstn j l) /\
    Forall (fun y => key y <= key x) (skipn j l).
Proof.
  induction 1 as [|a l Hl IH Ha]; intros j x Hj.
  - destruct j; discriminate.
  - destruct j as [|j]; simpl in *.
    + injection Hj as <-. split; [constructor|].
      constructor; [lia | exact Ha].
    + destruct (IH j x Hj) as [Hf Hs]. split; [|exact Hs].
      constructor; [|exact Hf].
      apply nth_error_In in Hj.
      now apply (proj1 (Forall_forall _ _) Ha).
Qed.

Lemma filter_none {A} (p : A -> bool) (l : list A) :
  Forall (fun y => p y = false) l -> filter p l = [].
Proof.
  induction 1 as [|y l Hy Hl IH]; simpl; [reflexivity|]. now rewrite Hy.
Qed.

Lemma filter_all {A} (p : A -> bool) (l : list A) :
  Forall (fun y => p y = true) l -> filter p l = l.
Proof.
  induction 1 as [|y l Hy Hl IH]; simpl; [reflexivity|]. now rewrite Hy, IH.
Qed.

Lemma length_filter_le {A} (p : A -> bool) (l : list A) :
  (List.length (filter p l) <= List.length l)%nat.
Proof.
  induction l as [|y l IH]; simpl; [lia|]. destruct (p y); simpl; lia.
Qed.

Lemma length_filter_perm {A} (p : A -> bool) (l l' : list A) :
  Permutation l l' ->
  List.length (filter p l) = List.length (filter p l').
Proof.
  induction 1 as [|x l l' Hp IH|x y l|l l' l'' H1 IH1 H2 IH2]; simpl.
  - reflexivity.
  - destruct (p x); simpl; congruence.
  - destruct (p x), (p y); reflexivity.
  - congruence.
Qed.

Lemma Forall_impl_bool {A} (P : A -> Prop) (p : A -> bool) (l : list A) :
  (forall y, P y -> p y = true) -> Forall P l ->
  Forall (fun y => p y = true) l.
Proof. intros H HP. eapply Forall_impl; [|exact HP]. exact H. Qed.

(** The rows of the full board and where they come from. *)
Lemma leaderboard_nth (userId limit offset : Z) (w : world) (k : nat)
  (row : leaderboard_row) :
  nth_error (leaderboard userId limit offset w) k = Some row ->
  (k < Z.to_nat limit)%nat /\
  exists u,
    nth_error (order_by_desc total_points (users w)) (Z.to_nat offset + k)
    = Some u /\
    row = leaderboard_row_of userId (1 + Z.of_nat (Z.to_nat offset + k), u).
Proof.
  unfold leaderboard. intros H.
  apply nth_error_limit_offset in H. destruct H as [Hk H]. split; [exact Hk|].
  rewrite nth_error_map, nth_error_row_number in H.
  destruct (nth_error (order_by_desc total_points (users w)) _) as [u|];
    [|discriminate].
  simpl in H. injection H as <-. now exists u.
Qed.

Lemma leaderboard_rows (userId limit offset : Z) (w : world) :
  0 <= limit -> 0 <= offset ->
  List.length (leaderboard userId limit offset w)
  = Nat.min (Z.to_nat limit) (List.length (users w) - Z.to_nat offset) /\
  forall k row,
    nth_error (leaderboard userId limit offset w) k = Some row ->
    lb_rank row = offset + Z.of_nat k + 1 /\
    lb_badge row = badge_of (lb_rank row) /\
    (3 < lb_rank row -> lb_badge row = Star) /\
    lb_is_user row = (lb_id row =? userId) /\
    (exists u,
       In u (users w) /\ lb_id row = id u /\
       lb_total_points row = total_points u /\ lb_level row = level u) /\
    forall k' row',
      (k < k')%nat ->
      nth_error (leaderboard userId limit offset w) k' = Some row' ->
      lb_total_points row' <= lb_total_points row.
Proof.
  intros Hl Ho. split.
  - unfold leaderboard, limit_offset.
    rewrite length_firstn, length_skipn, length_map, length_row_number.
    now rewrite (Permutation_length (order_by_desc_perm total_points (users w))).
  - intros k row Hrow.
    destruct (leaderboard_nth _ _ _ _ _ _ Hrow) as (Hk & u & Hu & ->).
    cbn [lb_rank lb_badge lb_is_user lb_id lb_total_points lb_level
         leaderboard_row_of fst snd].
    split; [lia|]. split; [reflexivity|]. split.
    { intros H3. unfold badge_of.
      repeat match goal with
             | |- context [?a =? ?b] =>
                 destruct (Z.eqb_spec a b); [lia|]
             end. reflexivity. }
    split; [reflexivity|]. split.
    + exists u. split; [|auto].
      apply (Permutation_in _ (order_by_desc_perm total_points (users w))).
      now apply nth_error_In in Hu.
    + intros k' row' Hkk Hrow'.
      destruct (leaderboard_nth _ _ _ _ _ _ Hrow') as (_ & u' & Hu' & ->).
      cbn [lb_total_points leaderboard_row_of snd].
      destruct (sorted_desc_split total_points _
                  (order_by_desc_sorted total_points (users w)) _ _ Hu)
        as [_ Hbelow].
      assert (Hin : In u' (skipn (Z.to_nat offset + k)
                             (order_by_desc total_points (users w)))).
      { apply (nth_error_In _ (k' - k)). rewrite nth_error_skipn.
        replace (Z.to_nat offset + k + (k' - k))%nat
          with (Z.to_nat offset + k')%nat by lia. exact Hu'. }
      now apply (proj1 (Forall_forall _ _) Hbelow).
Qed.

(** X21.  A page of the leaderboard, 50 rows from the top unless the query says
    otherwise: it holds [min limit (n - offset)] rows of the [n] users;
    the row at position [k] has rank [offset + k + 1], the badge of that
    rank (so only stars from the fourth rank on) and the flag of the
    caller's own id; it shows the id, points and level of a user, and no
    row below it has more points.  A negative limit or offset is answered
    500. *)
Theorem leaderboard_page (userId : Z) (limit offset : option Z) (w : world) :
  let l := match limit with Some l => l | None => 50 end in
  let o := match offset with Some o => o | None => 0 end in
  (l < 0 \/ o < 0 -> get_api_leaderboard userId limit offset w = None) /\
  (0 <= l -> 0 <= o ->
   exists page,
     get_api_leaderboard userId limit offset w = Some page /\
     List.length page
     = Nat.min (Z.to_nat l) (List.length (users w) - Z.to_nat o) /\
     forall k row,
       nth_error page k = Some row ->
       lb_rank row = o + Z.of_nat k + 1 /\
       lb_badge row = badge_of (lb_rank row) /\
       (3 < lb_rank row -> lb_badge row = Star) /\
       lb_is_user row = (lb_id row =? userId) /\
       (exists u,
          In u (users w) /\ lb_id row = id u /\
          lb_total_points row = total_points u /\ lb_level row = level u) /\
       forall k' row',
         (k < k')%nat ->
         nth_error page k' = Some row' ->
         lb_total_points row' <= lb_total_points row).
Proof.
  intros l o. unfold get_api_leaderboard. fold l o. split.
  - intros [H|H]; apply Z.ltb_lt in H; rewrite H; [reflexivity|].
    now rewrite orb_true_r.
  - intros Hl Ho.
    replace (l <? 0) with false by (symmetry; apply Z.ltb_ge; lia).
    replace (o <? 0) with false by (symmetry; apply Z.ltb_ge; lia).
    eexists. split; [reflexivity|].
    exact (leaderboard_rows userId l o w Hl Ho).
Qed.

Lemma leaderboard_page_witness :
  exists page,
    get_api_leaderboard 1 None None sample_world = Some page /\
    List.length page = 1%nat.
Proof.
  destruct (leaderboard_page 1 None None sample_world) as [_ H].
  destruct H as (page & Hpage & Hlen & _); try lia.
  exists page. split; [exact Hpage | exact Hlen].
Defined.

(** X22.  The rank of the profile and the position on the leaderboard agree up
    to ties: a user shown at leaderboard rank [r] with [p] points has
    profile rank between [r - (ties - 1)] and [r], where [ties] counts the
    users with exactly [p] points; without a tie the two ranks are equal. *)
Theorem leaderboard_rank_vs_profile (userId limit offset : Z) (w : world)
  (k : nat) (row : leaderboard_row) :
  0 <= offset ->
  nth_error (leaderboard userId limit offset w) k = Some row ->
  rank_of (lb_total_points row) w <= lb_rank row
  <= rank_of (lb_total_points row) w
     + users_with_points (lb_total_points row) w - 1.
Proof.
  intros Ho Hrow.
  destruct (leaderboard_nth _ _ _ _ _ _ Hrow) as (_ & u & Hu & ->).
  cbn [lb_rank lb_total_points leaderboard_row_of fst snd].
  set (j := (Z.to_nat offset + k)%nat) in *.
  set (board := order_by_desc total_points (users w)) in *.
  set (c := total_points u).
  pose proof (order_by_desc_perm total_points (users w)) as Hperm. fold board in Hperm.
  destruct (sorted_desc_split total_points board
              (order_by_desc_sorted total_points (users w)) j u Hu)
    as [Habove Hbelow].
  unfold rank_of, users_with_points.
  rewrite <- (length_filter_perm _ _ _ Hperm).
  rewrite <- (length_filter_perm (fun v => total_points v =? c) _ _ Hperm).
  assert (Hj : (j < List.length board)%nat)
    by (apply nth_error_Some; rewrite Hu; discriminate).
  assert (Hfj : List.length (firstn j board) = j)
    by (rewrite length_firstn; lia).
  rewrite <- (firstn_skipn j board) at 1 2 3.
  rewrite !filter_app, !length_app.
  (* nobody from position j on has more points *)
  rewrite (filter_none (fun v => c <? total_points v) (skipn j board))
    by (eapply Forall_impl; [|exact Hbelow]; intros y Hy;
        apply Z.ltb_ge; exact Hy).
  (* everybody above position j has more points or a tie *)
  assert (Hsplit : forall l : list user,
            Forall (fun y => c <= total_points y) l ->
            (List.length (filter (fun v => (c <? total_points v)%Z) l)
             + List.length (filter (fun v => (total_points v =? c)%Z) l)
             = List.length l)%nat).
  { intros l Hl. induction Hl as [|y l Hy Hl IH]; simpl; [reflexivity|].
    destruct (Z.ltb_spec c (total_points y)),
             (Z.eqb_spec (total_points y) c); simpl; lia. }
  pose proof (Hsplit _ Habove) as Hcount. rewrite Hfj in Hcount.
  assert (Hself : (1 <= List.length
                     (filter (fun v => (total_points v =? c)%Z)
                        (skipn j board)))%nat).
  { destruct (skipn j board) as [|x rest] eqn:Hsk.
    - pose proof (nth_error_skipn j board 0) as H0. rewrite Hsk in H0.
      rewrite Nat.add_0_r, Hu in H0. discriminate.
    - pose proof (nth_error_skipn j board 0) as H0. rewrite Hsk in H0.
      rewrite Nat.add_0_r, Hu in H0. simpl in H0. injection H0 as ->.
      simpl. unfold c. rewrite Z.eqb_refl. simpl. lia. }
  simpl List.length. lia.
Qed.

Lemma leaderboard_rank_vs_profile_witness :
  let row := leaderboard_row_of 1 (1, new_user 1 "user_abc") in
  nth_error (leaderboard 1 50 0 sample_world) 0 = Some row /\
  rank_of (lb_total_points row) sample_world <= lb_rank row
  <= rank_of (lb_total_points row) sample_world
     + users_with_points (lb_total_points row) sample_world - 1.
Proof.
  intros row. split; [reflexivity|].
  apply (leaderboard_rank_vs_profile 1 50 0 sample_world 0 row); [lia|].
  reflexivity.
Defined.

(** ** Profile *)

Lemma find_user_In (userId : Z) (w : world) (u : user) :
  find_user userId w = Some u -> In u (users w).
Proof.
  intros Hu. destruct (find_user_select _ _ _ Hu) as [rest Hsel].
  assert (Hin : In u (select_user userId w)) by (rewrite Hsel; now left).
  unfold select_user in Hin. now apply filter_In in Hin.
Qed.

Lemma length_filter_lt {A} (p : A -> bool) (l : list A) (x : A) :
  In x l -> p x = false -> (List.length (filter p l) < List.length l)%nat.
Proof.
  induction l as [|y l IH]; intros Hin Hx; [destruct Hin|].
  simpl. destruct Hin as [->|Hin].
  - rewrite Hx. pose proof (length_filter_le p l). lia.
  - specialize (IH Hin Hx). destruct (p y); simpl; lia.
Qed.

Lemma filter_nil_iff {A} (p : A -> bool) (l : list A) :
  filter p l = [] <-> forall x, In x l -> p x = false.
Proof.
  induction l as [|y l IH]; simpl.
  - split; [intros _ x [] | reflexivity].
  - destruct (p y) eqn:Hy.
    + split; [discriminate|]. intros H. specialize (H y (or_introl eq_refl)).
      congruence.
    + rewrite IH. split.
      * intros H x [<-|Hx]; auto.
      * intros H x Hx. apply H. now right.
Qed.

(** X19.  The profile of a user who has a row: the rank is one more than the
    number of users with strictly more points, so it lies between 1 and
    the number of users, users with equal points share it, and it is 1
    exactly when nobody has more points.  Without a row the route answers
    404. *)
Theorem profile_rank (userId : Z) (w : world) :
  (find_user userId w = None -> get_api_user_profile userId w = None) /\
  (forall u,
     find_user userId w = Some u ->
     exists p,
       get_api_user_profile userId w = Some p /\
       p_totalPoints p = total_points u /\
       p_rank p = rank_of (total_points u) w /\
       1 <= p_rank p <= Z.of_nat (List.length (users w)) /\
       (p_rank p = 1 <->
        forall v, In v (users w) -> total_points v <= total_points u)).
Proof.
  split.
  - intros Hu. apply find_user_none in Hu. unfold get_api_user_profile.
    now rewrite Hu.
  - intros u Hu. destruct (find_user_select _ _ _ Hu) as [rest Hsel].
    unfold get_api_user_profile. rewrite Hsel. eexists.
    split; [reflexivity|]. cbn [p_totalPoints p_rank].
    split; [reflexivity|]. split; [reflexivity|].
    unfold rank_of.
    pose proof (length_filter_lt (fun v => total_points u <? total_points v)
                  (users w) u (find_user_In _ _ _ Hu) (Z.ltb_irrefl _)) as Hlt.
    split; [lia|]. split.
    + intros H1.
      assert (Hnil : filter (fun v => total_points u <? total_points v)
                       (users w) = []).
      { destruct (filter _ (users w)); [reflexivity|]. simpl in H1. lia. }
      intros v Hv. apply Z.ltb_ge.
      exact (proj1 (filter_nil_iff _ _) Hnil v Hv).
    + intros Hall.
      assert (Hnil : filter (fun v => total_points u <? total_points v)
                       (users w) = []).
      { apply filter_nil_iff. intros v Hv. apply Z.ltb_ge. now apply Hall. }
      now rewrite Hnil.
Qed.

Lemma profile_rank_witness :
  exists p,
    get_api_user_profile 1 sample_world = Some p /\
    p_rank p = 1.
Proof.
  destruct (profile_rank 1 sample_world) as [_ H].
  destruct (H (new_user 1 "user_abc") eq_refl) as (p & Hp & _ & _ & _ & H1).
  exists p. split; [exact Hp|]. apply H1.
  intros v [<-|[]]. simpl. lia.
Defined.

Lemma length_filter_map_le {A} (p p' : A -> bool) (g : A -> A) (l : list A) :
  (forall v, p' (g v) = true -> p v = true) ->
  (List.length (filter p' (map g l)) <= List.length (filter p l))%nat.
Proof.
  intros H. induction l as [|v l IH]; simpl; [lia|].
  destruct (p' (g v)) eqn:Hg.
  - rewrite (H v Hg). simpl. lia.
  - destruct (p v); simpl; lia.
Qed.

Lemma length_filter_map_ge {A} (p p' : A -> bool) (g : A -> A) (l : list A) :
  (forall v, p v = true -> p' (g v) = true) ->
  (List.length (filter p l) <= List.length (filter p' (map g l)))%nat.
Proof.
  intros H. induction l as [|v l IH]; simpl; [lia|].
  destruct (p v) eqn:Hv.
  - rewrite (H v Hv). simpl. lia.
  - destruct (p' (g v)); simpl; lia.
Qed.

Lemma rank_of_update_le (userId P P' : Z) (f : user -> user) (w : world) :
  (forall v, has_id userId v = true -> total_points (f v) = P') ->
  P <= P' ->
  rank_of P' (update_user userId f w) <= rank_of P w.
Proof.
  intros Hf Hle. unfold rank_of. simpl.
  pose proof (length_filter_map_le
                (fun v => P <? total_points v)
                (fun v => P' <? total_points v)
                (fun v => if has_id userId v then f v else v) (users w)) as H.
  assert (Hpre : forall v,
            (P' <? total_points (if has_id userId v then f v else v)) = true ->
            (P <? total_points v) = true).
  { intros v. destruct (has_id userId v) eqn:Hv; intros Hlt.
    - rewrite (Hf v Hv), Z.ltb_irrefl in Hlt. discriminate.
    - apply Z.ltb_lt in Hlt. apply Z.ltb_lt. lia. }
  specialize (H Hpre). lia.
Qed.

Lemma rank_of_redeem_world (userId rewardId : Z) (r : reward) (u : user)
  (w : world) :
  0 <= cost r ->
  rank_of (total_points u) w
  <= rank_of (total_points u - cost r) (redeem_world userId rewardId r w).
Proof.
  intros Hc. unfold rank_of, redeem_world. simpl.
  pose proof (length_filter_map_ge
                (fun v => total_points u <? total_points v)
                (fun v => total_points u - cost r <? total_points v)
                (fun v => if has_id userId v
                          then set_total_points (total_points v - cost r) v
                          else v) (users w)) as H.
  assert (Hpre : forall v,
            (total_points u <? total_points v) = true ->
            (total_points u - cost r
             <? total_points
                  (if has_id userId v
                   then set_total_points (total_points v - cost r) v
                   else v)) = true).
  { intros v Hlt. apply Z.ltb_lt in Hlt. apply Z.ltb_lt.
    destruct (has_id userId v); simpl; lia. }
  specialize (H Hpre). lia.
Qed.

(** X20.  The rank follows the points: an award of a non-negative amount never
    worsens the rank that the profile of the awarded user shows, and a
    redemption of a reward of non-negative cost never improves it. *)
Theorem profile_rank_after_award_and_redeem (userId : Z) (w : world)
  (u : user) :
  find_user userId w = Some u ->
  exists p,
    get_api_user_profile userId w = Some p /\
    (forall a, 0 <= a ->
       exists p',
         get_api_user_profile userId (run (awardXP userId a) w) = Some p' /\
         p_totalPoints p' = p_totalPoints p + a /\
         p_rank p' <= p_rank p) /\
    (forall rewardId r,
       find_reward rewardId w = Some r ->
       0 <= cost r <= total_points u ->
       exists p',
         get_api_user_profile userId
           (run (post_api_rewards_redeem userId rewardId) w) = Some p' /\
         p_totalPoints p' = p_totalPoints p - cost r /\
         p_rank p <= p_rank p').
Proof.
  intros Hu. destruct (find_user_select _ _ _ Hu) as [rest Hsel].
  unfold get_api_user_profile at 1. rewrite Hsel. eexists.
  split; [reflexivity|]. cbn [p_totalPoints p_rank]. split.
  - intros a Ha. unfold run. rewrite (awardXP_found _ _ _ _ Hu). simpl snd.
    pose proof (find_user_awardXP_world userId a u w Hu) as Hu1.
    destruct (find_user_select _ _ _ Hu1) as [rest1 Hsel1].
    unfold get_api_user_profile. rewrite Hsel1. eexists.
    split; [reflexivity|]. cbn [p_totalPoints p_rank].
    destruct (awardXP_user_fields a u) as (_ & Hp & _). rewrite Hp.
    split; [reflexivity|].
    unfold awardXP_world.
    destruct (surplus (xp u + a) (calculateXPForLevel (level u + 1))).
    + etransitivity; [apply (rank_of_update_le userId (total_points u))|].
      * reflexivity.
      * lia.
      * apply Z.le_refl.
    + apply rank_of_update_le; [reflexivity | lia].
  - intros rewardId r Hr [Hc0 Hc]. unfold run.
    rewrite (redeem_enough _ _ _ u r Hu Hr Hc). simpl snd.
    pose proof (find_user_redeem_world userId rewardId w u r Hu) as Hu1.
    destruct (find_user_select _ _ _ Hu1) as [rest1 Hsel1].
    unfold get_api_user_profile. rewrite Hsel1. eexists.
    split; [reflexivity|]. cbn [p_totalPoints p_rank total_points
                                 set_total_points].
    split; [reflexivity|]. now apply rank_of_redeem_world.
Qed.

Lemma profile_rank_after_award_and_redeem_witness :
  exists p p',
    get_api_user_profile 1 sample_world = Some p /\
    get_api_user_profile 1 (run (awardXP 1 30) sample_world) = Some p' /\
    p_totalPoints p' = p_totalPoints p + 30 /\ p_rank p' <= p_rank p.
Proof.
  destruct (profile_rank_after_award_and_redeem 1 sample_world
              (new_user 1 "user_abc") eq_refl) as (p & Hp & Haward & _).
  destruct (Haward 30) as (p' & Hp' & Hpts & Hrank); [lia|].
  exists p, p'. repeat split; assumption.
Defined.

(** ** Listings *)

Lemma in_left_join {A B} (on : A -> B -> bool) (a : list A) (b : list B)
  (x : A) (o : option B) :
  In (x, o) (left_join on a b) <->
  In x a /\
  match o with
  | None => filter (on x) b = []
  | Some y => In y b /\ on x y = true
  end.
Proof.
  unfold left_join. rewrite in_flat_map. split.
  - intros (x0 & Hx0 & Hin).
    destruct (filter (on x0) b) as [|y0 ys] eqn:Hf.
    + destruct Hin as [[= <- <-]|[]]. now split.
    + apply in_map_iff in Hin. destruct Hin as (y & [= <- <-] & Hy).
      split; [exact Hx0|]. rewrite <- Hf in Hy. now apply filter_In in Hy.
  - intros [Hx Ho]. exists x. split; [exact Hx|]. destruct o as [y|].
    + assert (Hy : In y (filter (on x) b)) by now apply filter_In.
      destruct (filter (on x) b) as [|y0 ys]; [destruct Hy|].
      apply in_map_iff. now exists y.
    + rewrite Ho. now left.
Qed.

Lemma redeemed_filter (userId : Z) (r : reward) (w : world) :
  filter (fun ur => (rw_id r =? reward_id ur) && (ur_user_id ur =? userId))
    (user_rewards w)
  = filter (redeemed userId (rw_id r)) (user_rewards w).
Proof.
  apply filter_ext. intros ur. unfold redeemed.
  rewrite (Z.eqb_sym (rw_id r)). apply andb_comm.
Qed.

(** X23.  The reward shop as the route lists it: only active rewards of the
    catalog, every one of them, in the order of their cost; a row is
    marked redeemed, with its date, exactly when the caller holds a
    redemption row for the reward. *)
Theorem rewards_listing (userId : Z) (w : world) :
  (forall row,
     In row (get_api_rewards userId w) ->
     In (rr_reward row) (rewards w) /\
     rw_active (rr_reward row) = true /\
     (rr_redeemed row = true <->
      (1 <= redemption_count userId (rw_id (rr_reward row)) w)%nat) /\
     (rr_redeemed row = true <-> rr_redeemed_at row <> None)) /\
  (forall r,
     In r (rewards w) -> rw_active r = true ->
     exists row, In row (get_api_rewards userId w) /\ rr_reward row = r) /\
  StronglySorted (fun a b => cost (rr_reward a) <= cost (rr_reward b))
    (get_api_rewards userId w).
Proof.
  unfold get_api_rewards.
  set (on := fun (r : reward) (ur : user_reward) =>
               (rw_id r =? reward_id ur) && (ur_user_id ur =? userId)).
  set (mk := fun j : reward * option user_reward =>
               {| rr_reward := fst j;
                  rr_redeemed := match snd j with
                                 | Some _ => true
                                 | None => false
                                 end;
                  rr_redeemed_at := option_map redeemed_at (snd j) |}).
  split; [|split].
  - intros row Hrow.
    apply (Permutation_in _ (order_by_asc_perm _ _)) in Hrow.
    apply in_map_iff in Hrow. destruct Hrow as ([r o] & <- & Hj).
    apply filter_In in Hj. destruct Hj as [Hj Hact]. simpl in Hact.
    apply in_left_join in Hj. destruct Hj as [Hr Ho].
    cbn [rr_reward rr_redeemed rr_redeemed_at mk fst snd].
    split; [exact Hr|]. split; [exact Hact|].
    unfold redemption_count. rewrite <- redeemed_filter. fold (on r).
    destruct o as [ur|]; simpl.
    + destruct Ho as [Hur Hon].
      assert (Hin : In ur (filter (on r) (user_rewards w)))
        by now apply filter_In.
      split; split; intros _; try reflexivity; try discriminate.
      destruct (filter (on r) (user_rewards w)); [destruct Hin | simpl; lia].
    + rewrite Ho. simpl. split; split; intros H; try discriminate; try lia.
      now contradiction H.
  - intros r Hr Hact.
    destruct (filter (on r) (user_rewards w)) as [|ur urs] eqn:Hf.
    + exists (mk (r, None)). split; [|reflexivity].
      apply (Permutation_in _ (Permutation_sym (order_by_asc_perm _ _))).
      apply in_map. apply filter_In. split; [|exact Hact].
      apply in_left_join. now split.
    + exists (mk (r, Some ur)). split; [|reflexivity].
      apply (Permutation_in _ (Permutation_sym (order_by_asc_perm _ _))).
      apply in_map. apply filter_In. split; [|exact Hact].
      apply in_left_join. split; [exact Hr|].
      assert (Hin : In ur (filter (on r) (user_rewards w)))
        by (rewrite Hf; now left).
      now apply filter_In in Hin.
  - apply order_by_asc_sorted.
Qed.

Lemma rewards_listing_witness :
  exists row,
    In row (get_api_rewards 1 redeemed_world) /\
    rr_reward row = {| rw_id := 1; cost := 500; rw_active := true |} /\
    rr_redeemed row = true.
Proof.
  destruct (rewards_listing 1 redeemed_world) as (Hrow & Hall & _).
  destruct (Hall {| rw_id := 1; cost := 500; rw_active := true |})
    as (row & Hin & Hr).
  - vm_compute. left. reflexivity.
  - reflexivity.
  - exists row. split; [exact Hin|]. split; [exact Hr|].
    destruct (Hrow row Hin) as (_ & _ & Hred & _). apply Hred.
    rewrite Hr. vm_compute. lia.
Defined.

Lemma length_left_join_filter {A B} (on : A -> B -> bool) (keep : A -> bool)
  (a : list A) (b : list B) :
  List.length (filter (fun j => keep (fst j)) (left_join on a b))
  = list_sum (map (fun x => Nat.max 1 (List.length (filter (on x) b)))
                (filter keep a)).
Proof.
  unfold left_join.
  set (chunk := fun x : A =>
                  match filter (on x) b with
                  | [] => [(x, None)]
                  | matches => map (fun y => (x, Some y)) matches
                  end).
  assert (Hchunk : forall x,
    List.length (filter (fun j : A * option B => keep (fst j)) (chunk x))
    = if keep x then Nat.max 1 (List.length (filter (on x) b)) else 0%nat).
  { intros x. unfold chunk. destruct (filter (on x) b) as [|y ys].
    - simpl. now destruct (keep x).
    - destruct (keep x) eqn:Hk.
      + rewrite filter_all, length_map; [simpl; lia|].
        apply Forall_forall. intros j Hj. apply in_map_iff in Hj.
        now destruct Hj as (y0 & <- & _).
      + rewrite filter_none; [reflexivity|].
        apply Forall_forall. intros j Hj. apply in_map_iff in Hj.
        now destruct Hj as (y0 & <- & _). }
  induction a as [|x a IH]; [reflexivity|].
  change (flat_map chunk (x :: a)) with (chunk x ++ flat_map chunk a).
  rewrite filter_app, length_app, IH, Hchunk.
  cbn [filter]. destruct (keep x); simpl; lia.
Qed.


(** ** Daily tasks *)

Lemma task_rows_filter (userId : Z) (dt : daily_task) (w : world) :
  filter (fun ut => (dt_id dt =? ut_task_id ut) && (ut_user_id ut =? userId) &&
                    (DATE (ut_created_at ut) =? DATE (clock w)))
    (user_tasks w)
  = task_rows userId (dt_id dt) (DATE (clock w)) w.
Proof.
  apply filter_ext. intros ut. unfold task_row_of.
  rewrite (Z.eqb_sym (dt_id dt)).
  now rewrite (andb_comm (ut_task_id ut =? dt_id dt)).
Qed.

(** X25.  The daily list shows every active task of the catalog and no other, in
    the order of the task ids; a task is shown with a completion state
    exactly on the calendar days for which the caller has a row for it,
    and that state is the one of such a row, so that a task completed
    yesterday is open again today. *)
Theorem tasks_daily_listing (userId : Z) (w : world) :
  (forall row,
     In row (get_api_tasks_daily userId w) ->
     In (tr_task row) (daily_tasks w) /\
     dt_active (tr_task row) = true /\
     match tr_completed row with
     | None =>
         task_rows userId (dt_id (tr_task row)) (DATE (clock w)) w = []
     | Some c =>
         exists ut,
           In ut (task_rows userId (dt_id (tr_task row)) (DATE (clock w)) w)
           /\ completed ut = c
     end) /\
  (forall dt,
     In dt (daily_tasks w) -> dt_active dt = true ->
     exists row, In row (get_api_tasks_daily userId w) /\ tr_task row = dt) /\
  StronglySorted (fun a b => dt_id (tr_task a) <= dt_id (tr_task b))
    (get_api_tasks_daily userId w).
Proof.
  unfold get_api_tasks_daily.
  set (on := fun (dt : daily_task) (ut : user_task) =>
               (dt_id dt =? ut_task_id ut) && (ut_user_id ut =? userId) &&
               (DATE (ut_created_at ut) =? DATE (clock w))).
  set (mk := fun j : daily_task * option user_task =>
               {| tr_task := fst j;
                  tr_completed := option_map completed (snd j);
                  tr_progress := option_map progress (snd j);
                  tr_completed_at :=
                    match snd j with
                    | Some ut => completed_at ut
                    | None => None
                    end |}).
  split; [|split].
  - intros row Hrow.
    apply (Permutation_in _ (order_by_asc_perm _ _)) in Hrow.
    apply in_map_iff in Hrow. destruct Hrow as ([dt o] & <- & Hj).
    apply filter_In in Hj. destruct Hj as [Hj Hact]. simpl in Hact.
    apply in_left_join in Hj. destruct Hj as [Hdt Ho].
    cbn [tr_task tr_completed mk fst snd].
    split; [exact Hdt|]. split; [exact Hact|].
    rewrite <- task_rows_filter. fold (on dt).
    destruct o as [ut|]; simpl.
    + destruct Ho as [Hut Hon]. exists ut. split; [|reflexivity].
      now apply filter_In.
    + exact Ho.
  - intros dt Hdt Hact.
    destruct (filter (on dt) (user_tasks w)) as [|ut uts] eqn:Hf.
    + exists (mk (dt, None)). split; [|reflexivity].
      apply (Permutation_in _ (Permutation_sym (order_by_asc_perm _ _))).
      apply in_map. apply filter_In. split; [|exact Hact].
      apply in_left_join. now split.
    + exists (mk (dt, Some ut)). split; [|reflexivity].
      apply (Permutation_in _ (Permutation_sym (order_by_asc_perm _ _))).
      apply in_map. apply filter_In. split; [|exact Hact].
      apply in_left_join. split; [exact Hdt|].
      assert (Hin : In ut (filter (on dt) (user_tasks w)))
        by (rewrite Hf; now left).
      now apply filter_In in Hin.
  - apply order_by_asc_sorted.
Qed.

Lemma tasks_daily_listing_witness :
  let done := run (post_api_tasks_complete 1 1) (at_time 86400000 sample_world)
  in
  (exists row, In row (get_api_tasks_daily 1 done) /\
               dt_id (tr_task row) = 1 /\ tr_completed row = Some true) /\
  (exists row, In row (get_api_tasks_daily 1 (at_time 172800000 done)) /\
               dt_id (tr_task row) = 1 /\ tr_completed row = None).
Proof.
  intros done.
  set (dt := {| dt_id := 1; required_count := 1; xp_reward := 80;
                dt_active := true |}).
  split.
  - destruct (tasks_daily_listing 1 done) as (Hrow & Hall & _).
    destruct (Hall dt) as (row & Hin & Hr);
      [vm_compute; left; reflexivity | reflexivity |].
    exists row. split; [exact Hin|]. rewrite Hr. split; [reflexivity|].
    destruct (Hrow row Hin) as (_ & _ & Hc). rewrite Hr in Hc.
    destruct (tr_completed row) as [c|].
    + destruct Hc as (ut & Hut & <-).
      vm_compute in Hut. destruct Hut as [<-|[]]. reflexivity.
    + vm_compute in Hc. discriminate.
  - destruct (tasks_daily_listing 1 (at_time 172800000 done))
      as (Hrow & Hall & _).
    destruct (Hall dt) as (row & Hin & Hr);
      [vm_compute; left; reflexivity | reflexivity |].
    exists row. split; [exact Hin|]. rewrite Hr. split; [reflexivity|].
    destruct (Hrow row Hin) as (_ & _ & Hc). rewrite Hr in Hc.
    destruct (tr_completed row) as [c|]; [|reflexivity].
    destruct Hc as (ut & Hut & _). vm_compute in Hut. destruct Hut.
Defined.

(** ** Activity feed *)

Lemma StronglySorted_app_inv {A} (R : A -> A -> Prop) (l1 l2 : list A) :
  StronglySorted R (l1 ++ l2) ->
  StronglySorted R l1 /\ forall a b, In a l1 -> In b l2 -> R a b.
Proof.
  induction l1 as [|x l1 IH]; simpl; intros H.
  - split; [constructor | intros a b []].
  - apply StronglySorted_inv in H. destruct H as [Hs Hx].
    destruct (IH Hs) as [Hs1 Hcross]. split.
    + constructor; [exact Hs1|].
      apply Forall_forall. intros y Hy.
      apply (proj1 (Forall_forall _ _) Hx). apply in_or_app. now left.
    + intros a b [<-|Ha] Hb.
      * apply (proj1 (Forall_forall _ _) Hx). apply in_or_app. now right.
      * now apply Hcross.
Qed.

(** X26.  The activity feed holds entries of the caller only, at most [limit] of
    them (20 without a limit), the newest first; what it leaves out is
    never newer than what it shows. *)
Theorem activity_feed (userId : Z) (limit : option Z) (w : world) :
  match limit with Some l => 0 <= l | None => True end ->
  let feed := get_api_activity userId limit w in
  let own := filter (fun a => al_user_id a =? userId) (activity_log w) in
  (forall a, In a feed -> In a (activity_log w) /\ al_user_id a = userId) /\
  List.length feed
  = Nat.min (Z.to_nat (match limit with Some l => l | None => 20 end))
      (List.length own) /\
  StronglySorted (fun a b => al_created_at b <= al_created_at a) feed /\
  (forall a b,
     In a feed -> In b own -> al_created_at a < al_created_at b -> In b feed).
Proof.
  intros _ feed own. unfold feed, get_api_activity. fold own.
  set (n := Z.to_nat (match limit with Some l => l | None => 20 end)).
  set (sorted := order_by_desc al_created_at own).
  pose proof (order_by_desc_perm al_created_at own) as Hperm.
  pose proof (order_by_desc_sorted al_created_at own) as Hsorted.
  fold sorted in Hperm, Hsorted.
  rewrite <- (firstn_skipn n sorted) in Hsorted.
  apply StronglySorted_app_inv in Hsorted. destruct Hsorted as [Hfirst Hcross].
  split; [|split; [|split]].
  - intros a Ha.
    assert (Hin : In a own).
    { apply (Permutation_in _ Hperm).
      rewrite <- (firstn_skipn n sorted). apply in_or_app. now left. }
    unfold own in Hin. apply filter_In in Hin. destruct Hin as [Hlog Hid].
    split; [exact Hlog | now apply Z.eqb_eq].
  - rewrite length_firstn. now rewrite (Permutation_length Hperm).
  - exact Hfirst.
  - intros a b Ha Hb Hnewer.
    apply (Permutation_in _ (Permutation_sym Hperm)) in Hb.
    rewrite <- (firstn_skipn n sorted) in Hb.
    apply in_app_or in Hb. destruct Hb as [Hb|Hb]; [exact Hb|].
    specialize (Hcross a b Ha Hb). simpl in Hcross. lia.
Qed.

Lemma activity_feed_witness :
  let w := run (awardXP 1 1200) redeemed_world in
  List.length (get_api_activity 1 (Some 1) w) = 1%nat /\
  StronglySorted (fun a b => al_created_at b <= al_created_at a)
    (get_api_activity 1 (Some 1) w).
Proof.
  intros w.
  destruct (activity_feed 1 (Some 1) w) as (_ & Hlen & Hsorted & _); [lia|].
  split.
  - rewrite Hlen. vm_compute. reflexivity.
  - exact Hsorted.
Defined.

(** ** One user at a time *)

Lemma other_user_refl (other : Z) (w : world) :
  find_user other w = find_user other w.
Proof. reflexivity. Qed.

Lemma other_user_trans (other : Z) (a b c : world) :
  find_user other b = find_user other a ->
  find_user other c = find_user other b ->
  find_user other c = find_user other a.
Proof. congruence. Qed.

(** A write that leaves the row of [other] alone. *)
Ltac keeps_other :=
  apply preserves_exec; intros ?w;
  first [ reflexivity
        | unfold find_user; apply f_equal;
          apply select_user_update_other; [reflexivity | assumption] ].

Lemma awardXP_other (userId other a : Z) :
  other <> userId ->
  preserves (fun w w' => find_user other w' = find_user other w)
    (awardXP userId a).
Proof.
  intros Hne. unfold awardXP, logActivity.
  preservation (other_user_refl other) (other_user_trans other); keeps_other.
Qed.

Lemma awardAchievement_other (userId other achievementId bonus : Z) :
  other <> userId ->
  preserves (fun w w' => find_user other w' = find_user other w)
    (awardAchievement userId achievementId bonus).
Proof.
  intros Hne. unfold awardAchievement, logActivity.
  preservation (other_user_refl other) (other_user_trans other);
    first [now apply awardXP_other | keeps_other].
Qed.

Lemma updateStreak_other (userId other : Z) :
  other <> userId ->
  preserves (fun w w' => find_user other w' = find_user other w)
    (updateStreak userId).
Proof.
  intros Hne. unfold updateStreak.
  preservation (other_user_refl other) (other_user_trans other);
    first [now apply awardAchievement_other | keeps_other].
Qed.

Lemma upsert_other (userId taskId p other : Z) :
  preserves (fun w w' => find_user other w' = find_user other w)
    (exec (upsert_user_task userId taskId p)).
Proof.
  apply preserves_exec. intros w. unfold upsert_user_task.
  now destruct (existsb _ (user_tasks w)).
Qed.

(** X4.  The helpers and routes that act for one user never change the row of
    another: whatever [awardXP], [awardAchievement], [updateStreak], a
    task completion (on either server) or a redemption does for
    [userId], the row of every other id reads as before. *)
Theorem other_users_untouched (userId other : Z) (w : world) :
  other <> userId ->
  (forall a, find_user other (run (awardXP userId a) w) = find_user other w)
  /\
  (forall achievementId bonus,
     find_user other (run (awardAchievement userId achievementId bonus) w)
     = find_user other w) /\
  find_user other (run (updateStreak userId) w) = find_user other w /\
  (forall taskId,
     find_user other (run (post_api_tasks_complete userId taskId) w)
     = find_user other w /\
     forall index,
       find_user other (run (ServerJs.tasks_complete index userId taskId) w)
       = find_user other w) /\
  (forall rewardId,
     find_user other (run (post_api_rewards_redeem userId rewardId) w)
     = find_user other w).
Proof.
  intros Hne.
  split; [intros a; now apply awardXP_other|].
  split; [intros x b; now apply awardAchievement_other|].
  split; [now apply updateStreak_other|].
  split.
  - intros taskId. split.
    + revert w. change (preserves
        (fun w w' => find_user other w' = find_user other w)
        (post_api_tasks_complete userId taskId)).
      unfold post_api_tasks_complete, console_error.
      preservation (other_user_refl other) (other_user_trans other);
        first [ now apply awardXP_other | now apply updateStreak_other
              | apply upsert_other | keeps_other ].
    + intros index. revert w. change (preserves
        (fun w w' => find_user other w' = find_user other w)
        (ServerJs.tasks_complete index userId taskId)).
      unfold ServerJs.tasks_complete, insert_user_task, console_error.
      preservation (other_user_refl other) (other_user_trans other);
        first [ now apply awardXP_other | keeps_other ].
  - intros rewardId. revert w. change (preserves
      (fun w w' => find_user other w' = find_user other w)
      (post_api_rewards_redeem userId rewardId)).
    unfold post_api_rewards_redeem, console_error.
    preservation (other_user_refl other) (other_user_trans other);
      keeps_other.
Qed.

Lemma other_users_untouched_witness :
  let w := run (get_auth_callback (Some "c0de") (Some (login_of "user_new")) 2)
             sample_world in
  find_user 2 (run (post_api_tasks_complete 1 1) w) = find_user 2 w.
Proof.
  intros w.
  destruct (other_users_untouched 1 2 w) as (_ & _ & _ & H & _); [lia|].
  exact (proj1 (H 1)).
Defined.
